(** * snapshot: a shallow embedding of [snapshot/core.py] and [snapshot/parser.py]

    The development follows the two source files.  Part I embeds the code:
    the background-worker registry, the value comparison of [SnapshotPv],
    the per-PV cache with its [value] and [restore_pv], the polling cycle
    of [PvUpdater], the request-file reader and the save-file parser.  Part II
    states and proves the properties of the specification.

    Conventions.
    - Python exceptions are results of type [res]: [Ret v] or [Raise e].
    - Calls that leave the process (channel-access reads and writes, user
      callbacks, worker methods) are recorded as events in a trace, and
      the answers of the outside world are arguments of the functions.
    - A Python float is an IEEE 754 binary64 datum, with its rounding,
      its infinities and its NaN; a Python int is an integer of any size. *)

From Stdlib Require Import ZArith QArith Qabs Bool List String Ascii Lia.
From Stdlib Require Import Numbers.DecimalString.
From Stdlib Require Import Floats.SpecFloat.
From stdpp Require Import gmap strings.
Import ListNotations.

(* ===================================================================== *)
(** * Part I: the embedding                                              *)
(* ===================================================================== *)

(** ** Exceptions and results *)

Inductive exn : Type :=
| TypeError (msg : string)
| ValueError (msg : string)
| IOError (msg : string)
| MacroError (msg : string)
| ReqParseError (msg : string)
| ReqFileFormatError (msg : string)
| ReqFileInfLoopError (msg : string)
| RecursionError (msg : string)
| AttributeError (msg : string)
| OverflowError (msg : string)
| JSONDecodeError (msg : string).

Inductive res (A : Type) : Type :=
| Ret (a : A)
| Raise (e : exn).
Arguments Ret {A} a.
Arguments Raise {A} e.

Definition bind {A B : Type} (m : res A) (k : A -> res B) : res B :=
  match m with
  | Ret a => k a
  | Raise e => Raise e
  end.

Notation "'let!' x ':=' m 'in' k" := (bind m (fun x => k))
  (at level 10, x name, m at level 100, k at level 200).

(** ** The methods of Python's [str] that parser.py uses *)

Module pystr.

(** A string is a sequence of code points below 256.  Whitespace for
    [strip()], as [str.isspace] has it: tab, newline, vertical tab, form
    feed, carriage return, the separators 28-31, the space, the next-line
    control (133) and the no-break space (160). *)
Definition is_space (c : ascii) : bool :=
  let n := nat_of_ascii c in
  ((9 <=? n) && (n <=? 13) || (28 <=? n) && (n <=? 32)
   || (n =? 133) || (n =? 160))%nat.

Fixpoint lstrip (s : string) : string :=
  match s with
  | EmptyString => EmptyString
  | String c rest => if is_space c then lstrip rest else s
  end.

Fixpoint rstrip (s : string) : string :=
  match s with
  | EmptyString => EmptyString
  | String c rest =>
      match rstrip rest with
      | EmptyString => if is_space c then EmptyString else String c EmptyString
      | r => String c r
      end
  end.

Definition strip (s : string) : string := rstrip (lstrip s).

(** [s.startswith(p)] and [s.startswith((p1, p2, ...))]. *)
Definition startswith (p s : string) : bool := String.prefix p s.

Definition startswith_any (ps : list string) (s : string) : bool :=
  existsb (fun p => startswith p s) ps.

Fixpoint last_char (s : string) : option ascii :=
  match s with
  | EmptyString => None
  | String c EmptyString => Some c
  | String _ rest => last_char rest
  end.

(** [s.endswith(c)] for a one-character string [c]. *)
Definition endswith_char (c : ascii) (s : string) : bool :=
  match last_char s with
  | Some d => Ascii.eqb c d
  | None => false
  end.

(** [s[n:]] *)
Fixpoint drop (n : nat) (s : string) : string :=
  match n, s with
  | O, _ => s
  | S k, EmptyString => EmptyString
  | S k, String _ rest => drop k rest
  end.

(** [s[:-1]] *)
Fixpoint drop_last (s : string) : string :=
  match s with
  | EmptyString => EmptyString
  | String c EmptyString => EmptyString
  | String c rest => String c (drop_last rest)
  end.

(** [s.split(c, maxsplit=1)]: the text before the first [c], and the text
    after it when there is one. *)
Fixpoint split_once (c : ascii) (s : string) : string * option string :=
  match s with
  | EmptyString => (EmptyString, None)
  | String a rest =>
      if Ascii.eqb a c then (EmptyString, Some rest)
      else let '(h, t) := split_once c rest in (String a h, t)
  end.

(** [s.split(c)]: at least one piece. *)
Fixpoint split (c : ascii) (s : string) : list string :=
  match s with
  | EmptyString => [EmptyString]
  | String a rest =>
      if Ascii.eqb a c then EmptyString :: split c rest
      else match split c rest with
           | h :: t => String a h :: t
           | [] => [String a EmptyString]
           end
  end.

(** [sep.join(l)] *)
Fixpoint join (sep : string) (l : list string) : string :=
  match l with
  | [] => EmptyString
  | [x] => x
  | x :: rest => x +:+ sep +:+ join sep rest
  end.

(** [s.replace(old, new)] for [old] not empty: occurrences are replaced
    from left to right and do not overlap.  [skip] counts the characters
    of an occurrence that is being passed over. *)
Fixpoint replace_from (old new : string) (skip : nat) (s : string) : string :=
  match s with
  | EmptyString => EmptyString
  | String a rest =>
      match skip with
      | S k => replace_from old new k rest
      | O =>
          if String.prefix old s
          then new +:+ replace_from old new (String.length old - 1) rest
          else String a (replace_from old new 0 rest)
      end
  end.

Definition replace (old new s : string) : string := replace_from old new 0 s.

(** ['{}'.format(n)] for a natural number. *)
Definition of_nat (n : nat) : string := NilZero.string_of_uint (Nat.to_uint n).

(** ['{}'.format(n)] for an integer. *)
Definition of_Z (n : Z) : string := NilZero.string_of_int (Z.to_int n).

(** ['{}'.format(x)] for a string or [None]. *)
Definition of_option (x : option string) : string :=
  match x with
  | Some s => s
  | None => "None"
  end.

(** [sub in s] *)
Definition contains (s sub : string) : Prop :=
  exists pre post, s = pre +:+ sub +:+ post.

End pystr.

(** ** [_BackgroundWorkers] (core.py, lines 39-73) *)

Module BackgroundWorkers.

(** Workers are objects with [suspend()] and [resume()] methods; the
    registry only needs their identity. *)
Definition worker := nat.

(** A call made by the registry on one of its workers. *)
Inductive call : Type :=
| WSuspend (w : worker)
| WResume (w : worker).

Record t : Type := mk { _workers : list worker; _count : Z }.

(** [__init__] *)
Definition init : t := {| _workers := []; _count := 0 |}.

(** [suspend]: the workers are paused when the counter is zero, and the
    counter is incremented in every case. *)
Definition suspend (s : t) : t * list call :=
  let calls := if (_count s =? 0)%Z then List.map WSuspend (_workers s) else [] in
  ({| _workers := _workers s; _count := (_count s + 1)%Z |}, calls).

(** [resume]: nothing happens unless the counter is positive; it is then
    decremented and the workers are resumed when it reaches zero. *)
Definition resume (s : t) : t * list call :=
  if (0 <? _count s)%Z then
    let c := (_count s - 1)%Z in
    ({| _workers := _workers s; _count := c |},
     if (c =? 0)%Z then List.map WResume (_workers s) else [])
  else (s, []).

(** [register]: append unless already present. *)
Definition register (w : worker) (s : t) : t :=
  if existsb (Nat.eqb w) (_workers s) then s
  else {| _workers := _workers s ++ [w]; _count := _count s |}.

Fixpoint remove_first (w : worker) (ws : list worker) : option (list worker) :=
  match ws with
  | [] => None
  | x :: rest =>
      if Nat.eqb x w then Some rest
      else option_map (cons x) (remove_first w rest)
  end.

(** [unregister]: [list.index] raises [ValueError] for an unknown worker. *)
Definition unregister (w : worker) (s : t) : res t :=
  match remove_first w (_workers s) with
  | Some ws => Ret {| _workers := ws; _count := _count s |}
  | None => Raise (ValueError "worker is not in list")
  end.

(** A client of the registry calls [suspend()] or [resume()]. *)
Inductive op : Type := Suspend | Resume.

Definition step (o : op) (s : t) : t * list call :=
  match o with
  | Suspend => suspend s
  | Resume => resume s
  end.

(** The state after a sequence of calls, and the worker calls it made. *)
Fixpoint run (ops : list op) (s : t) : t * list call :=
  match ops with
  | [] => (s, [])
  | o :: rest =>
      let '(s1, c1) := step o s in
      let '(s2, c2) := run rest s1 in
      (s2, c1 ++ c2)
  end.

(** The registry as it is when the clients start: some workers have
    registered, nobody has asked for a suspension. *)
Definition with_workers (ws : list worker) : t :=
  {| _workers := ws; _count := 0 |}.

End BackgroundWorkers.

(** ** Python numbers

    A Python [float], like an item of a numpy array of dtype [float64],
    is an IEEE 754 binary64 datum: the specification of floating-point
    arithmetic of the standard library, with a mantissa of 53 bits, gives
    its operations (rounding to nearest, ties to even).  A Python [int]
    is an integer of any size. *)

Module float64.

Definition t : Type := spec_float.
Definition prec : Z := 53.
Definition emax : Z := 1024.

Definition zero : t := S754_zero false.
Definition nan : t := S754_nan.
Definition inf : t := S754_infinity false.

Definition sub : t -> t -> t := SFsub prec emax.
Definition add : t -> t -> t := SFadd prec emax.
Definition mul : t -> t -> t := SFmul prec emax.
Definition abs : t -> t := SFabs.
Definition leb : t -> t -> bool := SFleb.
Definition ltb : t -> t -> bool := SFltb.
Definition eqb : t -> t -> bool := SFeqb.

Definition isfinite (x : t) : bool :=
  match x with
  | S754_zero _ | S754_finite _ _ _ => true
  | _ => false
  end.

Definition isnan (x : t) : bool :=
  match x with
  | S754_nan => true
  | _ => false
  end.

(** The float nearest to [m * 2^e]. *)
Definition ldexp (m e : Z) : t := binary_normalize prec emax m e false.

(** The float nearest to an integer; an infinity when the integer is
    beyond the range of the floats. *)
Definition of_Z (n : Z) : t := ldexp n 0.

(** The integer that a float is, when it is one. *)
Definition to_Z (x : t) : option Z :=
  match x with
  | S754_zero _ => Some 0%Z
  | S754_finite s m e =>
      if (0 <=? e)%Z then Some (cond_Zopp s (Zpos m * 2 ^ e))
      else if (Zpos m mod 2 ^ (- e) =? 0)%Z
           then Some (cond_Zopp s (Zpos m / 2 ^ (- e)))
           else None
  | _ => None
  end.

(** The rational number that a finite float is. *)
Definition to_Q (x : t) : option Q :=
  match x with
  | S754_zero _ => Some 0%Q
  | S754_finite s m e => Some (inject_Z (cond_Zopp s (Zpos m)) * Qpower 2 e)%Q
  | _ => None
  end.

End float64.

Inductive number : Type :=
| Int (n : Z)
| Float (x : float64.t).

(** [float(x)]: an int beyond the range of the floats raises
    [OverflowError]. *)
Definition float_of_int (n : Z) : res float64.t :=
  match float64.of_Z n with
  | S754_infinity _ => Raise (OverflowError "int too large to convert to float")
  | x => Ret x
  end.

Definition float_of (x : number) : res float64.t :=
  match x with
  | Int n => float_of_int n
  | Float f => Ret f
  end.

(** [n == y] for a Python int and a Python float.  Python compares the
    two by value: they are equal when the conversion of the int to float
    loses nothing and gives [y]. *)
Definition int_eq_float (n : Z) (y : float64.t) : bool :=
  float64.eqb (float64.of_Z n) y
  && match float64.to_Z (float64.of_Z n) with
     | Some k => (k =? n)%Z
     | None => false
     end.

(** The integers of numpy's [int64]. *)
Definition int64 (n : Z) : bool := ((- 2 ^ 63 <=? n) && (n <? 2 ^ 63))%Z.

(** ** Values

    What pyepics, json and the callers hand to the code: [None], a Python
    number or string, or a one-dimensional [numpy.ndarray] of dtype
    [float64], of dtype [int64] (its items are then in the range of
    [int64]) or of strings. *)

Inductive scalar : Type :=
| Num (x : number)
| Str (s : string).

Inductive ndarray : Type :=
| FloatArray (xs : list float64.t)
| IntArray (xs : list Z)
| StrArray (xs : list string).

Inductive pyvalue : Type :=
| PyNone
| PyScalar (x : scalar)
| PyArray (a : ndarray).

Definition is_None (v : pyvalue) : bool :=
  match v with PyNone => true | _ => false end.

Definition isinstance_ndarray (v : pyvalue) : bool :=
  match v with PyArray _ => true | _ => false end.

(** Values without the two irregular kinds of numbers: no float is a NaN,
    and every int is in the range of [int64]. *)
Definition regular_number (x : number) : bool :=
  match x with
  | Int n => int64 n
  | Float f => negb (float64.isnan f)
  end.

Definition regular (v : pyvalue) : bool :=
  match v with
  | PyNone => true
  | PyScalar (Num x) => regular_number x
  | PyScalar (Str _) => true
  | PyArray (FloatArray xs) => forallb (fun f => negb (float64.isnan f)) xs
  | PyArray (IntArray ns) => forallb int64 ns
  | PyArray (StrArray _) => true
  end.

(** ** The numpy functions the code calls

    numpy is a library outside the repository; these definitions follow
    numpy 2 on the values above.  A Python scalar (and [None]) is a
    zero-dimensional array for numpy. *)

Module numpy.

(** [numpy.size(v)]: number of elements; 1 for anything that is not a
    sequence, [None] included. *)
Definition size (v : pyvalue) : nat :=
  match v with
  | PyNone => 1
  | PyScalar _ => 1
  | PyArray (FloatArray xs) => List.length xs
  | PyArray (IntArray xs) => List.length xs
  | PyArray (StrArray xs) => List.length xs
  end.

(** [numpy.array([x])] for a Python scalar [x]: shape (1,). *)
Definition array1 (x : scalar) : ndarray :=
  match x with
  | Num (Float f) => FloatArray [f]
  | Num (Int n) => IntArray [n]
  | Str s => StrArray [s]
  end.

(** An operand of a ufunc: shape () or shape (n,). *)
Inductive shaped (A : Type) : Type :=
| Dim0 (x : A)
| Dim1 (xs : list A).
Arguments Dim0 {A} x.
Arguments Dim1 {A} xs.

(** Broadcasting of two operands of at most one dimension: the pairs of
    elements that a binary ufunc visits, or [None] when the shapes are
    incompatible (lengths that differ and are both other than 1). *)
Definition broadcast {A B : Type} (a : shaped A) (b : shaped B) : option (list (A * B)) :=
  match a, b with
  | Dim0 x, Dim0 y => Some [(x, y)]
  | Dim0 x, Dim1 ys => Some (List.map (fun y => (x, y)) ys)
  | Dim1 xs, Dim0 y => Some (List.map (fun x => (x, y)) xs)
  | Dim1 xs, Dim1 ys =>
      if (List.length xs =? List.length ys)%nat then Some (List.combine xs ys)
      else match xs, ys with
           | [x], _ => Some (List.map (fun y => (x, y)) ys)
           | _, [y] => Some (List.map (fun x => (x, y)) xs)
           | _, _ => None
           end
  end.

(** The shape in the message of a broadcasting error. *)
Definition shape_str {A : Type} (a : shaped A) : string :=
  match a with
  | Dim0 _ => "()"
  | Dim1 xs => "(" +:+ pystr.of_nat (List.length xs) +:+ ",)"
  end.

Definition broadcast_error {A B : Type} (a : shaped A) (b : shaped B) : exn :=
  ValueError ("operands could not be broadcast together with shapes "
              +:+ shape_str a +:+ " " +:+ shape_str b +:+ " ").

(** An array seen as [float64]: the items of an [int64] array are cast;
    an array of strings has no such view. *)
Definition as_float64 (a : ndarray) : option (list float64.t) :=
  match a with
  | FloatArray xs => Some xs
  | IntArray ns => Some (List.map float64.of_Z ns)
  | StrArray _ => None
  end.

(** [isclose(a, b, rtol, atol)] keeps a Python number as it is and makes
    an array of anything else; then, with [x] and [y] for the operands,

      [less_equal(abs(x - y), atol + rtol * abs(y)) & isfinite(y) | (x == y)]

    computed in [float64], item by item. *)
Definition within_tol (atol rtol : float64.t) (xy : float64.t * float64.t) : bool :=
  float64.leb (float64.abs (float64.sub (fst xy) (snd xy)))
              (float64.add atol (float64.mul rtol (float64.abs (snd xy)))).

Definition isclose1 (atol rtol : float64.t) (xy : float64.t * float64.t) : bool :=
  within_tol atol rtol xy && float64.isfinite (snd xy)
  || float64.eqb (fst xy) (snd xy).

(** The second operand: a Python int becomes [float(y)], an array is cast
    to [float64]; [None] when the operand is not numeric. *)
Definition second_operand (b : pyvalue) : res (option (shaped float64.t)) :=
  match b with
  | PyScalar (Num y) => let! f := float_of y in Ret (Some (Dim0 f))
  | PyArray a => Ret (option_map Dim1 (as_float64 a))
  | _ => Ret None
  end.

(** The first operand, where it is not a Python int. *)
Definition first_operand (a : pyvalue) : option (shaped float64.t) :=
  match a with
  | PyScalar (Num (Float f)) => Some (Dim0 f)
  | PyArray a => option_map Dim1 (as_float64 a)
  | _ => None
  end.

Definition not_numeric : exn :=
  TypeError "ufunc 'subtract' did not contain a loop with signature matching types".

(** [numpy.allclose(a, b, rtol, atol)].  The second operand is converted
    first; an operand that is not numeric makes the subtraction fail with
    [TypeError]; a Python int as first operand is converted by the
    subtraction, and compared exactly by [x == y] when [y] is a Python
    number too; operands that do not broadcast raise [ValueError];
    otherwise the answer is that all pairs are close. *)
Definition allclose (a b : pyvalue) (rtol atol : float64.t) : res bool :=
  let! y := second_operand b in
  match y with
  | None => Raise not_numeric
  | Some y =>
      match a with
      | PyScalar (Num (Int n)) =>
          let! x := float_of_int n in
          Ret match y with
              | Dim0 y0 =>
                  within_tol atol rtol (x, y0) && float64.isfinite y0
                  || int_eq_float n y0
              | Dim1 ys =>
                  forallb (isclose1 atol rtol) (List.map (fun y => (x, y)) ys)
              end
      | _ =>
          match first_operand a with
          | None => Raise not_numeric
          | Some x =>
              match broadcast x y with
              | Some pairs => Ret (forallb (isclose1 atol rtol) pairs)
              | None => Raise (broadcast_error x y)
              end
          end
      end
  end.

(** Elements of any dtype, for [==]. *)
Inductive elem : Type :=
| ENone
| EScalar (x : scalar).

Definition as_elems (v : pyvalue) : shaped elem :=
  match v with
  | PyNone => Dim0 ENone
  | PyScalar x => Dim0 (EScalar x)
  | PyArray (FloatArray xs) => Dim1 (List.map (fun f => EScalar (Num (Float f))) xs)
  | PyArray (IntArray xs) => Dim1 (List.map (fun n => EScalar (Num (Int n))) xs)
  | PyArray (StrArray xs) => Dim1 (List.map (fun s => EScalar (Str s)) xs)
  end.

(** [==] on two items: numbers of different types are compared as
    [float64], a string is equal to a string only. *)
Definition elem_eqb (xy : elem * elem) : bool :=
  match xy with
  | (ENone, ENone) => true
  | (EScalar (Num (Int x)), EScalar (Num (Int y))) => (x =? y)%Z
  | (EScalar (Num (Float x)), EScalar (Num (Float y))) => float64.eqb x y
  | (EScalar (Num (Int x)), EScalar (Num (Float y))) => float64.eqb (float64.of_Z x) y
  | (EScalar (Num (Float x)), EScalar (Num (Int y))) => float64.eqb x (float64.of_Z y)
  | (EScalar (Str x), EScalar (Str y)) => String.eqb x y
  | _ => false
  end.

(** [numpy.array_equal(a1, a2)]: same shape and equal elements; never
    raises. *)
Definition array_equal (a1 a2 : pyvalue) : bool :=
  match as_elems a1, as_elems a2 with
  | Dim0 x, Dim0 y => elem_eqb (x, y)
  | Dim1 xs, Dim1 ys =>
      (List.length xs =? List.length ys)%nat && forallb elem_eqb (List.combine xs ys)
  | _, _ => false
  end.

End numpy.

(** ** [SnapshotPv.compare] (core.py, lines 293-329) *)

(** The two branches at the head of [compare], applied to one operand:
    anything that is neither [None] nor an ndarray and has size 1 is
    wrapped in a one-element array; otherwise a value of size 0 becomes
    [None]. *)
Definition normalize (value : pyvalue) : pyvalue :=
  if negb (is_None value) && negb (isinstance_ndarray value)
     && (numpy.size value =? 1)%nat
  then match value with
       | PyScalar x => PyArray (numpy.array1 x)
       | _ => value
       end
  else if (numpy.size value =? 0)%nat then PyNone
  else value.

(** The tolerance is a Python float; [rtol=0]. *)
Definition compare (value1 value2 : pyvalue) (is_array : bool) (tolerance : float64.t)
  : res bool :=
  let value1 := if is_array then normalize value1 else value1 in
  let value2 := if is_array then normalize value2 else value2 in
  if is_None value1 || is_None value2 then
    (* value1 is value2 *)
    Ret (is_None value1 && is_None value2)
  else
    match numpy.allclose value1 value2 float64.zero tolerance with
    | Raise (TypeError _) =>
        (* Non-numeric array (i.e. strings) *)
        Ret (numpy.array_equal value1 value2)
    | r => r
    end.

(** The operand that the comparison works on: normalized when
    [is_array]. *)
Definition operand (is_array : bool) (v : pyvalue) : pyvalue :=
  if is_array then normalize v else v.

Definition swap_pair {A B : Type} (p : A * B) : B * A := (snd p, fst p).

(** The shapes on which [numpy.allclose] cannot broadcast: two numeric
    arrays whose lengths differ and are both other than 1. *)
Definition length_mismatch (v1 v2 : pyvalue) : Prop :=
  exists a b xs ys,
    v1 = PyArray a /\ v2 = PyArray b /\
    numpy.as_float64 a = Some xs /\ numpy.as_float64 b = Some ys /\
    List.length xs <> List.length ys /\
    List.length xs <> 1%nat /\ List.length ys <> 1%nat.

(** A rank that [SFcompare] follows: floats other than NaN are ordered
    like triples of integers under the lexicographic order. *)
Definition rank (x : float64.t) : Z * Z * Z :=
  match x with
  | S754_zero _ => (0, 0, 0)
  | S754_infinity s => (if s then -2 else 2, 0, 0)
  | S754_nan => (0, 0, 0)
  | S754_finite s m e => if s then (-1, - e, - Zpos m) else (1, e, Zpos m)
  end%Z.

Definition lex_le (a b : Z * Z * Z) : Prop :=
  let '(a1, a2, a3) := a in
  let '(b1, b2, b3) := b in
  (a1 < b1 \/ (a1 = b1 /\ (a2 < b2 \/ (a2 = b2 /\ a3 <= b3))))%Z.

(** For a finite tolerance that is not negative, a pair is close when
    both items are finite and differ by at most the tolerance, the
    difference taken in [float64]; otherwise when they are equal, which
    two infinities of the same sign are and a NaN never is. *)
Definition close (t : float64.t) (xy : float64.t * float64.t) : bool :=
  if float64.isfinite (fst xy) && float64.isfinite (snd xy)
  then float64.leb (float64.abs (float64.sub (fst xy) (snd xy))) t
  else float64.eqb (fst xy) (snd xy).

(** The [float64] view of a value whose ints convert to float: a
    zero-dimensional one for a Python number. *)
Definition float_view (v : pyvalue) : option (numpy.shaped float64.t) :=
  match v with
  | PyScalar (Num (Int n)) => Some (numpy.Dim0 (float64.of_Z n))
  | PyScalar (Num (Float f)) => Some (numpy.Dim0 f)
  | PyArray a => option_map numpy.Dim1 (numpy.as_float64 a)
  | _ => None
  end.

(** A Python int that [float] cannot convert. *)
Definition beyond_float (v : pyvalue) : Prop :=
  exists n msg, v = PyScalar (Num (Int n)) /\ float_of_int n = Raise (OverflowError msg).

(** Two results of a comparison that agree: the same answer, or
    exceptions of the same class. *)
Definition same_class (e1 e2 : exn) : bool :=
  match e1, e2 with
  | TypeError _, TypeError _ | ValueError _, ValueError _
  | OverflowError _, OverflowError _ => true
  | _, _ => false
  end.

Definition agree (r1 r2 : res bool) : Prop :=
  match r1, r2 with
  | Ret a, Ret b => a = b
  | Raise e1, Raise e2 => same_class e1 e2 = true
  | _, _ => False
  end.

(** ** [PvStatus] (core.py, lines 86-99) *)

Inductive PvStatus : Type :=
| access_err
| ok
| no_value
| equal
| type_err.

(** ** The channel-access client, seen from the code

    pyepics and its [ca] layer are outside the repository.  A call that
    reaches them is an [event]; what they answer during one operation on
    one PV is a [world]. *)

(** A user callback is known by its identity. *)
Definition callback := nat.

Inductive event : Type :=
| EvCallback (cb : callback) (pvname : string) (status : PvStatus)
    (* cb(pvname=..., status=...), called by the code itself *)
| EvPut (value : pyvalue) (cb : option callback) (callback_data : PvStatus)
    (* PV.put(value, wait=False, callback=cb, callback_data={"status": ...}) *)
| EvGet (use_monitor with_ctrlvars : bool)
    (* PV.get(...): a blocking read *)
| EvGetCtrlvars
    (* PV.get_ctrlvars(): a blocking read of the metadata *)
| EvGetStart
    (* ca.get_with_metadata(chid, wait=False) *)
| EvGetComplete (wait : bool)
    (* ca.get_complete_with_metadata(chid, timeout=...); timeout is the
       update period unless [wait] *)
| EvCycleCallback (vals : list pyvalue).
    (* the updater's callback, called with the values of one cycle *)

Inductive ca_reply : Type :=
| Completed (value : pyvalue)   (* md, with md['value'] *)
| TimedOut                      (* None *)
| CaException.                  (* ca.ChannelAccessException *)

Record world : Type := {
  PV_get : pyvalue;                 (* result of PV.get; None on timeout *)
  PV_get_ctrlvars : bool;           (* is the result of get_ctrlvars truthy *)
  ca_get_with_metadata : bool;      (* false: ChannelAccessException *)
  ca_get_complete_with_metadata : ca_reply;
  PV_put_accepts : bool             (* false: put raises TypeError *)
}.

(** What pyepics does when an accepted put completes: it calls the
    callback given to [put] with the PV name and the callback data. *)
Definition put_completion (pvname : string) (e : event) : list event :=
  match e with
  | EvPut _ (Some cb) status => [EvCallback cb pvname status]
  | _ => []
  end.

(** ** [SnapshotPv] (core.py, lines 102-230) *)

Record SnapshotPv : Type := {
  pvname : string;
  connected : bool;
  read_access : bool;
  write_access : bool;
  is_array : bool;
  _last_value : pyvalue;
  _initialized : bool;
  _pvget_completer : bool   (* true: a completer is set (is not None) *)
}.

(** [__init__] leaves the cache empty; connection and access rights are
    what the channel has. *)
Definition SnapshotPv_init (name : string) (conn rd wr arr : bool) : SnapshotPv :=
  {| pvname := name; connected := conn; read_access := rd; write_access := wr;
     is_array := arr; _last_value := PyNone; _initialized := false;
     _pvget_completer := false |}.

Definition set_last_value (v : pyvalue) (pv : SnapshotPv) : SnapshotPv :=
  {| pvname := pvname pv; connected := connected pv;
     read_access := read_access pv; write_access := write_access pv;
     is_array := is_array pv; _last_value := v;
     _initialized := _initialized pv; _pvget_completer := _pvget_completer pv |}.

Definition set_initialized (b : bool) (pv : SnapshotPv) : SnapshotPv :=
  {| pvname := pvname pv; connected := connected pv;
     read_access := read_access pv; write_access := write_access pv;
     is_array := is_array pv; _last_value := _last_value pv;
     _initialized := b; _pvget_completer := _pvget_completer pv |}.

Definition set_pvget_completer (b : bool) (pv : SnapshotPv) : SnapshotPv :=
  {| pvname := pvname pv; connected := connected pv;
     read_access := read_access pv; write_access := write_access pv;
     is_array := is_array pv; _last_value := _last_value pv;
     _initialized := _initialized pv; _pvget_completer := b |}.

(** The result of a method: what it returns, the PV afterwards, and the
    calls it made. *)
Definition outcome (A : Type) : Type := A * SnapshotPv * list event.

(** [PvUpdater._get_complete] (core.py, lines 456-471).  [None] is
    [PyNone]. *)
Definition _get_complete (w : world) (pv : SnapshotPv) (wait : bool)
  : outcome pyvalue :=
  if connected pv then
    match ca_get_complete_with_metadata w with
    | TimedOut => (PyNone, pv, [EvGetComplete wait])
    | Completed value =>
        (value, set_last_value value (set_pvget_completer false pv),
         [EvGetComplete wait])
    | CaException => (PyNone, pv, [EvGetComplete wait])
    end
  else (PyNone, pv, []).

(** [SnapshotPv.get] called with arguments (core.py, lines 149-160): an
    unfinished read of the updater is completed first; if that times out
    the result is [None], otherwise [PV.get] does the read. *)
Definition get_args (w : world) (pv : SnapshotPv) (use_monitor with_ctrlvars : bool)
  : outcome pyvalue :=
  if _pvget_completer pv then
    let '(val, pv1, evs) := _get_complete w pv true in
    if is_None val then (PyNone, pv1, evs)
    else (PV_get w, pv1, evs ++ [EvGet use_monitor with_ctrlvars])
  else (PV_get w, pv, [EvGet use_monitor with_ctrlvars]).

(** The [value] property (core.py, lines 128-141). *)
Definition value (w : world) (pv : SnapshotPv) : outcome pyvalue :=
  let value := _last_value pv in
  if negb (_initialized pv) then
    let pv1 := set_initialized true pv in
    let '(value, pv2, evs) := get_args w pv1 false true in
    (value, set_last_value value pv2, evs)
  else (value, pv, []).

(** [SnapshotPv.get] (core.py, lines 143-162): without arguments it is the
    [value] property. *)
Definition get (w : world) (pv : SnapshotPv) (args : option (bool * bool))
  : outcome pyvalue :=
  match args with
  | Some (use_monitor, with_ctrlvars) => get_args w pv use_monitor with_ctrlvars
  | None => value w pv
  end.

(** [compare_to_curr] (core.py, lines 283-291). *)
Definition compare_to_curr (w : world) (pv : SnapshotPv) (v : pyvalue)
  : outcome (res bool) :=
  let '(curr, pv1, evs) := value w pv in
  (compare v curr (is_array pv1) float64.zero, pv1, evs).

(** Calling [callback(pvname=..., status=...)]: calling [None] raises
    [TypeError]. *)
Definition call_callback (cb : option callback) (pv : SnapshotPv) (status : PvStatus)
  : res unit * list event :=
  match cb with
  | Some c => (Ret tt, [EvCallback c (pvname pv) status])
  | None => (Raise (TypeError "'NoneType' object is not callable"), [])
  end.

(** [elif callback: callback(...)]. *)
Definition call_if_given (cb : option callback) (pv : SnapshotPv) (status : PvStatus)
  : res unit * list event :=
  match cb with
  | Some c => (Ret tt, [EvCallback c (pvname pv) status])
  | None => (Ret tt, [])
  end.

(** [restore_pv] (core.py, lines 198-230). *)
Definition restore_pv (w : world) (pv : SnapshotPv) (v : pyvalue) (cb : option callback)
  : outcome (res unit) :=
  if connected pv then
    if write_access pv then
      if is_None v then
        let '(r, evs) := call_callback cb pv no_value in (r, pv, evs)
      else
        let '(eq, pv1, evs) := compare_to_curr w pv v in
        match eq with
        | Raise e => (Raise e, pv1, evs)
        | Ret false =>
            if PV_put_accepts w then
              (Ret tt, pv1, evs ++ [EvPut v cb ok])
            else
              (* except TypeError *)
              let '(r, evs') := call_callback cb pv1 type_err in
              (r, pv1, evs ++ [EvPut v cb ok] ++ evs')
        | Ret true =>
            (* No need to be restored. *)
            let '(r, evs') := call_if_given cb pv1 equal in
            (r, pv1, evs ++ evs')
        end
    else
      let '(r, evs) := call_if_given cb pv access_err in (r, pv, evs)
  else
    let '(r, evs) := call_if_given cb pv access_err in (r, pv, evs).

(** ** [PvUpdater] (core.py, lines 402-523) *)

(** [_get_start] (core.py, lines 445-454). *)
Definition _get_start (w : world) (pv : SnapshotPv) : SnapshotPv * list event :=
  if connected pv then
    if ca_get_with_metadata w then (set_pvget_completer true pv, [EvGetStart])
    else (pv, [EvGetStart])
  else (pv, []).

(** The body of the first loop over the PVs in [_run] (lines 492-514):
    fetch the control variables of a PV that is not initialized, then
    start the read. *)
Definition start_entry (w : world) (pv : SnapshotPv) : SnapshotPv * list event :=
  let '(pv1, evs1) :=
    if negb (_initialized pv) then
      if connected pv then
        (if PV_get_ctrlvars w then set_initialized true pv else pv, [EvGetCtrlvars])
      else (pv, [])
    else (pv, []) in
  let '(pv2, evs2) := _get_start w pv1 in
  (pv2, evs1 ++ evs2).

Fixpoint start_all (pvs : list (world * SnapshotPv)) : list (world * SnapshotPv) * list event :=
  match pvs with
  | [] => ([], [])
  | (w, pv) :: rest =>
      let '(pv1, evs1) := start_entry w pv in
      let '(rest1, evs2) := start_all rest in
      ((w, pv1) :: rest1, evs1 ++ evs2)
  end.

(** [vals = [self._get_complete(pv) for pv in self._pvs]] (line 516). *)
Fixpoint complete_all (pvs : list (world * SnapshotPv))
  : list pyvalue * list (world * SnapshotPv) * list event :=
  match pvs with
  | [] => ([], [], [])
  | (w, pv) :: rest =>
      let '(val, pv1, evs1) := _get_complete w pv false in
      let '(vals, rest1, evs2) := complete_all rest in
      (val :: vals, (w, pv1) :: rest1, evs1 ++ evs2)
  end.

(** One cycle of [_run] once the period has elapsed (lines 482-523).  Each
    PV comes with the answers the channel gives during this cycle.  A
    suspended updater skips the cycle. *)
Definition cycle (_suspend : bool) (pvs : list (world * SnapshotPv))
  : list (world * SnapshotPv) * list event :=
  if _suspend then (pvs, [])
  else
    let '(pvs1, evs1) := start_all pvs in
    let '(vals, pvs2, evs2) := complete_all pvs1 in
    (pvs2, evs1 ++ evs2 ++ [EvCycleCallback vals]).

(** ** The regular expression of [_validate_macros_in_txt]

    [re.compile('\$\(.*?\)').findall(txt)]: scanning from the left, a match
    starts at ["$("] and ends at the first [")"] that follows, provided no
    newline comes before it (the dot does not match a newline); the scan
    goes on after the match. *)

Module re.

Definition newline : ascii := ascii_of_nat 10.

(** The text up to and including the first [")"], if no newline comes
    first. *)
Fixpoint until_close (s : string) : option string :=
  match s with
  | EmptyString => None
  | String c rest =>
      if Ascii.eqb c ")" then Some (String c EmptyString)
      else if Ascii.eqb c newline then None
      else option_map (String c) (until_close rest)
  end.

(** The match that starts at the head of [s], if any. *)
Definition match_macro (s : string) : option string :=
  if String.prefix "$(" s
  then option_map (String.append "$(") (until_close (pystr.drop 2 s))
  else None.

Fixpoint findall_from (skip : nat) (s : string) : list string :=
  match s with
  | EmptyString => []
  | String _ rest =>
      match skip with
      | S k => findall_from k rest
      | O =>
          match match_macro s with
          | Some m => m :: findall_from (String.length m - 1) rest
          | None => findall_from 0 rest
          end
      end
  end.

Definition findall_macros (txt : string) : list string := findall_from 0 txt.

End re.

(** ** Dictionaries of macros

    A [dict] keeps its keys in insertion order, and [macros_substitution]
    iterates in that order. *)

Definition dict : Type := list (string * string).

Fixpoint dict_set (k v : string) (d : dict) : dict :=
  match d with
  | [] => [(k, v)]
  | (k', v') :: rest =>
      if String.eqb k k' then (k, v) :: rest else (k', v') :: dict_set k v rest
  end.

Definition dict_values (d : dict) : list string := List.map snd d.

Definition str_in (x : string) (l : list string) : bool := existsb (String.eqb x) l.

(** [SnapshotPv.macros_substitution] (core.py, lines 386-399). *)
Definition macros_substitution (txt : string) (macros : dict) : string :=
  fold_left (fun txt kv => pystr.replace ("$(" +:+ fst kv +:+ ")") (snd kv) txt)
            macros txt.

(** [parse_macros] (parser.py, lines 162-180). *)
Fixpoint parse_macros_list (macros_str : string) (macros_list : list string) (macros : dict)
  : res dict :=
  match macros_list with
  | [] => Ret macros
  | macro :: rest =>
      match pystr.split "=" (pystr.strip macro) with
      | [k; v] => parse_macros_list macros_str rest (dict_set k v macros)
      | _ => Raise (MacroError ("Following string cannot be parsed to macros: "
                                +:+ macros_str))
      end
  end.

Definition parse_macros (macros_str : string) : res dict :=
  match macros_str with
  | EmptyString => Ret []
  | _ => parse_macros_list macros_str (pystr.split "," macros_str) []
  end.

(** ** [SnapshotReqFile] (parser.py, lines 12-158) *)

#[warnings="-register-all"] Inductive SnapshotReqFile : Type := mkReqFile {
  _path : string;
  _parent : option SnapshotReqFile;
  _macros : dict;
  _c_macros : list string;
  _trace : string;
  _curr_line : option string;
  _curr_line_n : nat
}.

(** The node and the files that lead to it, innermost first. *)
Fixpoint ancestors (f : SnapshotReqFile) : list SnapshotReqFile :=
  f :: match _parent f with
       | Some p => ancestors p
       | None => []
       end.

Definition double_quote : ascii := ascii_of_nat 34.
Definition single_quote : ascii := ascii_of_nat 39.

Module ReqFile.
Section Reader.

(** [os.path] and the file system are outside the repository. *)
Variables abspath normpath dirname : string -> string.
Variable path_join : string -> string -> string.
(** The lines of the file at a path, or [None] when [open] fails. *)
Variable open_file : string -> option (list string).

(** [__init__] (lines 13-45). *)
Definition SnapshotReqFile_init (path : string) (parent : option SnapshotReqFile)
    (macros : dict) (changeable_macros : list string) : SnapshotReqFile :=
  let p := abspath path in
  {| _path := p;
     _parent := parent;
     _macros := macros;
     _c_macros := changeable_macros;
     _trace :=
       match parent with
       | Some par =>
           _trace par +:+ " [line " +:+ pystr.of_nat (_curr_line_n par) +:+ ": "
           +:+ pystr.of_option (_curr_line par) +:+ "] >> " +:+ p
       | None => p
       end;
     _curr_line := None;
     _curr_line_n := 0 |}.

(** [_format_err] (lines 129-130), the two parts of [line] already
    formatted. *)
Definition _format_err (self : SnapshotReqFile) (line0 line1 msg : string) : string :=
  _trace self +:+ " [line " +:+ line0 +:+ ": " +:+ line1 +:+ "]: " +:+ msg.

(** The error position [(self._curr_line_n, self._curr_line)]. *)
Definition err_here (self : SnapshotReqFile) (msg : string) : string :=
  _format_err self (pystr.of_nat (_curr_line_n self))
              (pystr.of_option (_curr_line self)) msg.

(** The macros that [_validate_macros_in_txt] rejects (lines 133-139): a
    match of the regular expression that is neither one of the values of
    the macros nor, without its ["$("] and [")"], one of the changeable
    macros. *)
Definition invalid_macros (self : SnapshotReqFile) (txt : string) : list string :=
  List.filter
    (fun raw_macro =>
       negb (str_in raw_macro (dict_values (_macros self)))
       && negb (str_in (pystr.drop_last (pystr.drop 2 raw_macro)) (_c_macros self)))
    (re.findall_macros txt).

(** [_validate_macros_in_txt] (lines 132-142). *)
Definition _validate_macros_in_txt (self : SnapshotReqFile) (txt : string) : res unit :=
  match invalid_macros self txt with
  | [] => Ret tt
  | invalid =>
      Raise (MacroError ("Following macros were not defined: "
                         +:+ pystr.join ", " invalid))
  end.

(** The message for a node of the chain whose normalized path is [path]
    (lines 150-154): it names [path], and the file that the node was
    included from when there is one. *)
Definition loop_message (path : string) (ancestor : SnapshotReqFile) : string :=
  match _parent ancestor with
  | Some par =>
      "Infinity loop detected. File " +:+ path +:+ " was already called from "
      +:+ _path par
  | None =>
      "Infinity loop detected. File " +:+ path
      +:+ " was already loaded as root request file."
  end.

(** Does the node have the normalized path [path]? (line 149) *)
Definition has_path (path : string) (ancestor : SnapshotReqFile) : bool :=
  String.eqb (normpath (abspath (_path ancestor))) path.

(** The message of [_check_looping] for the first node of the chain, from
    [ancestor] upwards, whose normalized path is [path] (lines 148-158). *)
Fixpoint check_ancestors (ancestor : SnapshotReqFile) (path : string) : option string :=
  if has_path path ancestor then Some (loop_message path ancestor)
  else
    match _parent ancestor with
    | Some par => check_ancestors par path
    | None => None
    end.

(** [_check_looping] (lines 144-158). *)
Definition _check_looping (self : SnapshotReqFile) (path : string) : option string :=
  check_ancestors self (normpath (abspath path)).

(** [except MacroError as e: raise ReqParseError(...)]. *)
Definition reraise_macro_error {A : Type} (self : SnapshotReqFile) (r : res A) : res A :=
  match r with
  | Raise (MacroError e) => Raise (ReqParseError (err_here self e))
  | _ => r
  end.

(** The macros of an include line (lines 86-110); [arg] is what follows
    the first comma, if there is one. *)
Definition include_macros (self : SnapshotReqFile) (arg : option string) : res dict :=
  match arg with
  | Some a =>
      let macro_txt := pystr.strip a in
      let bad_quotes :=
        Raise (ReqFileFormatError
                 (err_here self "Syntax error. Macros argument must be quoted.")) in
      match macro_txt with
      | String quote_type _ =>
          if Ascii.eqb quote_type double_quote || Ascii.eqb quote_type single_quote then
            if negb (pystr.endswith_char quote_type macro_txt) then bad_quotes
            else
              let macro_txt :=
                macros_substitution (pystr.drop_last (pystr.drop 1 macro_txt))
                                    (_macros self) in
              reraise_macro_error self
                (let! _ := _validate_macros_in_txt self macro_txt in
                 parse_macros macro_txt)
          else bad_quotes
      | EmptyString => bad_quotes
      end
  | None => Ret []
  end.

(** The target of an include line (line 112). *)
Definition include_path (self : SnapshotReqFile) (name : string) : string :=
  path_join (dirname (_path self)) name.

(** The body of the loop of [read] (lines 64-125) for the line that
    [self] holds; [read_sub] is [read] on an included file. *)
Definition read_line (read_sub : SnapshotReqFile -> res (list string))
    (self : SnapshotReqFile) : res (list string) :=
  match _curr_line self with
  | None => Raise (AttributeError "'NoneType' object has no attribute 'startswith'")
  | Some line =>
      if negb (pystr.startswith_any ["#"; "data{"; "}"; "!"] line)
         && negb (String.eqb (pystr.strip line) "") then
        let pvname :=
          macros_substitution (fst (pystr.split_once "," (pystr.rstrip line)))
                              (_macros self) in
        let! _ := reraise_macro_error self (_validate_macros_in_txt self pvname) in
        Ret [pvname]
      else if pystr.startswith "!" line then
        let split_line := pystr.split_once "," (pystr.drop 1 line) in
        let! macros := include_macros self (snd split_line) in
        let path := include_path self (fst split_line) in
        match _check_looping self path with
        | Some msg => Raise (ReqFileInfLoopError (err_here self msg))
        | None =>
            let sub_f := SnapshotReqFile_init path (Some self) macros [] in
            match read_sub sub_f with
            | Raise (IOError e) =>
                Raise (IOError (_format_err self (pystr.of_option (_curr_line self))
                                            (pystr.of_nat (_curr_line_n self)) e))
            | r => r
            end
        end
      else Ret []
  end.

(** The head of the loop (lines 63-65): count the line and strip it. *)
Definition next_line (self : SnapshotReqFile) (raw : string) : SnapshotReqFile :=
  {| _path := _path self; _parent := _parent self; _macros := _macros self;
     _c_macros := _c_macros self; _trace := _trace self;
     _curr_line := Some (pystr.strip raw);
     _curr_line_n := S (_curr_line_n self) |}.

Fixpoint read_lines (read_sub : SnapshotReqFile -> res (list string))
    (self : SnapshotReqFile) (lines : list string) (pvs : list string)
  : res (list string) :=
  match lines with
  | [] => Ret pvs
  | raw :: rest =>
      let self1 := next_line self raw in
      let! new := read_line read_sub self1 in
      read_lines read_sub self1 rest (pvs ++ new)
  end.

(** [self._curr_line_n = 0] (line 62). *)
Definition rewind (self : SnapshotReqFile) : SnapshotReqFile :=
  {| _path := _path self; _parent := _parent self; _macros := _macros self;
     _c_macros := _c_macros self; _trace := _trace self;
     _curr_line := _curr_line self; _curr_line_n := 0 |}.

(** [read] (lines 47-127).  [depth] is what is left of the interpreter's
    recursion limit: each included file is one more call of [read]. *)
Fixpoint read (depth : nat) (self : SnapshotReqFile) : res (list string) :=
  match depth with
  | O => Raise (RecursionError "maximum recursion depth exceeded")
  | S d =>
      match open_file (_path self) with
      | None => Raise (IOError ("No such file or directory: " +:+ _path self))
      | Some lines => read_lines (read d) (rewind self) lines []
      end
  end.

End Reader.
End ReqFile.

(** ** [parse_from_save_file] (parser.py, lines 295-360) *)

(** What [json.loads] returns. *)
#[warnings="-register-all"] Inductive json : Type :=
| JNull
| JBool (b : bool)
| JInt (n : Z)
| JFloat (x : float64.t)
| JStr (s : string)
| JList (items : list json)
| JObject (members : list (string * json)).

(** The value kept for a PV: [None], the decoded scalar, or the array
    that [numpy.asarray] makes of a decoded list, items in order. *)
Inductive pv_value : Type :=
| PvNone
| PvJson (j : json)
| PvArray (items : list json).

Record parse_state : Type := {
  saved_pvs : gmap string pv_value;
  meta_data : json;
  err : list string;
  meta_loaded : bool
}.

(** Two results that are related: values related by [R], or the same
    exception. *)
Definition res_rel {A : Type} (R : A -> A -> Prop) (r1 r2 : res A) : Prop :=
  match r1, r2 with
  | Ret a, Ret b => R a b
  | Raise e1, Raise e2 => e1 = e2
  | _, _ => False
  end.

(** Two states that differ at most in the value of [k] and in the errors. *)
Definition agree_except (k : string) (s1 s2 : parse_state) : Prop :=
  (forall p, p <> k -> saved_pvs s1 !! p = saved_pvs s2 !! p) /\
  meta_data s1 = meta_data s2 /\ meta_loaded s1 = meta_loaded s2.

Module SaveFile.
Section Parser.

(** [json.loads]: the decoded value, or the exception raised:
    [JSONDecodeError] for text that is not JSON, and others
    ([RecursionError] for nesting beyond the interpreter's limit,
    [ValueError] for an integer literal beyond the limit on digits). *)
Variable json_loads : string -> res json.
(** [numpy.asarray] on a decoded list: the exception it raises, if any
    ([ValueError] for a list of inhomogeneous shape); otherwise the array
    holds the items of the list. *)
Variable asarray : list json -> option exn.
(** The lines of the file at a path, or [None] when [open] fails. *)
Variable open_file : string -> option (list string).

Definition initial : parse_state :=
  {| saved_pvs := ∅; meta_data := JObject []; err := []; meta_loaded := false |}.

Definition cannot_decode (pvname : string) : string :=
  "Value of '" +:+ pvname +:+ "' cannot be decoded. Will be ignored.".

(** [try: json.loads(s)  except json.JSONDecodeError: ...]: [None] when
    the handler runs; any other exception goes on. *)
Definition try_loads (s : string) : res (option json) :=
  match json_loads s with
  | Ret j => Ret (Some j)
  | Raise (JSONDecodeError _) => Ret None
  | Raise e => Raise e
  end.

(** Lines 346-349 once the literal is decoded: [null] is [None], a list
    becomes an array. *)
Definition value_of_json (j : json) : res pv_value :=
  match j with
  | JNull => Ret PvNone
  | JList items =>
      match asarray items with
      | Some e => Raise e
      | None => Ret (PvArray items)
      end
  | _ => Ret (PvJson j)
  end.

(** The value of a data line and the errors after it (lines 335-351);
    [lit] is what follows the first comma, if there is one. *)
Definition line_value (pvname : string) (lit : option string) (errs : list string)
  : res (pv_value * list string) :=
  match lit with
  | Some pv_value_str =>
      let! decoded := try_loads pv_value_str in
      match decoded with
      | Some j => let! v := value_of_json j in Ret (v, errs)
      | None => Ret (PvNone, errs ++ [cannot_decode pvname])
      end
  | None => Ret (PvNone, errs)
  end.

(** The body of the loop (lines 317-354) for one line; the boolean tells
    whether the loop is left ([break]). *)
Definition parse_line (metadata_only : bool) (line : string) (st : parse_state)
  : res (parse_state * bool) :=
  if pystr.startswith "#" line && negb (meta_loaded st) then
    let line := pystr.drop 1 line in
    let! decoded := try_loads line in
    let '(meta, errs) :=
      match decoded with
      | Some j => (j, err st)
      | None =>
          (meta_data st,
           err st ++ ["Meta data could not be decoded. Must be in JSON format."])
      end in
    Ret ({| saved_pvs := saved_pvs st; meta_data := meta; err := errs;
            meta_loaded := true |},
         metadata_only)
  else if negb metadata_only
          && negb (String.eqb (pystr.strip line) "")
          && negb (pystr.startswith "#" line) then
    let split_line := pystr.split_once "," (pystr.strip line) in
    let pvname := fst split_line in
    let! ve := line_value pvname (snd split_line) (err st) in
    Ret ({| saved_pvs := <[pvname := fst ve]> (saved_pvs st); meta_data := meta_data st;
            err := snd ve; meta_loaded := meta_loaded st |},
         false)
  else Ret (st, false).

Fixpoint parse_lines (metadata_only : bool) (lines : list string) (st : parse_state)
  : res parse_state :=
  match lines with
  | [] => Ret st
  | line :: rest =>
      let! r := parse_line metadata_only line st in
      if snd r then Ret (fst r) else parse_lines metadata_only rest (fst r)
  end.

(** What the function returns once the loop is over (lines 356-360). *)
Definition result_of (st : parse_state) : gmap string pv_value * json * list string :=
  (saved_pvs st, meta_data st,
   if meta_loaded st then err st else "No meta data in the file." :: err st).

(** The function on the lines of a file. *)
Definition parse_file_lines (lines : list string) (metadata_only : bool)
  : res (gmap string pv_value * json * list string) :=
  let! st := parse_lines metadata_only lines initial in
  Ret (result_of st).

Definition parse_from_save_file (save_file_path : string) (metadata_only : bool)
  : res (gmap string pv_value * json * list string) :=
  match open_file save_file_path with
  | None => Raise (IOError ("No such file or directory: " +:+ save_file_path))
  | Some lines => parse_file_lines lines metadata_only
  end.

(** The PV that a line defines when it is read as a data line. *)
Definition line_name (line : string) : option string :=
  if negb (String.eqb (pystr.strip line) "") && negb (pystr.startswith "#" line)
  then Some (fst (pystr.split_once "," (pystr.strip line)))
  else None.

End Parser.
End SaveFile.

(** ** More of core.py *)

(** [save_pv] (core.py, lines 164-196).  The value it returns is the
    value read, or [numpy.asarray([v])], which puts one more dimension
    around a value [v] of size 1. *)
Inductive saved_value : Type :=
| Saved (v : pyvalue)
| SavedWrapped (v : pyvalue).

Definition saved_is_None (s : saved_value) : bool :=
  match s with
  | Saved v => is_None v
  | SavedWrapped _ => false
  end.

Definition save_pv (w : world) (pv : SnapshotPv) : outcome (saved_value * PvStatus) :=
  if connected pv then
    if read_access pv then
      let '(v, pv1, evs) := get_args w pv false false in
      let saved :=
        if is_array pv1 then
          if (numpy.size v =? 0)%nat then Saved PyNone
          else if (numpy.size v =? 1)%nat then SavedWrapped v
          else Saved v
        else Saved v in
      if saved_is_None saved then ((saved, no_value), pv1, evs)
      else ((saved, ok), pv1, evs)
    else ((Saved PyNone, access_err), pv, [])
  else ((Saved PyNone, access_err), pv, []).

Definition is_put (e : event) : bool :=
  match e with
  | EvPut _ _ _ => true
  | _ => false
  end.

(** The connection callbacks of a [SnapshotPv] (core.py, lines 331-384):
    a dictionary from indices to callbacks, in insertion order. *)
Definition conn_callbacks : Type := list (Z * callback).

Definition conn_keys (cbs : conn_callbacks) : list Z := List.map fst cbs.

(** [max(keys)] of a dictionary that is not empty. *)
Definition max_key (k : Z) (rest : list Z) : Z := fold_left Z.max rest k.

(** [d[idx] = callback] *)
Fixpoint conn_set (idx : Z) (cb : callback) (cbs : conn_callbacks) : conn_callbacks :=
  match cbs with
  | [] => [(idx, cb)]
  | (k, c) :: rest =>
      if (k =? idx)%Z then (idx, cb) :: rest else (k, c) :: conn_set idx cb rest
  end.

Fixpoint conn_get (idx : Z) (cbs : conn_callbacks) : option callback :=
  match cbs with
  | [] => None
  | (k, c) :: rest => if (k =? idx)%Z then Some c else conn_get idx rest
  end.

(** [add_conn_callback] (lines 331-344): the dictionary afterwards and
    the index returned. *)
Definition add_conn_callback (cbs : conn_callbacks) (cb : callback)
  : conn_callbacks * Z :=
  let idx :=
    match conn_keys cbs with
    | k :: rest => (1 + max_key k rest)%Z
    | [] => 0%Z
    end in
  (conn_set idx cb cbs, idx).

(** [d.pop(idx)] for a key that is present. *)
Fixpoint conn_pop (idx : Z) (cbs : conn_callbacks) : conn_callbacks :=
  match cbs with
  | [] => []
  | (k, c) :: rest => if (k =? idx)%Z then rest else (k, c) :: conn_pop idx rest
  end.

(** [remove_conn_callback] (lines 355-362). *)
Definition remove_conn_callback (cbs : conn_callbacks) (idx : Z) : conn_callbacks :=
  if existsb (Z.eqb idx) (conn_keys cbs) then conn_pop idx cbs else cbs.

(** [_internal_cnct_callback] (lines 364-384): the new [is_array] flag,
    from the element count of the channel, and the calls [clb(conn=conn)]
    made, in the order of the dictionary. *)
Definition _internal_cnct_callback (cbs : conn_callbacks) (element_count : Z)
    (conn : bool) : bool * list (callback * bool) :=
  ((1 <? element_count)%Z, List.map (fun kc => (snd kc, conn)) cbs).

(** [process_record] (core.py, lines 33-36): the PV written by [caput] and
    the value written. *)
Definition process_record (pvname : string) : string * Z :=
  let record := fst (pystr.split_once "." pvname) in
  (record +:+ ".PROC", 1%Z).

(** Does the character occur in the string? *)
Fixpoint has_char (c : ascii) (s : string) : bool :=
  match s with
  | EmptyString => false
  | String a rest => Ascii.eqb a c || has_char c rest
  end.

(** [value_to_display_str] with [is_array=True] (core.py, lines 258-279).
    A float is printed with ['{:f}'] or ['{:.<precision>f}'], depending on
    the precision; that choice is the parameter [fmt_float].  Ints,
    strings and [None] are printed with ['{}']. *)
Definition display_items (fmt_float : float64.t -> string) (a : ndarray) : list string :=
  match a with
  | FloatArray xs => List.map fmt_float xs
  | IntArray xs => List.map pystr.of_Z xs
  | StrArray xs => xs
  end.

Definition value_to_display_str_array (fmt_float : float64.t -> string) (value : pyvalue)
  : option string :=
  if (numpy.size value =? 0)%nat then None
  else
    match value with
    | PyNone => Some ("[" +:+ "None" +:+ "]")
    | PyScalar (Num (Float f)) => Some ("[" +:+ fmt_float f +:+ "]")
    | PyScalar (Num (Int n)) => Some ("[" +:+ pystr.of_Z n +:+ "]")
    | PyScalar (Str s) => Some ("[" +:+ s +:+ "]")
    | PyArray a =>
        let items := display_items fmt_float a in
        if (3 <? numpy.size value)%nat then
          Some ("[" +:+ List.hd "" items +:+ " ... " +:+ List.last items "" +:+ "]")
        else Some ("[" +:+ pystr.join " " items +:+ "]")
    end.

(** ** More of parser.py *)

(** The name that a PV line of a request file contributes: the text
    before the first comma, macros substituted (lines 70-71). *)
Definition pv_line_name (macros : dict) (raw : string) : string :=
  macros_substitution
    (fst (pystr.split_once "," (pystr.rstrip (pystr.strip raw)))) macros.

(** The normalized absolute paths along the chain of a node. *)
Definition chain_paths (abspath normpath : string -> string) (f : SnapshotReqFile)
  : list string :=
  List.map (fun a => normpath (abspath (_path a))) (ancestors f).

(** Two states of the save-file parser with the same metadata and the
    same errors. *)
Definition same_log (s1 s2 : parse_state) : Prop :=
  err s1 = err s2 /\ meta_data s1 = meta_data s2 /\ meta_loaded s1 = meta_loaded s2.

(** Calls of a polling cycle: reads of the control variables, starts and
    completions of non-blocking reads, and the callback of the cycle. *)
Definition is_poll_event (e : event) : bool :=
  match e with
  | EvGetCtrlvars | EvGetStart | EvGetComplete false | EvCycleCallback _ => true
  | _ => false
  end.

(** ** Example numbers *)
Definition one_and_a_half : float64.t := float64.ldexp 3 (-1).
Definition a_quarter : float64.t := float64.ldexp 1 (-2).

(** ** Example save file

    A decoder that knows the literals of the example, and an [asarray]
    that knows its lists. *)
Definition ex_json_loads (s : string) : res json :=
  if String.eqb s "1.5" then Ret (JFloat one_and_a_half)
  else if String.eqb s "[1,2,3]" then Ret (JList [JInt 1; JInt 2; JInt 3])
  else if String.eqb s "[1,[2,3]]" then Ret (JList [JInt 1; JList [JInt 2; JInt 3]])
  else if String.eqb s "{}" then Ret (JObject [])
  else if String.eqb s "{bad" then
    Raise (JSONDecodeError
             "Expecting property name enclosed in double quotes: line 1 column 2 (char 1)")
  else Raise (JSONDecodeError "Expecting value: line 1 column 1 (char 0)").

Definition ex_asarray (items : list json) : option exn :=
  match items with
  | [JInt _; JList _] =>
      Some (ValueError
              ("setting an array element with a sequence. The requested array has an "
               +:+ "inhomogeneous shape after 1 dimensions. The detected shape was "
               +:+ "(2,) + inhomogeneous part."))
  | _ => None
  end.

Definition ex_save_lines : list string :=
  ["#{}"; "foo,1.5"; "bar,{bad"; "baz,[1,2,3]"].

(** The same file with a list that is not rectangular. *)
Definition ex_ragged_lines : list string :=
  ["#{}"; "foo,1.5"; "bar,[1,[2,3]]"; "baz,[1,2,3]"].

(** ** Example request files

    A directory [/r] with a few files; paths are already absolute and
    normalized. *)
Definition ex_join (a b : string) : string := a +:+ "/" +:+ b.

Definition ex_open (p : string) : option (list string) :=
  if String.eqb p "/r/A" then Some ["# comment"; "!B,'X=1'"; "top$(SYS)  , extra"; ""]
  else if String.eqb p "/r/B" then Some ["pv$(X)"; "data{"; "}"]
  else if String.eqb p "/r/L" then Some ["x"; "!M"]
  else if String.eqb p "/r/M" then Some ["!L"]
  else if String.eqb p "/r/S" then Some ["pv$(A)"]
  else None.

Definition ex_id (p : string) : string := p.
Definition ex_dirname (p : string) : string := "/r".

Definition ex_init := ReqFile.SnapshotReqFile_init ex_id.
Definition ex_read_line := ReqFile.read_line ex_id ex_id ex_dirname ex_join.
Definition ex_read := ReqFile.read ex_id ex_id ex_dirname ex_join ex_open.

(** File [/r/M] while it is read as an include of line 2 of [/r/L], at
    its first line. *)
Definition ex_L : SnapshotReqFile := ReqFile.next_line (ReqFile.next_line (ex_init "/r/L" None [] []) "x") "!M".
Definition ex_M : SnapshotReqFile := ex_init "/r/M" (Some ex_L) [] [].

(** File [/r/S] read with the macro [A] defined as ["$(B)"] and no
    changeable macro. *)
Definition ex_S : SnapshotReqFile := ex_init "/r/S" None [("A", "$(B)")] [].

(** ** Example channels

    A cycle over a slow entry and a fast one: the read of the first times
    out, the read of the second completes with 3. *)
Definition slow_world : world :=
  {| PV_get := PyNone; PV_get_ctrlvars := true; ca_get_with_metadata := true;
     ca_get_complete_with_metadata := TimedOut; PV_put_accepts := true |}.

Definition fast_world : world :=
  {| PV_get := PyNone; PV_get_ctrlvars := true; ca_get_with_metadata := true;
     ca_get_complete_with_metadata := Completed (PyScalar (Num (Int 3)));
     PV_put_accepts := true |}.

Definition two_entries : list (world * SnapshotPv) :=
  [ (slow_world, set_last_value (PyScalar (Num (Int 1)))
                   (SnapshotPv_init "SLOW" true true true false));
    (fast_world, SnapshotPv_init "FAST" true true true false) ].

(** A channel whose control variables time out while its value is read:
    the polled value is 5, a later [PV.get] answers 7. *)
Definition ctrl_timeout_world : world :=
  {| PV_get := PyScalar (Num (Int 7)); PV_get_ctrlvars := false;
     ca_get_with_metadata := true;
     ca_get_complete_with_metadata := Completed (PyScalar (Num (Int 5)));
     PV_put_accepts := true |}.

Definition fresh_pv : SnapshotPv := SnapshotPv_init "X" true true true false.

(** A channel that is not connected. *)
Definition offline_pv : SnapshotPv := SnapshotPv_init "OFF" false false false false.

(** A connected, writable waveform whose cached value has two elements. *)
Definition waveform_pv : SnapshotPv :=
  {| pvname := "WF"; connected := true; read_access := true;
     write_access := true; is_array := true;
     _last_value := PyArray (FloatArray [float64.of_Z 1; float64.of_Z 2]);
     _initialized := true;
     _pvget_completer := false |}.

(* ===================================================================== *)
(** * Part II: properties                                                *)
(* ===================================================================== *)

Section BackgroundWorkersProps.
Import BackgroundWorkers.

Lemma step_workers o s : _workers (fst (step o s)) = _workers s.
Proof.
  destruct o; unfold step, suspend, resume; simpl; [reflexivity |].
  destruct (0 <? _count s)%Z; reflexivity.
Qed.

Lemma step_count_nonneg o s :
  (0 <= _count s)%Z -> (0 <= _count (fst (step o s)))%Z.
Proof.
  intros H. destruct o; unfold step, suspend, resume; simpl; [lia |].
  destruct (0 <? _count s)%Z eqn:E; simpl; [apply Z.ltb_lt in E |]; lia.
Qed.

Lemma run_invariant ops : forall s,
  (0 <= _count s)%Z ->
  (0 <= _count (fst (run ops s)))%Z /\ _workers (fst (run ops s)) = _workers s.
Proof.
  induction ops as [| o rest IH]; intros s H; simpl; [auto |].
  pose proof (step_count_nonneg o s H) as Hc.
  pose proof (step_workers o s) as Hw.
  destruct (step o s) as [s1 c1]; simpl in *.
  destruct (IH s1 Hc) as [IH1 IH2].
  destruct (run rest s1) as [s2 c2]; simpl in *.
  split; [assumption | congruence].
Qed.

(** C8: after any sequence of [suspend()] and [resume()] calls the counter
    is not negative and the workers are the registered ones; in that
    state [suspend()] adds one to the counter and calls the [suspend()]
    of every registered worker, in order, exactly when the counter goes
    from 0 to 1 (no call otherwise); [resume()] at counter 0 leaves the
    state unchanged and calls nothing, otherwise it subtracts one and
    calls the [resume()] of every worker exactly when the counter goes
    from 1 to 0 (no call otherwise). *)
Theorem workers_refcount (ws : list worker) (ops : list op) :
  let s := fst (run ops (with_workers ws)) in
  (0 <= _count s)%Z /\ _workers s = ws /\
  (_count (fst (suspend s)) = (_count s + 1)%Z /\
   _workers (fst (suspend s)) = ws /\
   snd (suspend s) =
     if decide (_count s = 0%Z /\ _count (fst (suspend s)) = 1%Z)
     then List.map WSuspend ws else []) /\
  (_count s = 0%Z -> resume s = (s, [])) /\
  ((0 < _count s)%Z ->
   _count (fst (resume s)) = (_count s - 1)%Z /\
   _workers (fst (resume s)) = ws /\
   snd (resume s) =
     if decide (_count s = 1%Z /\ _count (fst (resume s)) = 0%Z)
     then List.map WResume ws else []).
Proof.
  intros s.
  destruct (run_invariant ops (with_workers ws)) as [Hc Hw]; [simpl; lia |].
  fold s in Hc, Hw. simpl in Hw.
  split; [exact Hc |]. split; [exact Hw |].
  split; [| split].
  - unfold suspend; simpl. rewrite Hw.
    repeat split.
    destruct (Z.eqb_spec (_count s) 0) as [E | E]; case_decide; try reflexivity; lia.
  - intros E. unfold resume. rewrite E. simpl. reflexivity.
  - intros Hpos. unfold resume.
    destruct (Z.ltb_spec 0 (_count s)) as [_ | Hle]; [| lia]. simpl. rewrite Hw.
    repeat split.
    destruct (Z.eqb_spec (_count s - 1) 0) as [E | E]; case_decide; try reflexivity; lia.
Qed.

(** Two independent clients: the second [resume()] is the one that
    reaches the workers. *)
Lemma workers_refcount_witness :
  let s := fst (run [Suspend; Suspend; Resume] (with_workers [7%nat; 9%nat])) in
  (0 < _count s)%Z /\ snd (resume s) = [WResume 7%nat; WResume 9%nat].
Proof.
  split; [vm_compute; reflexivity |].
  destruct (workers_refcount [7%nat; 9%nat] [Suspend; Suspend; Resume])
    as (_ & _ & _ & _ & H).
  destruct H as (_ & _ & H); [vm_compute; reflexivity |].
  rewrite H. reflexivity.
Defined.

End BackgroundWorkersProps.

Section FloatFacts.
Import float64.

Lemma compare_cont_Eq (m1 m2 : positive) : Pos.compare_cont Eq m1 m2 = Pos.compare m1 m2.
Proof. reflexivity. Qed.

(** The order of [SFcompare] as a relation. *)
Lemma SFcompare_refl (x : t) : isnan x = false -> SFcompare x x = Some Eq.
Proof.
  destruct x as [s | s | | s m e]; simpl; try discriminate; intros _;
    try (destruct s; reflexivity).
  destruct s; rewrite Z.compare_refl, compare_cont_Eq, Pos.compare_refl; reflexivity.
Qed.

Lemma SFcompare_antisym (x y : t) :
  SFcompare y x = option_map CompOpp (SFcompare x y).
Proof.
  destruct x as [s1 | s1 | | s1 m1 e1], y as [s2 | s2 | | s2 m2 e2]; simpl;
    try reflexivity; try (destruct s1; reflexivity); try (destruct s2; reflexivity);
    try (destruct s1, s2; reflexivity).
  destruct s1, s2; try reflexivity;
    rewrite (Z.compare_antisym e1 e2), !compare_cont_Eq, (Pos.compare_antisym m1 m2);
    destruct (e1 ?= e2)%Z; simpl; try reflexivity;
    destruct (m1 ?= m2)%positive; reflexivity.
Qed.

Lemma eqb_sym (x y : t) : eqb y x = eqb x y.
Proof.
  unfold eqb, SFeqb. rewrite (SFcompare_antisym x y).
  destruct (SFcompare x y) as [[| |] |]; reflexivity.
Qed.

Lemma eqb_refl (x : t) : isnan x = false -> eqb x x = true.
Proof. intros H. unfold eqb, SFeqb. rewrite (SFcompare_refl x H). reflexivity. Qed.

Lemma ltb_not_leb (x y : t) : ltb x y = true -> leb y x = false.
Proof.
  unfold ltb, leb, SFltb, SFleb. rewrite (SFcompare_antisym x y).
  destruct (SFcompare x y) as [[| |] |]; simpl; congruence.
Qed.

Lemma leb_total (x y : t) :
  isnan x = false -> isnan y = false -> leb x y = true \/ ltb y x = true.
Proof.
  intros Hx Hy. unfold ltb, leb, SFltb, SFleb. rewrite (SFcompare_antisym x y).
  destruct x as [s1 | s1 | | s1 m1 e1], y as [s2 | s2 | | s2 m2 e2];
    try discriminate; simpl;
    try (destruct s1; auto); try (destruct s2; auto);
    destruct (e1 ?= e2)%Z; simpl; auto;
    destruct (Pos.compare_cont Eq m1 m2); simpl; auto.
Qed.

Lemma leb_rank (x y : t) :
  isnan x = false -> isnan y = false ->
  (leb x y = true <-> lex_le (rank x) (rank y)).
Proof.
  intros Hx Hy. unfold leb, SFleb.
  destruct x as [s1 | s1 | | s1 m1 e1], y as [s2 | s2 | | s2 m2 e2];
    try discriminate; simpl;
    try (destruct s1; simpl; split; (discriminate || lia || reflexivity || tauto));
    try (destruct s2; simpl; split; (discriminate || lia || reflexivity || tauto));
    try (destruct s1, s2; simpl; split; (discriminate || lia || reflexivity || tauto)).
  destruct s1, s2; simpl; try (split; (lia || reflexivity || discriminate));
    rewrite compare_cont_Eq;
    destruct (Z.compare_spec e1 e2); simpl;
    try (split; (lia || reflexivity || discriminate));
    destruct (Pos.compare_spec m1 m2); simpl; split; (lia || reflexivity || discriminate).
Qed.

Lemma leb_not_nan (x y : t) : leb x y = true -> isnan x = false /\ isnan y = false.
Proof.
  unfold leb, SFleb.
  destruct x as [s1 | s1 | | s1 m1 e1], y as [s2 | s2 | | s2 m2 e2]; simpl;
    try discriminate; auto.
Qed.

Lemma leb_trans (x y z : t) : leb x y = true -> leb y z = true -> leb x z = true.
Proof.
  intros H1 H2.
  destruct (leb_not_nan _ _ H1) as [Hx Hy], (leb_not_nan _ _ H2) as [_ Hz].
  rewrite leb_rank in * by assumption.
  unfold lex_le in *.
  destruct (rank x) as [[a1 a2] a3], (rank y) as [[b1 b2] b3], (rank z) as [[c1 c2] c3].
  lia.
Qed.

(** Equal floats that are finite have the same sign, mantissa and
    exponent, or are both zeros. *)
Lemma eqb_finite (s1 s2 : bool) (m1 m2 : positive) (e1 e2 : Z) :
  eqb (S754_finite s1 m1 e1) (S754_finite s2 m2 e2) = true ->
  s1 = s2 /\ m1 = m2 /\ e1 = e2.
Proof.
  unfold eqb, SFeqb; simpl.
  destruct s1, s2; try discriminate; rewrite compare_cont_Eq;
    destruct (Z.compare_spec e1 e2); try discriminate;
    destruct (Pos.compare_spec m1 m2); try discriminate; auto.
Qed.

Lemma shl_align_same (m : positive) (e : Z) : shl_align m e e = (m, e).
Proof. unfold shl_align. rewrite Z.sub_diag. reflexivity. Qed.

Lemma sub_self (x : t) : isfinite x = true -> abs (sub x x) = zero.
Proof.
  destruct x as [s | s | | s m e]; simpl; try discriminate; intros _.
  - destruct s; reflexivity.
  - unfold sub, SFsub. rewrite Z.min_id, shl_align_same. simpl.
    rewrite Z.sub_diag. reflexivity.
Qed.

Lemma sub_eqb (x y : t) :
  isfinite x = true -> isfinite y = true -> eqb x y = true -> abs (sub x y) = zero.
Proof.
  destruct x as [s1 | s1 | | s1 m1 e1], y as [s2 | s2 | | s2 m2 e2]; simpl;
    try discriminate; intros _ _ H.
  - destruct s1, s2; reflexivity.
  - destruct s2; discriminate H.
  - destruct s1; discriminate H.
  - apply eqb_finite in H. destruct H as (-> & -> & ->).
    apply (sub_self (S754_finite s2 m2 e2)). reflexivity.
Qed.

(** The sign given to [binary_round] only decides the sign of the result. *)
Lemma abs_binary_round_aux (s s' : bool) (m e : Z) (l : location) :
  abs (binary_round_aux prec emax s m e l) = abs (binary_round_aux prec emax s' m e l).
Proof.
  unfold binary_round_aux.
  destruct (shr_fexp prec emax m e l) as [mrs' e'].
  destruct (shr_fexp prec emax _ e' loc_Exact) as [mrs'' e''].
  destruct (shr_m mrs''); try reflexivity.
  destruct (e'' <=? emax - prec)%Z; reflexivity.
Qed.

Lemma abs_binary_normalize_opp (m e : Z) :
  abs (binary_normalize prec emax (- m) e false) = abs (binary_normalize prec emax m e false).
Proof.
  destruct m as [| p | p]; simpl; try reflexivity;
    unfold binary_round;
    destruct (shl_align p e _) as [mz ez]; apply abs_binary_round_aux.
Qed.

Lemma abs_sub_sym (x y : t) : abs (sub y x) = abs (sub x y).
Proof.
  destruct x as [s1 | s1 | | s1 m1 e1], y as [s2 | s2 | | s2 m2 e2]; simpl;
    try reflexivity; try (destruct s1, s2; reflexivity).
  unfold sub, SFsub. rewrite (Z.min_comm e2 e1).
  rewrite <- abs_binary_normalize_opp. f_equal. f_equal. lia.
Qed.

(** The threshold of [isclose] when [rtol] is zero. *)
Lemma mul_zero_abs (y : t) :
  mul zero (abs y) = if isfinite y then zero else nan.
Proof. destruct y as [s | s | | s m e]; reflexivity. Qed.

Lemma leb_add_zero (d a : t) : leb d (add a zero) = leb d a.
Proof.
  destruct a as [s | s | | s m e]; try reflexivity.
  destruct s; destruct d as [s1 | s1 | | s1 m1 e1]; reflexivity.
Qed.

Lemma leb_nan_r (d : t) : leb d nan = false.
Proof. destruct d; reflexivity. Qed.

Lemma add_nan_r (a : t) : add a nan = nan.
Proof. destruct a; reflexivity. Qed.

(** Rounding never makes a NaN. *)
Lemma iter_pos_inv {A : Type} (P : A -> Prop) (f : A -> A) :
  (forall x, P x -> P (f x)) -> forall p x, P x -> P (SpecFloat.iter_pos f p x).
Proof.
  intros Hf. induction p as [p IH | p IH |]; intros x Hx; simpl; auto.
Qed.

Lemma shr_1_nonneg (r : shr_record) : (0 <= shr_m r -> 0 <= shr_m (shr_1 r))%Z.
Proof.
  destruct r as [m r s]. simpl. destruct m as [| [p | p |] | p]; simpl; lia.
Qed.

Lemma shr_nonneg (r : shr_record) (e n : Z) :
  (0 <= shr_m r -> 0 <= shr_m (fst (shr r e n)))%Z.
Proof.
  intros H. unfold shr. destruct n as [| p | p]; simpl; try exact H.
  apply (iter_pos_inv (fun r => 0 <= shr_m r)%Z); [apply shr_1_nonneg | exact H].
Qed.

Lemma shr_record_of_loc_m (m : Z) (l : location) : shr_m (shr_record_of_loc m l) = m.
Proof. destruct l as [| []]; reflexivity. Qed.

Lemma shr_fexp_nonneg (m e : Z) (l : location) :
  (0 <= m -> 0 <= shr_m (fst (shr_fexp prec emax m e l)))%Z.
Proof.
  intros H. unfold shr_fexp. apply shr_nonneg. rewrite shr_record_of_loc_m. exact H.
Qed.

Lemma round_nearest_even_nonneg (m : Z) (l : location) :
  (0 <= m -> 0 <= round_nearest_even m l)%Z.
Proof.
  intros H. destruct l as [| []]; simpl; try lia. destruct (Z.even m); lia.
Qed.

Lemma binary_round_aux_not_nan (s : bool) (m e : Z) (l : location) :
  (0 <= m)%Z -> isnan (binary_round_aux prec emax s m e l) = false.
Proof.
  intros H. unfold binary_round_aux.
  pose proof (shr_fexp_nonneg m e l H) as H1.
  destruct (shr_fexp prec emax m e l) as [mrs' e']. simpl in H1.
  pose proof (shr_fexp_nonneg _ e' loc_Exact
                (round_nearest_even_nonneg _ (loc_of_shr_record mrs') H1)) as H2.
  destruct (shr_fexp prec emax _ e' loc_Exact) as [mrs'' e'']. simpl in H2.
  destruct (shr_m mrs''); try reflexivity; [| lia].
  destruct (e'' <=? emax - prec)%Z; reflexivity.
Qed.

Lemma ldexp_not_nan (m e : Z) : isnan (ldexp m e) = false.
Proof.
  unfold ldexp, binary_normalize. destruct m as [| p | p]; try reflexivity;
    unfold binary_round; destruct (shl_align p e _) as [mz ez];
    apply binary_round_aux_not_nan; lia.
Qed.

Lemma of_Z_not_nan (n : Z) : isnan (of_Z n) = false.
Proof. apply ldexp_not_nan. Qed.

(** The conversion of an integer below 2^64 in magnitude is finite. *)
Lemma pow2_gt_1 (K : Z) : (1 < 2 ^ K -> 0 < K)%Z.
Proof.
  intros H. destruct (Z.lt_trichotomy K 0) as [Hn | [-> | Hp]]; [| | exact Hp].
  - rewrite Z.pow_neg_r in H by exact Hn. lia.
  - rewrite Z.pow_0_r in H. lia.
Qed.

Lemma digits2_pos_le (p : positive) : forall K : Z,
  (Zpos p < 2 ^ K -> Zpos (digits2_pos p) <= K)%Z.
Proof.
  induction p as [p IH | p IH |]; intros K H; simpl digits2_pos.
  - assert (0 < K)%Z by (apply pow2_gt_1; lia).
    replace K with (Z.succ (K - 1))%Z in H by lia.
    rewrite Z.pow_succ_r in H by lia.
    specialize (IH (K - 1)%Z). lia.
  - assert (0 < K)%Z by (apply pow2_gt_1; lia).
    replace K with (Z.succ (K - 1))%Z in H by lia.
    rewrite Z.pow_succ_r in H by lia.
    specialize (IH (K - 1)%Z). lia.
  - assert (0 < K)%Z by (apply pow2_gt_1; lia). lia.
Qed.

Lemma Zdigits2_le (m K : Z) : (0 <= K -> 0 <= m < 2 ^ K -> Zdigits2 m <= K)%Z.
Proof.
  intros HK [H0 H]. destruct m as [| p | p]; simpl; try lia.
  apply digits2_pos_le, H.
Qed.

Lemma iter_xO_value (k m : positive) :
  Zpos (Pos.iter xO m k) = (Zpos m * 2 ^ Zpos k)%Z.
Proof.
  induction k as [| k IH] using Pos.peano_ind.
  - simpl. lia.
  - rewrite Pos.iter_succ, Pos2Z.inj_xO, IH, Pos2Z.inj_succ, Z.pow_succ_r by lia. lia.
Qed.

Lemma shr_1_le (M : Z) (r : shr_record) :
  (0 <= shr_m r <= M -> 0 <= shr_m (shr_1 r) <= M)%Z.
Proof.
  destruct r as [m r s]. simpl. destruct m as [| [p | p |] | p]; simpl; lia.
Qed.

Lemma shr_fexp_bound (M m e : Z) (l : location) :
  (0 <= m <= M)%Z ->
  (0 <= shr_m (fst (shr_fexp prec emax m e l)) <= M)%Z /\
  (snd (shr_fexp prec emax m e l) = e \/
   snd (shr_fexp prec emax m e l) = fexp prec emax (Zdigits2 m + e))%Z.
Proof.
  intros H. unfold shr_fexp, shr.
  destruct (fexp prec emax (Zdigits2 m + e) - e)%Z as [| p | p] eqn:E; simpl;
    rewrite ?shr_record_of_loc_m; auto.
  split; [| right; lia].
  apply (iter_pos_inv (fun r => 0 <= shr_m r <= M)%Z); [apply shr_1_le |].
  rewrite shr_record_of_loc_m. exact H.
Qed.

Lemma round_nearest_even_le (m : Z) (l : location) :
  (0 <= m -> 0 <= round_nearest_even m l <= m + 1)%Z.
Proof.
  intros H. destruct l as [| []]; simpl; try lia. destruct (Z.even m); lia.
Qed.

Lemma fexp_le (x B : Z) : (x - 53 <= B -> -1074 <= B -> fexp prec emax x <= B)%Z.
Proof. unfold fexp, emin, prec, emax. lia. Qed.

Lemma binary_round_aux_finite (s : bool) (m e K : Z) (l : location) :
  (0 <= K <= 200)%Z -> (0 <= m < 2 ^ K)%Z -> (e <= 0)%Z -> (K + e <= 64)%Z ->
  isfinite (binary_round_aux prec emax s m e l) = true.
Proof.
  intros HK Hm He HKe. unfold binary_round_aux.
  destruct (shr_fexp_bound m m e l ltac:(lia)) as [H1 E1].
  destruct (shr_fexp prec emax m e l) as [mrs' e']. simpl in H1, E1.
  pose proof (Zdigits2_le m K ltac:(lia) Hm) as Hd.
  assert (He' : (e' <= 11)%Z).
  { destruct E1 as [-> | ->]; [lia | apply fexp_le; lia]. }
  pose proof (round_nearest_even_le (shr_m mrs') (loc_of_shr_record mrs') ltac:(lia)) as Hr.
  set (m1 := round_nearest_even (shr_m mrs') (loc_of_shr_record mrs')) in *.
  assert (Hm1 : (0 <= m1 < 2 ^ (K + 1))%Z).
  { rewrite Z.pow_add_r by lia. lia. }
  pose proof (Zdigits2_le m1 (K + 1) ltac:(lia) Hm1) as Hd1.
  destruct (shr_fexp_bound m1 m1 e' loc_Exact ltac:(lia)) as [H2 E2].
  destruct (shr_fexp prec emax m1 e' loc_Exact) as [mrs'' e'']. simpl in H2, E2.
  assert (He'' : (e'' <= emax - prec)%Z).
  { unfold emax, prec. destruct E2 as [-> | ->]; [lia | apply fexp_le; lia]. }
  destruct (shr_m mrs''); try reflexivity; [| lia].
  apply Z.leb_le in He''. rewrite He''. reflexivity.
Qed.

Lemma binary_round_finite (s : bool) (m : positive) :
  (Zpos m < 2 ^ 64)%Z -> isfinite (binary_round prec emax s m 0) = true.
Proof.
  intros H. unfold binary_round, shl_align.
  pose proof (digits2_pos_le m 64 H) as Hd.
  assert (Hf : (fexp prec emax (Zpos (digits2_pos m) + 0) = Zpos (digits2_pos m) - 53)%Z).
  { unfold fexp, emin, prec, emax. lia. }
  rewrite Hf.
  destruct (Zpos (digits2_pos m) - 53 - 0)%Z as [| k | k] eqn:E.
  - apply (binary_round_aux_finite s (Zpos m) 0 64); lia.
  - apply (binary_round_aux_finite s (Zpos m) 0 64); lia.
  - apply (binary_round_aux_finite s _ _ (64 + Zpos k)); rewrite ?iter_xO_value; try lia.
    rewrite Z.pow_add_r by lia.
    assert (0 < 2 ^ Zpos k)%Z by (apply Z.pow_pos_nonneg; lia). nia.
Qed.

Lemma of_Z_finite (n : Z) : (- 2 ^ 64 < n < 2 ^ 64)%Z -> isfinite (of_Z n) = true.
Proof.
  intros H. unfold of_Z, ldexp, binary_normalize.
  destruct n as [| p | p]; [reflexivity | |]; apply binary_round_finite; lia.
Qed.

End FloatFacts.

Section CompareProps.

Lemma float_of_int_Ret (n : Z) (x : float64.t) :
  float_of_int n = Ret x -> x = float64.of_Z n /\ float64.isfinite x = true.
Proof.
  unfold float_of_int. pose proof (of_Z_not_nan n) as Hn.
  destruct (float64.of_Z n) as [s | s | | s m e]; try discriminate;
    intros [= <-]; split; reflexivity.
Qed.

Lemma float_of_int_int64 (n : Z) : int64 n = true -> float_of_int n = Ret (float64.of_Z n).
Proof.
  unfold int64. rewrite andb_true_iff, Z.leb_le, Z.ltb_lt. intros [H1 H2].
  assert (Hf : float64.isfinite (float64.of_Z n) = true).
  { apply of_Z_finite. split; [| apply (Z.lt_trans _ (2 ^ 63)); [exact H2 | reflexivity]].
    apply (Z.lt_le_trans _ (- 2 ^ 63)); [reflexivity | exact H1]. }
  unfold float_of_int. destruct (float64.of_Z n); try discriminate; reflexivity.
Qed.

Lemma of_Z_eqb_refl (n : Z) : float64.eqb (float64.of_Z n) (float64.of_Z n) = true.
Proof. apply eqb_refl, of_Z_not_nan. Qed.

(** The test of [isclose] with [rtol = 0]. *)
Lemma within_tol_finite (t x y : float64.t) :
  float64.isfinite y = true ->
  numpy.within_tol t float64.zero (x, y)
  = float64.leb (float64.abs (float64.sub x y)) t.
Proof.
  intros Hy. unfold numpy.within_tol. cbn [fst snd].
  rewrite mul_zero_abs, Hy. apply leb_add_zero.
Qed.

Lemma within_tol_not_finite (t x y : float64.t) :
  float64.isfinite y = false -> numpy.within_tol t float64.zero (x, y) = false.
Proof.
  intros Hy. unfold numpy.within_tol. cbn [fst snd].
  rewrite mul_zero_abs, Hy, add_nan_r. apply leb_nan_r.
Qed.

Lemma leb_abs_sub_not_finite (t x y : float64.t) :
  float64.isfinite t = true -> float64.isfinite x = false ->
  float64.isfinite y = true ->
  float64.leb (float64.abs (float64.sub x y)) t = false /\ float64.eqb x y = false.
Proof.
  destruct t as [st | st | | st mt et]; try discriminate; intros _;
    destruct x as [sx | sx | | sx mx ex]; try discriminate; intros _;
    destruct y as [sy | sy | | sy my ey]; try discriminate; intros _;
    split; try reflexivity; destruct sx; reflexivity.
Qed.

Lemma eqb_not_finite (x y : float64.t) :
  float64.isfinite x = true -> float64.isfinite y = false -> float64.eqb x y = false.
Proof.
  destruct x as [sx | sx | | sx mx ex]; try discriminate; intros _;
    destruct y as [sy | sy | | sy my ey]; try discriminate; intros _;
    try reflexivity; destruct sy; try reflexivity; destruct sx; reflexivity.
Qed.

Lemma isclose1_close (t : float64.t) (xy : float64.t * float64.t) :
  float64.isfinite t = true -> float64.leb float64.zero t = true ->
  numpy.isclose1 t float64.zero xy = close t xy.
Proof.
  intros Ht H0. destruct xy as [x y]. unfold numpy.isclose1, close. cbn [fst snd].
  destruct (float64.isfinite y) eqn:Hy.
  - rewrite (within_tol_finite t x y Hy), andb_true_r.
    destruct (float64.isfinite x) eqn:Hx; cbn [andb].
    + destruct (float64.eqb x y) eqn:E; [| apply orb_false_r].
      rewrite (sub_eqb x y Hx Hy E), H0. reflexivity.
    + destruct (leb_abs_sub_not_finite t x y Ht Hx Hy) as [-> ->]. reflexivity.
  - rewrite (within_tol_not_finite t x y Hy), !andb_false_r. reflexivity.
Qed.

(** The same for a Python int against a Python float, which [==]
    compares exactly: the exactness does not show. *)
Lemma int_close (t : float64.t) (n : Z) (x y : float64.t) :
  float64.isfinite t = true -> float64.leb float64.zero t = true ->
  float_of_int n = Ret x ->
  numpy.within_tol t float64.zero (x, y) && float64.isfinite y || int_eq_float n y
  = close t (x, y).
Proof.
  intros Ht H0 Hx. destruct (float_of_int_Ret n x Hx) as [-> Hfx].
  unfold close, int_eq_float. cbn [fst snd]. rewrite Hfx. cbn [andb].
  destruct (float64.isfinite y) eqn:Hy.
  - rewrite (within_tol_finite t _ y Hy), andb_true_r.
    destruct (float64.eqb (float64.of_Z n) y) eqn:E; [| cbn [andb]; apply orb_false_r].
    rewrite (sub_eqb _ y Hfx Hy E), H0. reflexivity.
  - rewrite (within_tol_not_finite t _ y Hy), (eqb_not_finite _ y Hfx Hy). reflexivity.
Qed.

Lemma compare_numbers (v1 v2 : number) (t : float64.t) :
  float64.isfinite t = true -> float64.leb float64.zero t = true ->
  compare (PyScalar (Num v1)) (PyScalar (Num v2)) false t
  = (let! y := float_of v2 in
     let! x := float_of v1 in
     Ret (close t (x, y))).
Proof.
  intros Ht H0. unfold compare, numpy.allclose, numpy.second_operand. cbn [is_None orb].
  destruct (float_of v2) as [y | e] eqn:Ey; cbn [bind].
  2:{ destruct v2 as [n | f]; [| discriminate]. cbn [float_of] in Ey.
      unfold float_of_int in Ey. destruct (float64.of_Z n); try discriminate.
      injection Ey as <-. reflexivity. }
  destruct v1 as [n | f]; cbn [float_of].
  - destruct (float_of_int n) as [x | e] eqn:Ex; cbn [bind].
    + rewrite (int_close t n x y Ht H0 Ex). reflexivity.
    + unfold float_of_int in Ex. destruct (float64.of_Z n); try discriminate.
      injection Ex as <-. reflexivity.
  - cbn. rewrite andb_true_r. rewrite (isclose1_close t (f, y) Ht H0). reflexivity.
Qed.

(** C2, as the code has it.  For two Python numbers [v1], [v2] and a
    finite tolerance [t >= 0], [compare(v1, v2, is_array=False, t)]
    first converts an int to float, which raises [OverflowError] for an
    int beyond the range of the floats.  With [x] and [y] the operands as
    floats: when both are finite, the answer is [True] when the [float64]
    result of [abs(x - y)] is [<= t] and [False] when it is [> t];
    when one of them is an infinity or a NaN, the answer is that of
    [x == y]. *)
Theorem compare_scalar_tolerance (v1 v2 : number) (t : float64.t) :
  float64.isfinite t = true -> float64.leb float64.zero t = true ->
  ((exists e, float_of v1 = Raise e) \/ (exists e, float_of v2 = Raise e) ->
   exists msg,
     compare (PyScalar (Num v1)) (PyScalar (Num v2)) false t
     = Raise (OverflowError msg)) /\
  (forall x y, float_of v1 = Ret x -> float_of v2 = Ret y ->
     (float64.isfinite x = true -> float64.isfinite y = true ->
      (float64.leb (float64.abs (float64.sub x y)) t = true ->
       compare (PyScalar (Num v1)) (PyScalar (Num v2)) false t = Ret true) /\
      (float64.ltb t (float64.abs (float64.sub x y)) = true ->
       compare (PyScalar (Num v1)) (PyScalar (Num v2)) false t = Ret false)) /\
     (float64.isfinite x = false \/ float64.isfinite y = false ->
      compare (PyScalar (Num v1)) (PyScalar (Num v2)) false t
      = Ret (float64.eqb x y))).
Proof.
  intros Ht H0. rewrite (compare_numbers v1 v2 t Ht H0). split.
  - assert (Hover : forall v e, float_of v = Raise e -> exists msg, e = OverflowError msg).
    { intros [n | f] e; cbn [float_of]; [| discriminate].
      unfold float_of_int. destruct (float64.of_Z n); try discriminate.
      intros [= <-]. eexists. reflexivity. }
    intros [[e E] | [e E]].
    + destruct (float_of v2) as [y | e2] eqn:E2; cbn [bind].
      * rewrite E. destruct (Hover _ _ E) as [msg ->]. exists msg. reflexivity.
      * destruct (Hover _ _ E2) as [msg ->]. exists msg. reflexivity.
    + rewrite E. destruct (Hover _ _ E) as [msg ->]. exists msg. reflexivity.
  - intros x y -> ->. cbn [bind]. unfold close. cbn [fst snd]. split.
    + intros -> ->. cbn [andb]. split; [intros ->; reflexivity |].
      intros H. rewrite (ltb_not_leb _ _ H). reflexivity.
    + intros [-> | ->]; rewrite ?andb_false_r; reflexivity.
Qed.

Lemma compare_scalar_tolerance_witness :
  compare (PyScalar (Num (Float one_and_a_half)))
          (PyScalar (Num (Float (float64.ldexp 7 (-2))))) false a_quarter = Ret true /\
  compare (PyScalar (Num (Float one_and_a_half)))
          (PyScalar (Num (Int 2))) false a_quarter = Ret false.
Proof.
  split.
  - destruct (compare_scalar_tolerance (Float one_and_a_half)
                (Float (float64.ldexp 7 (-2))) a_quarter eq_refl eq_refl) as [_ H].
    destruct (H _ _ eq_refl eq_refl) as [Hfin _].
    apply (Hfin eq_refl eq_refl). reflexivity.
  - destruct (compare_scalar_tolerance (Float one_and_a_half) (Int 2)
                a_quarter eq_refl eq_refl) as [_ H].
    destruct (H _ _ eq_refl eq_refl) as [Hfin _].
    apply (Hfin eq_refl eq_refl). reflexivity.
Defined.

(** C2 as stated fails, because the operands and their difference are
    rounded to [float64]: the ints 2^53 and 2^53 + 1 differ by 1 and
    compare equal under the tolerance 0, both being converted to the float
    2^53; the floats 1 and -2^-60 differ by more than 1 and compare equal
    under the tolerance 1, their difference being rounded to 1. *)
Lemma compare_rounds_before_comparing :
  compare (PyScalar (Num (Int (2 ^ 53)))) (PyScalar (Num (Int (2 ^ 53 + 1))))
          false float64.zero = Ret true /\
  (0 < Z.abs (2 ^ 53 - (2 ^ 53 + 1)))%Z /\
  compare (PyScalar (Num (Float (float64.of_Z 1))))
          (PyScalar (Num (Float (float64.ldexp (-1) (-60)))))
          false (float64.of_Z 1) = Ret true /\
  exists x y,
    float64.to_Q (float64.of_Z 1) = Some x /\
    float64.to_Q (float64.ldexp (-1) (-60)) = Some y /\
    (x == 1)%Q /\ (y == - (1 # 2 ^ 60))%Q /\ (x < Qabs (x - y))%Q.
Proof.
  split; [vm_compute; reflexivity |].
  split; [vm_compute; reflexivity |].
  split; [vm_compute; reflexivity |].
  eexists _, _.
  split; [vm_compute; reflexivity |].
  split; [vm_compute; reflexivity |].
  repeat split; vm_compute; reflexivity.
Qed.

Lemma compare_absent (v1 v2 : pyvalue) (tol : float64.t) :
  is_None (normalize v1) || is_None (normalize v2) = true ->
  compare v1 v2 true tol = Ret (is_None (normalize v1) && is_None (normalize v2)).
Proof. intros H. unfold compare. rewrite H. reflexivity. Qed.

Lemma normalize_size0 (v : pyvalue) :
  numpy.size v = 0%nat -> normalize v = PyNone.
Proof.
  intros H. unfold normalize. rewrite H. simpl.
  rewrite andb_false_r. reflexivity.
Qed.

Lemma normalize_None_iff (v : pyvalue) :
  normalize v = PyNone <-> v = PyNone \/ numpy.size v = 0%nat.
Proof.
  split.
  - destruct v as [| x | [xs | xs | xs]]; simpl; auto;
      unfold normalize; simpl; try discriminate;
      destruct xs; simpl; auto; discriminate.
  - intros [-> | H]; [reflexivity | apply normalize_size0, H].
Qed.

(** A value that is an array, or a one-element array after
    normalization, compared with itself item by item. *)
Lemma isclose1_same (t x : float64.t) :
  float64.isnan x = false -> numpy.isclose1 t float64.zero (x, x) = true.
Proof.
  intros H. unfold numpy.isclose1. cbn [fst snd].
  rewrite (eqb_refl x H). apply orb_true_r.
Qed.

(** C3, as the code has it.  With [is_array=True] each operand is first
    normalized: a scalar (size 1, not an ndarray) becomes the one-element
    array holding it and a value of size 0 becomes [None].  Hence (a) for
    a scalar [x] that is a string, a float other than NaN or an int in
    the range of [int64], the one-element array [[x]] and [x] compare
    equal, in both orders, under any tolerance; (b) an empty array
    compares equal to [v] exactly when [v] is [None] or empty, and in
    particular not to the int 0 nor to the float 0.0; (c) when one
    normalized operand is [None] the result is [True] iff both are. *)
Theorem compare_array_normalization
    (x : scalar) (a : ndarray) (v v1 v2 : pyvalue) (tol : float64.t) :
  normalize (PyScalar x) = PyArray (numpy.array1 x) /\
  (numpy.size v = 0%nat -> normalize v = PyNone) /\
  (regular (PyScalar x) = true ->
   compare (PyArray (numpy.array1 x)) (PyScalar x) true tol = Ret true /\
   compare (PyScalar x) (PyArray (numpy.array1 x)) true tol = Ret true) /\
  (numpy.size (PyArray a) = 0%nat ->
   (compare (PyArray a) v true tol = Ret true <->
    v = PyNone \/ numpy.size v = 0%nat) /\
   compare (PyArray a) (PyScalar (Num (Int 0))) true tol = Ret false /\
   compare (PyArray a) (PyScalar (Num (Float float64.zero))) true tol = Ret false) /\
  (normalize v1 = PyNone \/ normalize v2 = PyNone ->
   compare v1 v2 true tol = Ret true <->
   normalize v1 = PyNone /\ normalize v2 = PyNone).
Proof.
  split; [reflexivity |].
  split; [apply normalize_size0 |].
  split; [| split].
  - intros Hx. destruct x as [[n | f] | s]; unfold compare, numpy.allclose; simpl.
    + rewrite andb_true_r, (isclose1_same tol _ (of_Z_not_nan n)).
      split; reflexivity.
    + simpl in Hx. apply negb_true_iff in Hx.
      rewrite andb_true_r, (isclose1_same tol f Hx). split; reflexivity.
    + unfold numpy.array_equal; simpl. rewrite String.eqb_refl. split; reflexivity.
  - intros Ha. pose proof (normalize_size0 _ Ha) as Hn. split; [| split].
    + rewrite compare_absent by (rewrite Hn; reflexivity).
      rewrite Hn; simpl. rewrite <- normalize_None_iff.
      destruct (normalize v); simpl; split; intros E; congruence.
    + rewrite compare_absent by (rewrite Hn; reflexivity).
      rewrite Hn. reflexivity.
    + rewrite compare_absent by (rewrite Hn; reflexivity).
      rewrite Hn. reflexivity.
  - intros H. rewrite compare_absent.
    + destruct (normalize v1), (normalize v2); simpl;
        intuition congruence.
    + destruct H as [-> | ->]; simpl; [reflexivity | apply orb_true_r].
Qed.

Lemma compare_array_normalization_witness :
  compare (PyArray (FloatArray [one_and_a_half])) (PyScalar (Num (Float one_and_a_half)))
          true float64.zero = Ret true /\
  compare (PyArray (FloatArray [])) (PyScalar (Num (Int 0))) true float64.zero = Ret false /\
  (compare (PyArray (FloatArray [])) (PyArray (StrArray [])) true float64.zero = Ret true <->
   normalize (PyArray (FloatArray [])) = PyNone /\
   normalize (PyArray (StrArray [])) = PyNone).
Proof.
  pose proof (compare_array_normalization (Num (Float one_and_a_half)) (FloatArray [])
                (PyArray (StrArray [])) (PyArray (FloatArray []))
                (PyArray (StrArray [])) float64.zero) as (_ & H0 & Ha & Hb & Hc).
  split; [apply Ha; reflexivity |].
  split; [apply Hb; reflexivity |].
  apply Hc. left. reflexivity.
Defined.

(** C3 as stated fails for the float NaN, which is not equal to itself:
    the one-element array holding it and the scalar compare unequal. *)
Lemma compare_nan_with_itself :
  normalize (PyScalar (Num (Float float64.nan))) = PyArray (FloatArray [float64.nan]) /\
  compare (PyArray (FloatArray [float64.nan])) (PyScalar (Num (Float float64.nan)))
          true float64.zero = Ret false /\
  compare (PyScalar (Num (Float float64.nan))) (PyScalar (Num (Float float64.nan)))
          true float64.zero = Ret false.
Proof. repeat split. Qed.

End CompareProps.

Section GetCompleteProps.

Lemma start_entry_frame (w : world) (pv : SnapshotPv) :
  _last_value (fst (start_entry w pv)) = _last_value pv /\
  connected (fst (start_entry w pv)) = connected pv.
Proof.
  unfold start_entry, _get_start.
  destruct (_initialized pv), (connected pv) eqn:Hc, (PV_get_ctrlvars w),
    (ca_get_with_metadata w); simpl; rewrite ?Hc; simpl; auto.
Qed.

Lemma get_complete_cases (w : world) (pv : SnapshotPv) (wait : bool) :
  (forall v, connected pv = true ->
             ca_get_complete_with_metadata w = Completed v ->
             _get_complete w pv wait
             = (v, set_last_value v (set_pvget_completer false pv), [EvGetComplete wait])) /\
  (connected pv = false \/ ca_get_complete_with_metadata w = TimedOut
   \/ ca_get_complete_with_metadata w = CaException ->
   fst (_get_complete w pv wait) = (PyNone, pv)).
Proof.
  unfold _get_complete. split.
  - intros v -> ->. reflexivity.
  - intros [-> | [-> | ->]]; [reflexivity | |]; destruct (connected pv); reflexivity.
Qed.

(** The values and the PVs that a cycle which is not suspended ends with. *)
Lemma cycle_completes (pvs : list (world * SnapshotPv)) :
  exists evs,
    cycle false pvs
    = (snd (fst (complete_all (fst (start_all pvs)))),
       evs ++ [EvCycleCallback (fst (fst (complete_all (fst (start_all pvs)))))]).
Proof.
  unfold cycle. destruct (start_all pvs) as [pvs1 evs1]; simpl.
  destruct (complete_all pvs1) as [[vals pvs2] evs2]; simpl.
  exists (evs1 ++ evs2). rewrite <- app_assoc. reflexivity.
Qed.

Lemma cycle_lookup (pvs : list (world * SnapshotPv)) : forall (i : nat) w pv,
  pvs !! i = Some (w, pv) ->
  fst (fst (complete_all (fst (start_all pvs)))) !! i
  = Some (fst (fst (_get_complete w (fst (start_entry w pv)) false))) /\
  snd (fst (complete_all (fst (start_all pvs)))) !! i
  = Some (w, snd (fst (_get_complete w (fst (start_entry w pv)) false))).
Proof.
  induction pvs as [| [w0 pv0] rest IH]; intros i w pv H; [discriminate |].
  simpl. destruct (start_entry w0 pv0) as [pv1 evs1] eqn:E1.
  destruct (start_all rest) as [rest1 evs2] eqn:E2. simpl.
  destruct (_get_complete w0 pv1 false) as [[val pv2] evs3] eqn:E3.
  destruct (complete_all rest1) as [[vals rest2] evs4] eqn:E4. simpl.
  destruct i as [| i]; simpl in *.
  - injection H as -> ->. rewrite E1. simpl. rewrite E3. auto.
  - specialize (IH i w pv H). rewrite E4 in IH. exact IH.
Qed.

(** C9: when the updater collects the read of an entry, the cached value
    is replaced only by the value of a completed read: for the entry at
    position [i] of a cycle, a read that completes with [v] on a connected
    channel makes [v] the cached value and the [i]-th value of the cycle;
    if the channel is disconnected or the read times out (or fails), the
    cached value is what it was and the [i]-th value is [None].  The list
    of values is the argument of the cycle's callback. *)
Theorem get_complete_updates_on_success
    (pvs : list (world * SnapshotPv)) (i : nat) (w : world) (pv : SnapshotPv) :
  pvs !! i = Some (w, pv) ->
  exists vals pv' evs,
    snd (cycle false pvs) = evs ++ [EvCycleCallback vals] /\
    fst (cycle false pvs) !! i = Some (w, pv') /\
    (forall v, connected pv = true ->
               ca_get_complete_with_metadata w = Completed v ->
               _last_value pv' = v /\ vals !! i = Some v) /\
    (connected pv = false \/ ca_get_complete_with_metadata w = TimedOut
     \/ ca_get_complete_with_metadata w = CaException ->
     _last_value pv' = _last_value pv /\ vals !! i = Some PyNone) /\
    (_last_value pv' <> _last_value pv ->
     connected pv = true /\
     ca_get_complete_with_metadata w = Completed (_last_value pv')).
Proof.
  intros H.
  destruct (cycle_completes pvs) as [evs Hc].
  destruct (cycle_lookup pvs i w pv H) as [Hv Hp].
  destruct (start_entry_frame w pv) as [Hl Hconn].
  set (pv1 := fst (start_entry w pv)) in *.
  destruct (get_complete_cases w pv1 false) as [Hok Hfail].
  exists (fst (fst (complete_all (fst (start_all pvs))))),
         (snd (fst (_get_complete w pv1 false))), evs.
  rewrite Hc; simpl. split; [reflexivity |]. split; [exact Hp |].
  rewrite Hv. rewrite Hconn in Hok, Hfail.
  split; [| split].
  - intros v Hcon Hrep. rewrite (Hok v Hcon Hrep). simpl. auto.
  - intros Hno. rewrite (Hfail Hno). simpl. auto.
  - intros Hneq. destruct (connected pv) eqn:Hcon.
    + destruct (ca_get_complete_with_metadata w) as [v | |] eqn:Hrep.
      * rewrite (Hok v eq_refl eq_refl). simpl. auto.
      * exfalso. apply Hneq. rewrite Hfail by auto. exact Hl.
      * exfalso. apply Hneq. rewrite Hfail by auto. exact Hl.
    + exfalso. apply Hneq. rewrite Hfail by auto. exact Hl.
Qed.

Lemma get_complete_updates_on_success_witness :
  two_entries !! 0%nat
  = Some (slow_world, set_last_value (PyScalar (Num (Int 1)))
                        (SnapshotPv_init "SLOW" true true true false)) /\
  exists vals pv' evs,
    snd (cycle false two_entries) = evs ++ [EvCycleCallback vals] /\
    fst (cycle false two_entries) !! 0%nat = Some (slow_world, pv') /\
    _last_value pv' = PyScalar (Num (Int 1)) /\ vals !! 0%nat = Some PyNone.
Proof.
  split; [reflexivity |].
  destruct (get_complete_updates_on_success two_entries 0 slow_world
              (set_last_value (PyScalar (Num (Int 1)))
                 (SnapshotPv_init "SLOW" true true true false)) eq_refl)
    as (vals & pv' & evs & Hev & Hpv & _ & Hfail & _).
  exists vals, pv', evs. repeat split; try assumption;
    apply Hfail; right; left; reflexivity.
Defined.

End GetCompleteProps.

Section ValueProps.

Lemma value_initialized (w : world) (pv : SnapshotPv) :
  _initialized pv = true -> value w pv = (_last_value pv, pv, []).
Proof. intros H. unfold value. rewrite H. reflexivity. Qed.

Lemma value_sets_initialized (w : world) (pv : SnapshotPv) :
  _initialized (snd (fst (value w pv))) = true.
Proof.
  unfold value. destruct (_initialized pv) eqn:E; simpl; [exact E |].
  unfold get_args, _get_complete; simpl.
  destruct (_pvget_completer pv), (connected pv),
    (ca_get_complete_with_metadata w) as [v | |]; simpl; try reflexivity;
    destruct (is_None v); reflexivity.
Qed.

(** C4, as the code has it.  A read of [value] on an initialized entry
    returns the cache, changes nothing and calls nothing.  On an entry
    that is not initialized, with or without a cached value, it sets the
    flag and caches what it returns: (a) if no read of the updater is
    pending, the result of exactly one blocking [PV.get] with control
    variables; (b) if one is pending and its completion, waited for
    without timeout, yields a value, that value is cached, the completer
    is cleared and the same [PV.get] follows, whose result replaces it;
    (c) if the pending read yields nothing, because the channel is
    disconnected (no call at all), the completion returns nothing or
    fails, or the value read is [None], no [PV.get] follows and [None] is
    cached and returned.  Any later read finds the entry initialized and
    calls nothing. *)
Theorem value_fetches_iff_uninitialized (w w' : world) (pv : SnapshotPv) :
  (_initialized pv = true -> value w pv = (_last_value pv, pv, [])) /\
  (_initialized pv = false ->
   (_pvget_completer pv = false ->
    value w pv
    = (PV_get w, set_last_value (PV_get w) (set_initialized true pv),
       [EvGet false true])) /\
   (_pvget_completer pv = true -> connected pv = true ->
    forall c, ca_get_complete_with_metadata w = Completed c -> c <> PyNone ->
      value w pv
      = (PV_get w,
         set_last_value (PV_get w)
           (set_last_value c (set_pvget_completer false (set_initialized true pv))),
         [EvGetComplete true; EvGet false true])) /\
   (_pvget_completer pv = true -> connected pv = false ->
    value w pv = (PyNone, set_last_value PyNone (set_initialized true pv), [])) /\
   (_pvget_completer pv = true -> connected pv = true ->
    ca_get_complete_with_metadata w = TimedOut
    \/ ca_get_complete_with_metadata w = CaException ->
    value w pv
    = (PyNone, set_last_value PyNone (set_initialized true pv), [EvGetComplete true])) /\
   (_pvget_completer pv = true -> connected pv = true ->
    ca_get_complete_with_metadata w = Completed PyNone ->
    value w pv
    = (PyNone,
       set_last_value PyNone
         (set_last_value PyNone (set_pvget_completer false (set_initialized true pv))),
       [EvGetComplete true]))) /\
  value w' (snd (fst (value w pv)))
  = (_last_value (snd (fst (value w pv))), snd (fst (value w pv)), []).
Proof.
  split; [apply value_initialized |].
  split; [| apply value_initialized, value_sets_initialized].
  intros Hi. unfold value. rewrite Hi. cbn [negb].
  unfold get_args, _get_complete. cbn [_pvget_completer connected set_initialized].
  split; [intros ->; reflexivity |].
  split.
  { intros -> -> c -> Hc. destruct c; [contradiction | reflexivity | reflexivity]. }
  split; [intros -> ->; reflexivity |].
  split; [intros -> -> [-> | ->]; reflexivity |].
  intros -> -> ->. reflexivity.
Qed.

Lemma value_fetches_iff_uninitialized_witness :
  _initialized fresh_pv = false /\ _pvget_completer fresh_pv = false /\
  value ctrl_timeout_world fresh_pv
  = (PyScalar (Num (Int 7)),
     set_last_value (PyScalar (Num (Int 7))) (set_initialized true fresh_pv),
     [EvGet false true]).
Proof.
  split; [reflexivity |]. split; [reflexivity |].
  destruct (value_fetches_iff_uninitialized ctrl_timeout_world ctrl_timeout_world fresh_pv)
    as (_ & H & _).
  destruct (H eq_refl) as (Hnc & _).
  exact (Hnc eq_refl).
Defined.

(** C4 as stated fails: after one cycle in which the control variables
    time out and the value read completes, the entry holds the cached
    value 5 and is not initialized; the first read of [value] then does a
    blocking [PV.get] although a cached value exists, and replaces it. *)
Lemma value_fetches_with_cached_value :
  fst (cycle false [(ctrl_timeout_world, fresh_pv)])
  = [(ctrl_timeout_world, set_last_value (PyScalar (Num (Int 5))) fresh_pv)] /\
  _last_value (set_last_value (PyScalar (Num (Int 5))) fresh_pv) = PyScalar (Num (Int 5)) /\
  value ctrl_timeout_world (set_last_value (PyScalar (Num (Int 5))) fresh_pv)
  = (PyScalar (Num (Int 7)),
     set_last_value (PyScalar (Num (Int 7))) (set_initialized true fresh_pv),
     [EvGet false true]).
Proof. repeat split. Qed.

End ValueProps.

Section RestoreProps.

Lemma value_pvname (w : world) (pv : SnapshotPv) :
  pvname (snd (fst (value w pv))) = pvname pv.
Proof.
  unfold value. destruct (_initialized pv); simpl; [reflexivity |].
  unfold get_args, _get_complete; simpl.
  destruct (_pvget_completer pv), (connected pv),
    (ca_get_complete_with_metadata w) as [v | |]; simpl; try reflexivity;
    destruct (is_None v); reflexivity.
Qed.

Lemma compare_to_curr_pvname (w : world) (pv : SnapshotPv) (v : pyvalue) :
  pvname (snd (fst (compare_to_curr w pv v))) = pvname pv.
Proof.
  unfold compare_to_curr. pose proof (value_pvname w pv) as H.
  destruct (value w pv) as [[curr pv1] evs]. exact H.
Qed.

(** The comparison never writes: the calls made while reading the current
    value are reads. *)
Lemma compare_to_curr_no_put (w : world) (pv : SnapshotPv) (v : pyvalue) :
  forall e, In e (snd (compare_to_curr w pv v)) ->
            e = EvGet false true \/ e = EvGetComplete true.
Proof.
  unfold compare_to_curr, value.
  destruct (_initialized pv); simpl; [intuition |].
  unfold get_args, _get_complete; simpl.
  destruct (_pvget_completer pv), (connected pv),
    (ca_get_complete_with_metadata w) as [x | |]; simpl;
    try destruct (is_None x); simpl; intuition.
Qed.

(** The branches of [restore_pv] when a callback is given and the
    comparison with the current value returns. *)
Lemma restore_pv_branches (w : world) (pv : SnapshotPv) (v : pyvalue) (cb : callback) :
  (connected pv = false \/ write_access pv = false ->
   restore_pv w pv v (Some cb) = (Ret tt, pv, [EvCallback cb (pvname pv) access_err])) /\
  (connected pv = true -> write_access pv = true ->
   restore_pv w pv PyNone (Some cb) = (Ret tt, pv, [EvCallback cb (pvname pv) no_value])) /\
  (connected pv = true -> write_access pv = true -> v <> PyNone ->
   forall b pv1 evs, compare_to_curr w pv v = (Ret b, pv1, evs) ->
     restore_pv w pv v (Some cb)
     = (Ret tt, pv1,
        evs ++
        (if b then [EvCallback cb (pvname pv) equal]
         else if PV_put_accepts w then [EvPut v (Some cb) ok]
         else [EvPut v (Some cb) ok; EvCallback cb (pvname pv) type_err]))).
Proof.
  split; [| split].
  - intros [H | H]; unfold restore_pv; rewrite H; [reflexivity |].
    destruct (connected pv); reflexivity.
  - intros Hc Hw. unfold restore_pv. rewrite Hc, Hw. reflexivity.
  - intros Hc Hw Hv b pv1 evs E.
    pose proof (compare_to_curr_pvname w pv v) as Hn.
    rewrite E in Hn; simpl in Hn.
    unfold restore_pv. rewrite Hc, Hw.
    destruct v as [| x | a]; [congruence | |]; simpl; rewrite E;
      destruct b; simpl; rewrite ?Hn; try reflexivity;
      destruct (PV_put_accepts w); simpl; rewrite ?Hn; reflexivity.
Qed.

(** C1 at a waveform whose length changed: the entry is connected and
    writable, its cached value has two elements and the value to restore
    has three.  The comparison raises [ValueError], which [restore_pv]
    does not handle: no write is issued and no callback is called. *)
Theorem restore_pv_length_mismatch (w : world) (cb : callback) :
  restore_pv w waveform_pv
    (PyArray (FloatArray [float64.of_Z 1; float64.of_Z 2; float64.of_Z 3])) (Some cb)
  = (Raise (ValueError
              "operands could not be broadcast together with shapes (3,) (2,) "),
     waveform_pv, []).
Proof. reflexivity. Qed.

(** C10: on a connected entry with write permission, [restore_pv] with
    [value=None] and no callback raises [TypeError]; without a callback
    the access-error branches and the equal branch return silently and
    call no callback, and with one they call it. *)
Theorem restore_pv_without_callback (w : world) (pv : SnapshotPv) (v : pyvalue) :
  (connected pv = true -> write_access pv = true ->
   restore_pv w pv PyNone None
   = (Raise (TypeError "'NoneType' object is not callable"), pv, [])) /\
  (connected pv = false \/ write_access pv = false ->
   restore_pv w pv v None = (Ret tt, pv, []) /\
   forall cb, restore_pv w pv v (Some cb)
              = (Ret tt, pv, [EvCallback cb (pvname pv) access_err])) /\
  (connected pv = true -> write_access pv = true -> v <> PyNone ->
   forall pv1 evs, compare_to_curr w pv v = (Ret true, pv1, evs) ->
     restore_pv w pv v None = (Ret tt, pv1, evs) /\
     forall cb, restore_pv w pv v (Some cb)
                = (Ret tt, pv1, evs ++ [EvCallback cb (pvname pv) equal])).
Proof.
  split; [| split].
  - intros Hc Hw. unfold restore_pv. rewrite Hc, Hw. reflexivity.
  - intros H. split; [| intros cb; apply restore_pv_branches, H].
    destruct H as [H | H]; unfold restore_pv; rewrite H; [reflexivity |].
    destruct (connected pv); reflexivity.
  - intros Hc Hw Hv pv1 evs E.
    split; [| intros cb;
              apply (proj2 (proj2 (restore_pv_branches w pv v cb)) Hc Hw Hv true pv1 evs E)].
    unfold restore_pv. rewrite Hc, Hw.
    destruct v as [| x | a]; [congruence | |]; simpl; rewrite E; simpl;
      rewrite app_nil_r; reflexivity.
Qed.

Lemma restore_pv_without_callback_witness :
  restore_pv fast_world waveform_pv PyNone None
  = (Raise (TypeError "'NoneType' object is not callable"), waveform_pv, []) /\
  restore_pv fast_world offline_pv (PyScalar (Num (Int 1))) None = (Ret tt, offline_pv, []) /\
  restore_pv fast_world waveform_pv
    (PyArray (FloatArray [float64.of_Z 1; float64.of_Z 2])) None
  = (Ret tt, waveform_pv, []).
Proof.
  split; [| split].
  - destruct (restore_pv_without_callback fast_world waveform_pv PyNone) as (H & _).
    apply H; reflexivity.
  - destruct (restore_pv_without_callback fast_world offline_pv (PyScalar (Num (Int 1))))
      as (_ & H & _).
    apply H. left. reflexivity.
  - destruct (restore_pv_without_callback fast_world waveform_pv
                (PyArray (FloatArray [float64.of_Z 1; float64.of_Z 2]))) as (_ & _ & H).
    apply (H eq_refl eq_refl); [discriminate | reflexivity].
Defined.

End RestoreProps.

Section StringFacts.

Lemma append_cons (x : ascii) (a b : string) : String x a +:+ b = String x (a +:+ b).
Proof. reflexivity. Qed.

Lemma append_assoc (a b c : string) : (a +:+ b) +:+ c = a +:+ (b +:+ c).
Proof.
  induction a as [| x a IH]; [reflexivity |].
  rewrite !append_cons, IH. reflexivity.
Qed.

Lemma append_nil_r (a : string) : a +:+ "" = a.
Proof.
  induction a as [| x a IH]; [reflexivity |].
  rewrite append_cons, IH. reflexivity.
Qed.

Lemma contains_here (x t : string) : pystr.contains (x +:+ t) x.
Proof. exists "", t. reflexivity. Qed.

Lemma contains_refl (x : string) : pystr.contains x x.
Proof. exists "", "". change ("" +:+ x +:+ "") with (x +:+ ""). rewrite append_nil_r. reflexivity. Qed.

Lemma contains_later (s t x : string) :
  pystr.contains t x -> pystr.contains (s +:+ t) x.
Proof.
  intros (pre & post & ->). exists (s +:+ pre), post.
  rewrite append_assoc. reflexivity.
Qed.

Lemma contains_earlier (s t x : string) :
  pystr.contains s x -> pystr.contains (s +:+ t) x.
Proof.
  intros (pre & post & ->). exists pre, (post +:+ t).
  rewrite !append_assoc. reflexivity.
Qed.

Lemma contains_join (sep x : string) (l : list string) :
  In x l -> pystr.contains (pystr.join sep l) x.
Proof.
  induction l as [| y l IH]; intros H; [destruct H |].
  destruct H as [-> | H].
  - destruct l; simpl; [apply contains_refl | apply contains_here].
  - destruct l as [| z l]; [destruct H |].
    change (pystr.join sep (y :: z :: l)) with (y +:+ sep +:+ pystr.join sep (z :: l)).
    apply contains_later, contains_later, IH, H.
Qed.

End StringFacts.

(** Goals [contains (a +:+ b +:+ ...) x] where [x] is one of the parts. *)
Ltac find_part :=
  first [ apply contains_refl
        | apply contains_here
        | apply contains_later; find_part ].

Section ReqFileProps.

Variables abspath normpath dirname : string -> string.
Variable path_join : string -> string -> string.

Import ReqFile.

Local Abbreviation read_line := (ReqFile.read_line abspath normpath dirname path_join).
Local Abbreviation read_lines := (ReqFile.read_lines abspath normpath dirname path_join).
Local Abbreviation _check_looping := (ReqFile._check_looping abspath normpath).
Local Abbreviation check_ancestors := (ReqFile.check_ancestors abspath normpath).
Local Abbreviation has_path := (ReqFile.has_path abspath normpath).
Local Abbreviation include_path := (ReqFile.include_path dirname path_join).

(** Induction along the chain of parents. *)
Lemma reqfile_chain_ind (P : SnapshotReqFile -> Prop) :
  (forall f, (forall p, _parent f = Some p -> P p) -> P f) ->
  forall f, P f.
Proof.
  intros H. fix IH 1. intros [path parent macros cm trace cl n].
  apply H. simpl. intros p Hp.
  destruct parent as [q |]; [| discriminate].
  injection Hp as <-. apply IH.
Qed.

Lemma invalid_macros_spec (self : SnapshotReqFile) (txt tok : string) :
  In tok (invalid_macros self txt) <->
  In tok (re.findall_macros txt) /\
  str_in tok (dict_values (_macros self)) = false /\
  str_in (pystr.drop_last (pystr.drop 2 tok)) (_c_macros self) = false.
Proof.
  unfold invalid_macros. rewrite filter_In, andb_true_iff, !negb_true_iff.
  reflexivity.
Qed.

Lemma validate_spec (self : SnapshotReqFile) (txt : string) :
  (invalid_macros self txt = [] -> _validate_macros_in_txt self txt = Ret tt) /\
  (invalid_macros self txt <> [] ->
   _validate_macros_in_txt self txt
   = Raise (MacroError ("Following macros were not defined: "
                        +:+ pystr.join ", " (invalid_macros self txt)))).
Proof.
  unfold _validate_macros_in_txt.
  destruct (invalid_macros self txt); split; intros H; congruence.
Qed.

(** C6, as the code has it.  For a PV line (not blank, not starting with
    a structural prefix), let [pvname] be the text before the first comma
    after macro substitution.  A ["$(...)"] token of [pvname] is rejected
    exactly when it is not, as a whole, the value of one of the macros and
    its name is not a changeable macro.  If a token is rejected, [read]
    stops at this line with a [ReqParseError] whose message holds the
    trace of the file, the line number, the line text and every rejected
    token.  If none is, the line contributes [pvname] as it is, tokens
    included, and reading goes on. *)
Theorem unresolved_macro_is_parse_error
    (read_sub : SnapshotReqFile -> res (list string))
    (self0 : SnapshotReqFile) (raw : string) (rest pvs : list string) :
  let self := next_line self0 raw in
  let line := pystr.strip raw in
  let pvname := macros_substitution (fst (pystr.split_once "," (pystr.rstrip line)))
                                    (_macros self0) in
  pystr.startswith_any ["#"; "data{"; "}"; "!"] line = false ->
  pystr.strip line <> "" ->
  (forall tok,
     In tok (invalid_macros self pvname) <->
     In tok (re.findall_macros pvname) /\
     str_in tok (dict_values (_macros self0)) = false /\
     str_in (pystr.drop_last (pystr.drop 2 tok)) (_c_macros self0) = false) /\
  (invalid_macros self pvname <> [] ->
   exists msg,
     read_lines read_sub self0 (raw :: rest) pvs = Raise (ReqParseError msg) /\
     msg = _trace self0 +:+ " [line " +:+ pystr.of_nat (S (_curr_line_n self0)) +:+ ": "
           +:+ line +:+ "]: " +:+ "Following macros were not defined: "
           +:+ pystr.join ", " (invalid_macros self pvname) /\
     pystr.contains msg (_trace self0) /\
     pystr.contains msg (pystr.of_nat (S (_curr_line_n self0))) /\
     pystr.contains msg line /\
     forall tok, In tok (invalid_macros self pvname) -> pystr.contains msg tok) /\
  (invalid_macros self pvname = [] ->
   read_line read_sub self = Ret [pvname] /\
   read_lines read_sub self0 (raw :: rest) pvs
   = read_lines read_sub self rest (pvs ++ [pvname])).
Proof.
  intros self line pvname Hpre Hne.
  assert (Hstep : read_line read_sub self
                  = (let! _ := reraise_macro_error self
                                 (_validate_macros_in_txt self pvname) in
                     Ret [pvname])).
  { unfold ReqFile.read_line.
    change (_curr_line self) with (Some line). cbv beta iota. rewrite Hpre.
    destruct (String.eqb_spec (pystr.strip line) "") as [E | _]; [contradiction |].
    reflexivity. }
  destruct (validate_spec self pvname) as [Hok Hbad].
  split; [intros tok; exact (invalid_macros_spec self pvname tok) |]. split.
  - intros Hinv. eexists. split; [| split; [reflexivity |]].
    + simpl. fold self. rewrite Hstep, (Hbad Hinv). reflexivity.
    + repeat split; try find_part.
      intros tok Htok. do 7 apply contains_later. apply contains_join, Htok.
  - intros Hinv. assert (E : read_line read_sub self = Ret [pvname]).
    { rewrite Hstep, (Hok Hinv). reflexivity. }
    split; [exact E |]. simpl. fold self. rewrite E. reflexivity.
Qed.

Lemma contains_trans (s t x : string) :
  pystr.contains s t -> pystr.contains t x -> pystr.contains s x.
Proof.
  intros (p1 & q1 & ->) H. apply contains_later, contains_earlier, H.
Qed.

Lemma startswith_bang (line : string) :
  pystr.startswith "!" line = true ->
  pystr.startswith_any ["#"; "data{"; "}"; "!"] line = true.
Proof.
  intros H. unfold pystr.startswith_any. cbn [existsb].
  rewrite H. rewrite !orb_true_r. reflexivity.
Qed.

(** [_check_looping] finds the first node of the chain with the path. *)
Lemma check_ancestors_find (self : SnapshotReqFile) (p : string) :
  check_ancestors self p
  = option_map (loop_message p) (List.find (has_path p) (ancestors self)).
Proof.
  induction self as [f IH] using reqfile_chain_ind.
  destruct f as [path parent macros cm trace cl n]. cbn [ancestors _parent List.find].
  cbn [ReqFile.check_ancestors].
  destruct (ReqFile.has_path abspath normpath p _); [reflexivity |].
  cbn [_parent]. destruct parent as [q |]; [| reflexivity].
  apply (IH q eq_refl).
Qed.

Lemma find_has_path (self a : SnapshotReqFile) (p : string) :
  In a (ancestors self) -> normpath (abspath (_path a)) = p ->
  exists a0, List.find (has_path p) (ancestors self) = Some a0 /\
             In a0 (ancestors self) /\ normpath (abspath (_path a0)) = p.
Proof.
  intros Hin Ha.
  destruct (List.find (has_path p) (ancestors self)) as [a0 |] eqn:E.
  - exists a0. split; [reflexivity |].
    apply List.find_some in E. destruct E as [E1 E2].
    split; [exact E1 |]. apply String.eqb_eq, E2.
  - exfalso. apply (List.find_none _ _ E a) in Hin.
    unfold ReqFile.has_path in Hin. rewrite Ha, String.eqb_refl in Hin. discriminate.
Qed.

(** The errors of a macro argument. *)
Lemma include_macros_error (self : SnapshotReqFile) (arg : option string) (e : exn) :
  include_macros self arg = Raise e ->
  (exists msg, e = ReqFileFormatError (err_here self msg)) \/
  (exists msg, e = ReqParseError (err_here self msg)).
Proof.
  unfold include_macros. destruct arg as [a |]; [| discriminate].
  destruct (pystr.strip a) as [| q rest]; [intros [= <-]; left; eexists; reflexivity |].
  destruct (Ascii.eqb q double_quote || Ascii.eqb q single_quote);
    [| intros [= <-]; left; eexists; reflexivity].
  destruct (negb (pystr.endswith_char q (String q rest)));
    [intros [= <-]; left; eexists; reflexivity |].
  unfold reraise_macro_error, _validate_macros_in_txt.
  destruct (invalid_macros self _) as [| x xs]; cbn [bind].
  - unfold parse_macros.
    destruct (macros_substitution _ _) as [| c txt]; [discriminate |].
    generalize (pystr.split "," (String c txt)), (@nil (string * string)).
    intros l. induction l as [| m l IH]; intros d; cbn [parse_macros_list];
      [discriminate |].
    destruct (pystr.split "=" (pystr.strip m)) as [| k [| v [| ? ?]]];
      try (intros [= <-]; right; eexists; reflexivity).
    apply IH.
  - intros [= <-]. right. eexists. reflexivity.
Qed.

(** Every node made by [__init__] has a trace that ends with its path,
    and reading lines does not change the trace. *)
Lemma init_trace_names_path path parent macros cm :
  pystr.contains (_trace (SnapshotReqFile_init abspath path parent macros cm))
                 (_path (SnapshotReqFile_init abspath path parent macros cm)).
Proof. destruct parent; simpl; find_part. Qed.

(** C5, as the code has it.  While a file is read, an include line whose
    target has the normalized absolute path of a node of the ancestor
    chain (the file itself or one of its includers, up to the root) makes
    [read] stop with an exception, whatever reading the target would do:
    the target is not read.  The macro argument of the line is checked
    first: when it is rejected, the exception is the format or parse
    error of the argument.  When it is absent or accepted, the exception
    is [ReqFileInfLoopError]; its message is the trace of the including
    file, the line number and the line, followed by the loop message for
    the first node of the chain with that path, which names the
    normalized path of the target and, unless that node is the root, the
    path of the file that node was included from. *)
Theorem include_of_ancestor_is_loop_error
    (read_sub : SnapshotReqFile -> res (list string))
    (self0 : SnapshotReqFile) (raw : string) (rest pvs : list string)
    (a : SnapshotReqFile) :
  let self := next_line self0 raw in
  let line := pystr.strip raw in
  let name := fst (pystr.split_once "," (pystr.drop 1 line)) in
  let arg := snd (pystr.split_once "," (pystr.drop 1 line)) in
  let target := normpath (abspath (include_path self name)) in
  pystr.startswith "!" line = true ->
  In a (ancestors self) ->
  normpath (abspath (_path a)) = target ->
  (exists e, forall rs, read_lines rs self0 (raw :: rest) pvs = Raise e) /\
  (forall e, include_macros self arg = Raise e ->
     read_lines read_sub self0 (raw :: rest) pvs = Raise e /\
     ((exists msg, e = ReqFileFormatError (err_here self msg)) \/
      (exists msg, e = ReqParseError (err_here self msg)))) /\
  (forall macros, include_macros self arg = Ret macros ->
     exists a0 msg,
       List.find (has_path target) (ancestors self) = Some a0 /\
       normpath (abspath (_path a0)) = target /\
       msg = _trace self0 +:+ " [line " +:+ pystr.of_nat (S (_curr_line_n self0)) +:+ ": "
             +:+ line +:+ "]: " +:+ loop_message target a0 /\
       read_lines read_sub self0 (raw :: rest) pvs = Raise (ReqFileInfLoopError msg) /\
       pystr.contains msg target /\
       (forall par, _parent a0 = Some par -> pystr.contains msg (_path par)) /\
       pystr.contains msg (_trace self0) /\
       (pystr.contains (_trace self0) (_path self0) ->
        pystr.contains msg (_path self0))).
Proof.
  intros self line name arg target Hbang Hin Ha.
  destruct (find_has_path self a target Hin Ha) as (a0 & Hfind & _ & Ha0).
  assert (Hstep : forall rs,
             read_line rs self
             = (let! macros := include_macros self arg in
                Raise (ReqFileInfLoopError (err_here self (loop_message target a0))))).
  { intros rs. unfold ReqFile.read_line.
    change (_curr_line self) with (Some line). cbv beta iota.
    rewrite (startswith_bang line Hbang), Hbang. cbn [negb andb].
    fold name arg. unfold ReqFile._check_looping. fold target.
    rewrite check_ancestors_find, Hfind. reflexivity. }
  assert (Hloop : forall rs, read_lines rs self0 (raw :: rest) pvs
                             = (let! new := read_line rs self in
                                read_lines rs self rest (pvs ++ new)))
    by reflexivity.
  split; [| split].
  - destruct (include_macros self arg) as [m | e] eqn:E.
    + eexists. intros rs. rewrite Hloop, Hstep. reflexivity.
    + exists e. intros rs. rewrite Hloop, Hstep. reflexivity.
  - intros e E. split; [rewrite Hloop, Hstep, E; reflexivity |].
    exact (include_macros_error self arg e E).
  - intros macros E. exists a0. eexists.
    split; [exact Hfind |]. split; [exact Ha0 |]. split; [reflexivity |].
    split; [rewrite Hloop, Hstep, E; reflexivity |].
    split; [| split; [| split]].
    + do 6 apply contains_later. unfold ReqFile.loop_message.
      destruct (_parent a0); find_part.
    + intros par Hpar. do 6 apply contains_later. unfold ReqFile.loop_message.
      rewrite Hpar. do 3 apply contains_later. apply contains_refl.
    + find_part.
    + intros Hwf. eapply contains_trans; [| exact Hwf]. find_part.
Qed.

End ReqFileProps.

Section ReqFileExamples.

(** The scenario of the specification: [A] includes [B] with [X=1] and
    [B] holds [pv$(X)]; the changeable macro [SYS] stays in the output. *)
Example read_include_scenario :
  ex_read 5 (ex_init "/r/A" None [] ["SYS"]) = Ret ["pv1"; "top$(SYS)  "].
Proof. vm_compute. reflexivity. Qed.

(** [L] includes [M], which includes [L] again. *)
Example read_cycle_scenario :
  ex_read 5 (ex_init "/r/L" None [] [])
  = Raise (ReqFileInfLoopError
             ("/r/L [line 2: !M] >> /r/M [line 1: !L]: Infinity loop detected. "
              +:+ "File /r/L was already loaded as root request file.")).
Proof. vm_compute. reflexivity. Qed.

Lemma include_of_ancestor_is_loop_error_witness :
  pystr.startswith "!" (pystr.strip "!L") = true /\
  In ex_L (ancestors (ReqFile.next_line ex_M "!L")) /\
  ex_id (ex_id (_path ex_L))
  = ex_id (ex_id (ReqFile.include_path ex_dirname ex_join (ReqFile.next_line ex_M "!L") "L")) /\
  ReqFile.read_lines ex_id ex_id ex_dirname ex_join (ex_read 3) ex_M ["!L"] []
  = Raise (ReqFileInfLoopError
             ("/r/L [line 2: !M] >> /r/M [line 1: !L]: Infinity loop detected. "
              +:+ "File /r/L was already loaded as root request file.")).
Proof.
  split; [reflexivity |]. split; [right; left; reflexivity |].
  split; [reflexivity |].
  destruct (include_of_ancestor_is_loop_error ex_id ex_id ex_dirname ex_join
              (ex_read 3) ex_M "!L" [] [] ex_L)
    as (_ & _ & H); [reflexivity | right; left; reflexivity | reflexivity |].
  destruct (H [] eq_refl) as (a0 & msg & Hfind & _ & Hmsg & Hr & _).
  rewrite Hr, Hmsg. vm_compute in Hfind. injection Hfind as <-. reflexivity.
Defined.

(** C5 as stated fails when the macro argument of the include line is
    rejected: [M], included from [L], includes [L] with macros that are
    not quoted; the target is the root of the chain, yet the exception is
    the format error of the argument, not the loop error. *)
Lemma include_of_ancestor_with_bad_macros :
  In ex_L (ancestors (ReqFile.next_line ex_M "!L,X=1")) /\
  ex_id (ex_id (_path ex_L))
  = ex_id (ex_id (ReqFile.include_path ex_dirname ex_join
                    (ReqFile.next_line ex_M "!L,X=1") "L")) /\
  ReqFile.read_lines ex_id ex_id ex_dirname ex_join (ex_read 3) ex_M ["!L,X=1"] []
  = Raise (ReqFileFormatError
             ("/r/L [line 2: !M] >> /r/M [line 1: !L,X=1]: "
              +:+ "Syntax error. Macros argument must be quoted.")).
Proof.
  split; [right; left; reflexivity |]. split; vm_compute; reflexivity.
Qed.

Lemma unresolved_macro_is_parse_error_witness :
  pystr.startswith_any ["#"; "data{"; "}"; "!"] (pystr.strip "top$(SYS)  , extra") = false /\
  pystr.strip (pystr.strip "top$(SYS)  , extra") <> "" /\
  ReqFile.read_lines ex_id ex_id ex_dirname ex_join (ex_read 3)
    (ex_init "/r/A" None [] []) ["top$(SYS)  , extra"] []
  = Raise (ReqParseError
             "/r/A [line 1: top$(SYS)  , extra]: Following macros were not defined: $(SYS)").
Proof.
  split; [reflexivity |]. split; [vm_compute; discriminate |].
  destruct (unresolved_macro_is_parse_error ex_id ex_id ex_dirname ex_join
              (ex_read 3) (ex_init "/r/A" None [] []) "top$(SYS)  , extra" [] [])
    as (_ & H & _); [reflexivity | vm_compute; discriminate |].
  destruct H as (msg & Hr & Hm & _); [vm_compute; discriminate |].
  rewrite Hr, Hm. vm_compute. reflexivity.
Defined.

(** C6 as stated fails: with the macro [A] defined as ["$(B)"] and no
    changeable macro, the line [pv$(A)] becomes [pv$(B)]; the token
    ["$(B)"] remains and [B] is not a changeable macro, yet the line is
    accepted, because the token is the value of a macro. *)
Lemma macro_value_token_is_accepted :
  macros_substitution "pv$(A)" (_macros ex_S) = "pv$(B)" /\
  re.findall_macros "pv$(B)" = ["$(B)"] /\
  str_in "B" (_c_macros ex_S) = false /\
  ex_read_line (ex_read 3) (ReqFile.next_line ex_S "pv$(A)") = Ret ["pv$(B)"] /\
  ex_read 3 ex_S = Ret ["pv$(B)"].
Proof. vm_compute. repeat split. Qed.

End ReqFileExamples.

Section SaveFileProps.

Variable json_loads : string -> res json.
Variable asarray : list json -> option exn.

Import SaveFile.

Local Abbreviation try_loads := (SaveFile.try_loads json_loads).
Local Abbreviation value_of_json := (SaveFile.value_of_json asarray).
Local Abbreviation line_value := (SaveFile.line_value json_loads asarray).
Local Abbreviation parse_line := (SaveFile.parse_line json_loads asarray).
Local Abbreviation parse_lines := (SaveFile.parse_lines json_loads asarray).
Local Abbreviation parse_file_lines := (SaveFile.parse_file_lines json_loads asarray).

(** The three kinds of lines of a full parse. *)
Lemma parse_line_meta (mo : bool) (line : string) (st : parse_state) :
  pystr.startswith "#" line = true -> meta_loaded st = false ->
  parse_line mo line st
  = (let! decoded := try_loads (pystr.drop 1 line) in
     Ret ({| saved_pvs := saved_pvs st;
             meta_data := match decoded with Some j => j | None => meta_data st end;
             err := match decoded with
                    | Some _ => err st
                    | None => err st ++ ["Meta data could not be decoded. Must be in JSON format."]
                    end;
             meta_loaded := true |}, mo)).
Proof.
  intros Hc Hl. unfold SaveFile.parse_line. rewrite Hc, Hl. cbn [negb andb].
  destruct (try_loads (pystr.drop 1 line)) as [[j |] | e]; reflexivity.
Qed.

Lemma parse_line_data (line : string) (st : parse_state) :
  pystr.startswith "#" line = false -> pystr.strip line <> "" ->
  parse_line false line st
  = (let! ve := line_value (fst (pystr.split_once "," (pystr.strip line)))
                           (snd (pystr.split_once "," (pystr.strip line))) (err st) in
     Ret ({| saved_pvs := <[fst (pystr.split_once "," (pystr.strip line)) := fst ve]>
                            (saved_pvs st);
             meta_data := meta_data st; err := snd ve;
             meta_loaded := meta_loaded st |}, false)).
Proof.
  intros Hc Hne. unfold SaveFile.parse_line. rewrite Hc. cbn [negb andb].
  destruct (String.eqb_spec (pystr.strip line) "") as [E | _]; [contradiction |].
  reflexivity.
Qed.

Lemma parse_line_skip (mo : bool) (line : string) (st : parse_state) :
  (pystr.startswith "#" line = true /\ meta_loaded st = true) \/
  (pystr.startswith "#" line = false /\ (mo = true \/ pystr.strip line = "")) ->
  parse_line mo line st = Ret (st, false).
Proof.
  unfold SaveFile.parse_line. intros [[-> ->] | [-> [-> | ->]]]; cbn [negb andb];
    rewrite ?andb_false_r; reflexivity.
Qed.

(** Every line is of one of the three kinds. *)
Lemma parse_line_kind (line : string) (st : parse_state) :
  (pystr.startswith "#" line = true /\ meta_loaded st = false) \/
  (pystr.startswith "#" line = false /\ pystr.strip line <> "") \/
  ((pystr.startswith "#" line = true /\ meta_loaded st = true) \/
   (pystr.startswith "#" line = false /\ (false = true \/ pystr.strip line = ""))).
Proof.
  destruct (pystr.startswith "#" line), (meta_loaded st);
    destruct (String.eqb_spec (pystr.strip line) "") as [E | E];
    first [ left; split; reflexivity
          | right; left; split; [reflexivity | exact E]
          | right; right; left; split; reflexivity
          | right; right; right; split; [reflexivity | right; exact E] ].
Qed.

(** The value of a data line does not depend on the errors so far, which
    it extends. *)
Lemma line_value_errs (name : string) (lit : option string) (errs : list string) :
  line_value name lit errs
  = (let! ve := line_value name lit [] in Ret (fst ve, errs ++ snd ve)).
Proof.
  unfold SaveFile.line_value. destruct lit as [l |]; cbn [bind].
  - destruct (try_loads l) as [[j |] | e]; cbn [bind]; try reflexivity.
    destruct (value_of_json j) as [v | e]; cbn [bind fst snd]; [| reflexivity].
    rewrite app_nil_r. reflexivity.
  - cbn [fst snd]. rewrite app_nil_r. reflexivity.
Qed.

(** Without [metadata_only] the loop is never left early. *)
Lemma parse_line_no_break (line : string) (st : parse_state) (r : parse_state * bool) :
  parse_line false line st = Ret r -> snd r = false.
Proof.
  destruct (parse_line_kind line st) as [[Hc Hl] | [[Hc Hne] | H]].
  - rewrite (parse_line_meta false line st Hc Hl).
    destruct (try_loads (pystr.drop 1 line)) as [d | e]; [| discriminate].
    intros [= <-]. reflexivity.
  - rewrite (parse_line_data line st Hc Hne).
    destruct (line_value _ _ _) as [ve | e]; [| discriminate].
    intros [= <-]. reflexivity.
  - rewrite (parse_line_skip false line st H). intros [= <-]. reflexivity.
Qed.

Lemma parse_lines_cons (line : string) (rest : list string) (st : parse_state) :
  parse_lines false (line :: rest) st
  = (let! r := parse_line false line st in parse_lines false rest (fst r)).
Proof.
  cbn [SaveFile.parse_lines]. pose proof (parse_line_no_break line st) as H.
  destruct (parse_line false line st) as [r | e]; [| reflexivity].
  cbn [bind]. rewrite (H r eq_refl). reflexivity.
Qed.

Lemma parse_lines_app (pre post : list string) : forall st,
  parse_lines false (pre ++ post) st
  = (let! st1 := parse_lines false pre st in parse_lines false post st1).
Proof.
  induction pre as [| line pre IH]; intros st; [reflexivity |].
  rewrite <- app_comm_cons, !parse_lines_cons.
  destruct (parse_line false line st) as [r | e]; [| reflexivity].
  cbn [bind]. apply IH.
Qed.

(** Errors are only ever appended. *)
Lemma parse_line_err (mo : bool) (line : string) (st : parse_state)
    (r : parse_state * bool) :
  parse_line mo line st = Ret r -> exists more, err (fst r) = err st ++ more.
Proof.
  unfold SaveFile.parse_line.
  destruct (pystr.startswith "#" line && negb (meta_loaded st)).
  - destruct (try_loads (pystr.drop 1 line)) as [[j |] | e]; cbn [bind];
      try discriminate; intros [= <-]; cbn [fst err];
      [exists []; rewrite app_nil_r; reflexivity | eexists; reflexivity].
  - destruct (negb mo && negb (String.eqb (pystr.strip line) "")
              && negb (pystr.startswith "#" line)).
    + rewrite line_value_errs.
      destruct (line_value _ _ []) as [ve | e]; cbn [bind]; [| discriminate].
      intros [= <-]. cbn [fst snd err]. eexists; reflexivity.
    + intros [= <-]. exists []. rewrite app_nil_r. reflexivity.
Qed.

Lemma parse_lines_err (mo : bool) (lines : list string) : forall st st',
  parse_lines mo lines st = Ret st' -> exists more, err st' = err st ++ more.
Proof.
  induction lines as [| line rest IH]; intros st st'; cbn [SaveFile.parse_lines].
  - intros [= <-]. exists []. rewrite app_nil_r. reflexivity.
  - destruct (parse_line mo line st) as [r | e] eqn:E; cbn [bind]; [| discriminate].
    destruct (parse_line_err mo line st r E) as [m1 H1].
    destruct (snd r).
    + intros [= <-]. exists m1. exact H1.
    + intros H. destruct (IH _ _ H) as [m2 H2]. exists (m1 ++ m2).
      rewrite H2, H1, app_assoc. reflexivity.
Qed.

(** Two parses that start from states agreeing except at [k] go the same
    way: both abort with the same exception, or both return, in states
    that agree except at [k]. *)
Lemma parse_line_agree (k line : string) (s1 s2 : parse_state) :
  agree_except k s1 s2 ->
  res_rel (fun r1 r2 => agree_except k (fst r1) (fst r2))
          (parse_line false line s1) (parse_line false line s2).
Proof.
  intros (Hs & Hm & Hl).
  destruct (parse_line_kind line s2) as [[Hc Hl2] | [[Hc Hne] | H]].
  - rewrite (parse_line_meta false line s1 Hc ltac:(congruence)),
            (parse_line_meta false line s2 Hc Hl2).
    destruct (try_loads (pystr.drop 1 line)) as [[j |] | e]; cbn;
      repeat split; auto.
  - rewrite (parse_line_data line s1 Hc Hne), (parse_line_data line s2 Hc Hne).
    rewrite (line_value_errs _ _ (err s1)), (line_value_errs _ _ (err s2)).
    destruct (line_value _ _ []) as [ve | e]; cbn; [| reflexivity].
    repeat split; auto. intros p Hp. cbn [saved_pvs].
    destruct (decide (fst (pystr.split_once "," (pystr.strip line)) = p)) as [-> | Hne'].
    + rewrite !lookup_insert_eq. reflexivity.
    + rewrite !lookup_insert_ne by exact Hne'. apply Hs, Hp.
  - rewrite (parse_line_skip false line s2 H).
    rewrite (parse_line_skip false line s1) by (rewrite Hl; exact H).
    cbn. repeat split; auto.
Qed.

Lemma parse_lines_agree (k : string) (lines : list string) : forall s1 s2,
  agree_except k s1 s2 ->
  res_rel (agree_except k) (parse_lines false lines s1) (parse_lines false lines s2).
Proof.
  induction lines as [| line rest IH]; intros s1 s2 H; [exact H |].
  rewrite !parse_lines_cons. pose proof (parse_line_agree k line s1 s2 H) as Hr.
  destruct (parse_line false line s1) as [r1 | e1],
           (parse_line false line s2) as [r2 | e2]; cbn in *;
    try contradiction; [apply IH, Hr | exact Hr].
Qed.

(** Lines that do not define [k] leave its entry alone. *)
Lemma parse_line_other (k line : string) (st : parse_state) (r : parse_state * bool) :
  line_name line <> Some k ->
  parse_line false line st = Ret r ->
  saved_pvs (fst r) !! k = saved_pvs st !! k.
Proof.
  unfold line_name. intros H.
  destruct (parse_line_kind line st) as [[Hc Hl] | [[Hc Hne] | Hs]].
  - rewrite (parse_line_meta false line st Hc Hl).
    destruct (try_loads (pystr.drop 1 line)) as [d | e]; [| discriminate].
    intros [= <-]. reflexivity.
  - rewrite (parse_line_data line st Hc Hne).
    destruct (line_value _ _ _) as [ve | e]; [| discriminate].
    intros [= <-]. cbn [fst saved_pvs].
    rewrite Hc in H. cbn [negb] in H. rewrite andb_true_r in H.
    destruct (String.eqb_spec (pystr.strip line) "") as [E | _]; [contradiction |].
    cbn [negb] in H. apply lookup_insert_ne. congruence.
  - rewrite (parse_line_skip false line st Hs). intros [= <-]. reflexivity.
Qed.

Lemma parse_lines_other (k : string) (lines : list string) : forall st st',
  Forall (fun line => line_name line <> Some k) lines ->
  parse_lines false lines st = Ret st' ->
  saved_pvs st' !! k = saved_pvs st !! k.
Proof.
  induction lines as [| line rest IH]; intros st st' H.
  - intros [= <-]. reflexivity.
  - inversion H as [| ? ? Hl Hr]; subst. rewrite parse_lines_cons.
    destruct (parse_line false line st) as [r | e] eqn:E; cbn [bind]; [| discriminate].
    intros Hrest. rewrite (IH _ _ Hr Hrest). exact (parse_line_other k line st r Hl E).
Qed.

(** A line that is not a metadata line leaves [meta_loaded] as it is. *)
Lemma parse_lines_no_meta (mo : bool) (lines : list string) : forall st st',
  meta_loaded st = false ->
  Forall (fun line => pystr.startswith "#" line = false) lines ->
  parse_lines mo lines st = Ret st' ->
  meta_loaded st' = false.
Proof.
  induction lines as [| line rest IH]; intros st st' Hst H.
  - intros [= <-]. exact Hst.
  - inversion H as [| ? ? Hl Hr]; subst. cbn [SaveFile.parse_lines].
    unfold SaveFile.parse_line. rewrite Hl. cbn [andb].
    destruct (negb mo && negb (String.eqb (pystr.strip line) "") && negb false).
    + destruct (line_value _ _ _) as [ve | e]; cbn [bind snd fst]; [| discriminate].
      apply IH; assumption.
    + cbn [bind snd fst]. apply IH; assumption.
Qed.

Lemma split_once_empty (c : ascii) (s name lit : string) :
  pystr.split_once c s = (name, Some lit) -> s <> "".
Proof. intros H ->. discriminate H. Qed.

(** A data line whose value parses to [ve], or makes the parse abort. *)
Lemma parse_line_value (bad pvname lit : string) (st : parse_state) :
  pystr.startswith "#" bad = false ->
  pystr.split_once "," (pystr.strip bad) = (pvname, Some lit) ->
  parse_line false bad st
  = (let! ve := line_value pvname (Some lit) (err st) in
     Ret ({| saved_pvs := <[pvname := fst ve]> (saved_pvs st);
             meta_data := meta_data st; err := snd ve;
             meta_loaded := meta_loaded st |}, false)).
Proof.
  intros Hc Hs.
  rewrite (parse_line_data bad st Hc (split_once_empty _ _ _ _ Hs)), Hs. reflexivity.
Qed.

(** C7 does not hold of the code.  [parse_from_save_file] handles
    [json.JSONDecodeError] only: in a file whose earlier lines parse, a
    data line [name,literal] makes the whole call raise, and return
    nothing of what was parsed, when [json.loads] raises another exception
    on the literal or when the literal decodes to a list that
    [numpy.asarray] refuses.  What holds is this: a data line on whose
    literal [json.loads] raises [JSONDecodeError] does not change whether
    the parse returns, and when it does, the error string for [name] is in
    the error list, the value of [name] is [None] (unless a later line
    defines [name] again), and the entries of all other names and the
    metadata are what they are without that line; and when the parse
    returns for a file without a line beginning with ["#"], the first
    entry of the error list is the "no metadata" error. *)
Theorem save_file_partial_failure
    (open_file : string -> option (list string)) (path : string)
    (lines pre post : list string) (bad pvname lit : string) (metadata_only : bool) :
  pystr.startswith "#" bad = false ->
  pystr.split_once "," (pystr.strip bad) = (pvname, Some lit) ->
  (forall st e,
     open_file path = Some (pre ++ bad :: post) ->
     parse_lines false pre initial = Ret st ->
     (json_loads lit = Raise e /\ (forall msg, e <> JSONDecodeError msg)) \/
     (exists items, json_loads lit = Ret (JList items) /\ asarray items = Some e) ->
     SaveFile.parse_from_save_file json_loads asarray open_file path false = Raise e) /\
  (forall msg, json_loads lit = Raise (JSONDecodeError msg) ->
     res_rel
       (fun r r' =>
          In (cannot_decode pvname) (snd r) /\
          (Forall (fun line => line_name line <> Some pvname) post ->
           fst (fst r) !! pvname = Some PvNone) /\
          (forall p, p <> pvname -> fst (fst r) !! p = fst (fst r') !! p) /\
          snd (fst r) = snd (fst r'))
       (parse_file_lines (pre ++ bad :: post) false)
       (parse_file_lines (pre ++ post) false)) /\
  (forall r,
     Forall (fun line => pystr.startswith "#" line = false) lines ->
     parse_file_lines lines metadata_only = Ret r ->
     exists others, snd r = "No meta data in the file." :: others).
Proof.
  intros Hc Hs. split; [| split].
  - intros st e Ho Hpre Hbad. unfold SaveFile.parse_from_save_file. rewrite Ho.
    unfold SaveFile.parse_file_lines.
    rewrite parse_lines_app, Hpre. cbn [bind].
    rewrite parse_lines_cons, (parse_line_value bad pvname lit st Hc Hs).
    unfold SaveFile.line_value, SaveFile.try_loads.
    destruct Hbad as [[Hj Hne] | (items & Hj & Ha)]; rewrite Hj.
    + destruct e; try reflexivity. exfalso. exact (Hne _ eq_refl).
    + cbn. rewrite Ha. reflexivity.
  - intros msg Hj. unfold SaveFile.parse_file_lines.
    rewrite !parse_lines_app.
    destruct (parse_lines false pre initial) as [st | e]; cbn [bind]; [| reflexivity].
    rewrite parse_lines_cons, (parse_line_value bad pvname lit st Hc Hs).
    unfold SaveFile.line_value, SaveFile.try_loads. rewrite Hj. cbn [bind fst snd].
    set (st_bad := {| saved_pvs := <[pvname := PvNone]> (saved_pvs st);
                      meta_data := meta_data st;
                      err := err st ++ [cannot_decode pvname];
                      meta_loaded := meta_loaded st |}).
    assert (Ha : agree_except pvname st_bad st).
    { repeat split. intros p Hp. cbn. apply lookup_insert_ne. congruence. }
    pose proof (parse_lines_agree pvname post _ _ Ha) as Hr.
    pose proof (parse_lines_err false post st_bad) as Herr.
    pose proof (parse_lines_other pvname post st_bad) as Hoth.
    destruct (parse_lines false post st_bad) as [s1 | e1],
             (parse_lines false post st) as [s2 | e2]; cbn in *;
      try contradiction; [| exact Hr].
    destruct Hr as (Hsaved & Hmeta & Hloaded).
    split; [| split; [| split]].
    + destruct (Herr s1 eq_refl) as [more Hmore].
      assert (Hin : In (cannot_decode pvname) (err s1)).
      { rewrite Hmore. rewrite !in_app_iff. left. right. left. reflexivity. }
      destruct (meta_loaded s1); [exact Hin | right; exact Hin].
    + intros Hpost. rewrite (Hoth s1 Hpost eq_refl). apply lookup_insert_eq.
    + exact Hsaved.
    + exact Hmeta.
  - intros r Hno. unfold SaveFile.parse_file_lines.
    destruct (parse_lines metadata_only lines initial) as [st |] eqn:E; cbn [bind];
      [| discriminate].
    intros [= <-]. unfold SaveFile.result_of. cbn [snd].
    rewrite (parse_lines_no_meta metadata_only lines initial st eq_refl Hno E).
    eexists. reflexivity.
Qed.

End SaveFileProps.

Section SaveFileExamples.

Lemma save_file_partial_failure_witness :
  SaveFile.parse_file_lines ex_json_loads ex_asarray ["#{}"; "foo,1.5"] false
  = Ret ({["foo" := PvJson (JFloat one_and_a_half)]}, JObject [], []) /\
  SaveFile.parse_from_save_file ex_json_loads ex_asarray
    (fun _ => Some ex_ragged_lines) "f.snap" false
  = Raise (ValueError
             ("setting an array element with a sequence. The requested array has an "
              +:+ "inhomogeneous shape after 1 dimensions. The detected shape was "
              +:+ "(2,) + inhomogeneous part.")) /\
  exists r r',
    SaveFile.parse_file_lines ex_json_loads ex_asarray ex_save_lines false = Ret r /\
    SaveFile.parse_file_lines ex_json_loads ex_asarray
      ["#{}"; "foo,1.5"; "baz,[1,2,3]"] false = Ret r' /\
    In (SaveFile.cannot_decode "bar") (snd r) /\
    fst (fst r) !! "bar" = Some PvNone /\
    fst (fst r) !! "foo" = fst (fst r') !! "foo".
Proof.
  split; [reflexivity |].
  destruct (save_file_partial_failure ex_json_loads ex_asarray
              (fun _ => Some ex_ragged_lines) "f.snap"
              [] ["#{}"; "foo,1.5"] ["baz,[1,2,3]"] "bar,[1,[2,3]]" "bar" "[1,[2,3]]"
              false eq_refl eq_refl) as (Hbug & _ & _).
  split.
  - eapply Hbug; [reflexivity | reflexivity |].
    right. eexists. split; reflexivity.
  - destruct (save_file_partial_failure ex_json_loads ex_asarray
                (fun _ => None) "f.snap"
                [] ["#{}"; "foo,1.5"] ["baz,[1,2,3]"] "bar,{bad" "bar" "{bad"
                false eq_refl eq_refl) as (_ & Hok & _).
    specialize (Hok _ eq_refl).
    change (["#{}"; "foo,1.5"] ++ "bar,{bad" :: ["baz,[1,2,3]"]) with ex_save_lines in Hok.
    change (["#{}"; "foo,1.5"] ++ ["baz,[1,2,3]"])
      with ["#{}"; "foo,1.5"; "baz,[1,2,3]"] in Hok.
    destruct (SaveFile.parse_file_lines ex_json_loads ex_asarray ex_save_lines false)
      as [r | e] eqn:E1; [| vm_compute in E1; discriminate E1].
    destruct (SaveFile.parse_file_lines ex_json_loads ex_asarray
                ["#{}"; "foo,1.5"; "baz,[1,2,3]"] false)
      as [r' | e'] eqn:E2; [| vm_compute in E2; discriminate E2].
    destruct Hok as (Herr & Hnone & Hother & _).
    exists r, r'. split; [reflexivity |]. split; [reflexivity |].
    split; [exact Herr |].
    split; [apply Hnone; repeat constructor; vm_compute; discriminate |].
    apply Hother. discriminate.
Defined.

End SaveFileExamples.

(* ===================================================================== *)
(** * Part III: further properties of the code                           *)
(* ===================================================================== *)

Section RegistryProps.
Import BackgroundWorkers.

Lemma existsb_eqb_In (w : worker) (ws : list worker) :
  existsb (Nat.eqb w) ws = true <-> In w ws.
Proof.
  rewrite existsb_exists. split.
  - intros (x & Hx & E). apply Nat.eqb_eq in E. subst. exact Hx.
  - intros H. exists w. split; [exact H | apply Nat.eqb_refl].
Qed.

(** X1: [register] adds a worker at most once: afterwards the worker is
    in the list, the other members are the ones that were there, the
    counter is untouched, registering again changes nothing, and a list
    without duplicates stays without duplicates. *)
Theorem register_once (w : worker) (s : t) :
  (forall x, In x (_workers (register w s)) <-> x = w \/ In x (_workers s)) /\
  _count (register w s) = _count s /\
  register w (register w s) = register w s /\
  (List.NoDup (_workers s) -> List.NoDup (_workers (register w s))).
Proof.
  unfold register.
  destruct (existsb (Nat.eqb w) (_workers s)) eqn:E.
  - apply existsb_eqb_In in E. repeat split.
    + intros H. right. exact H.
    + intros [-> | H]; assumption.
    + rewrite (proj2 (existsb_eqb_In w (_workers s)) E). reflexivity.
    + intros H. exact H.
  - assert (Hn : ~ In w (_workers s)).
    { intros H. apply existsb_eqb_In in H. congruence. }
    simpl. repeat split.
    + rewrite in_app_iff. simpl. intuition.
    + rewrite in_app_iff. simpl. intuition.
    + assert (E' : existsb (Nat.eqb w) (_workers s ++ [w]) = true).
      { apply existsb_eqb_In. rewrite in_app_iff. right. left. reflexivity. }
      rewrite E'. reflexivity.
    + intros H. apply List.NoDup_app; [exact H | repeat constructor; intros [] |].
      intros a Ha [<- | []]. exact (Hn Ha).
Qed.

Lemma register_once_witness :
  List.NoDup (_workers (with_workers [4%nat; 5%nat])) /\
  List.NoDup (_workers (register 6%nat (with_workers [4%nat; 5%nat]))).
Proof.
  assert (H : List.NoDup (_workers (with_workers [4%nat; 5%nat]))).
  { simpl. repeat constructor; simpl; intuition discriminate. }
  split; [exact H |].
  apply (register_once 6%nat (with_workers [4%nat; 5%nat])). exact H.
Defined.

Lemma remove_first_spec (w : worker) (ws : list worker) :
  match remove_first w ws with
  | Some rest => exists l1 l2, ws = l1 ++ w :: l2 /\ rest = l1 ++ l2 /\ ~ In w l1
  | None => ~ In w ws
  end.
Proof.
  induction ws as [| x ws IH]; simpl; [intros [] |].
  destruct (Nat.eqb_spec x w) as [-> | Hne].
  - exists [], ws. simpl. intuition.
  - destruct (remove_first w ws) as [rest |]; simpl.
    + destruct IH as (l1 & l2 & -> & -> & Hn).
      exists (x :: l1), l2. simpl. intuition.
    + intros [E | H]; [exact (Hne E) | exact (IH H)].
Qed.

Lemma remove_first_app (w : worker) (ws : list worker) :
  ~ In w ws -> remove_first w (ws ++ [w]) = Some ws.
Proof.
  induction ws as [| x ws IH]; simpl; intros H.
  - rewrite Nat.eqb_refl. reflexivity.
  - destruct (Nat.eqb_spec x w) as [-> | Hne]; [exfalso; apply H; left; reflexivity |].
    rewrite IH by (intros Hin; apply H; right; exact Hin). reflexivity.
Qed.

(** X2: [unregister] raises [ValueError] exactly for a worker that is not
    registered; otherwise it removes the first occurrence of the worker
    and nothing else, and it undoes the registration of a new worker. *)
Theorem unregister_removes_first (w : worker) (s : t) :
  (~ In w (_workers s) <-> exists msg, unregister w s = Raise (ValueError msg)) /\
  (In w (_workers s) ->
   exists l1 l2,
     _workers s = l1 ++ w :: l2 /\ ~ In w l1 /\
     unregister w s = Ret {| _workers := l1 ++ l2; _count := _count s |}) /\
  (~ In w (_workers s) -> unregister w (register w s) = Ret s).
Proof.
  unfold unregister. pose proof (remove_first_spec w (_workers s)) as H.
  split; [| split].
  - destruct (remove_first w (_workers s)) as [rest |].
    + destruct H as (l1 & l2 & E & _ & _). split.
      * intros Hn. exfalso. apply Hn. rewrite E, in_app_iff. right. left. reflexivity.
      * intros [msg Hm]. discriminate Hm.
    + split; [intros _; eexists; reflexivity | intros _; exact H].
  - intros Hin. destruct (remove_first w (_workers s)) as [rest |]; [| contradiction].
    destruct H as (l1 & l2 & E & -> & Hn). exists l1, l2. auto.
  - intros Hn. unfold register.
    destruct (existsb (Nat.eqb w) (_workers s)) eqn:E;
      [apply existsb_eqb_In in E; contradiction |].
    simpl. rewrite (remove_first_app w (_workers s) Hn). destruct s; reflexivity.
Qed.

Lemma unregister_removes_first_witness :
  In 5%nat (_workers (with_workers [4%nat; 5%nat; 5%nat])) /\
  unregister 5%nat (with_workers [4%nat; 5%nat; 5%nat]) = Ret (with_workers [4%nat; 5%nat]) /\
  ~ In 6%nat (_workers (with_workers [4%nat])) /\
  unregister 6%nat (register 6%nat (with_workers [4%nat])) = Ret (with_workers [4%nat]).
Proof.
  destruct (unregister_removes_first 6%nat (with_workers [4%nat])) as (_ & _ & H).
  assert (Hn : ~ In 6%nat (_workers (with_workers [4%nat])))
    by (simpl; intuition discriminate).
  split; [right; left; reflexivity |].
  split; [reflexivity |].
  split; [exact Hn | exact (H Hn)].
Defined.

Lemma run_app (a b : list op) : forall s,
  run (a ++ b) s
  = (fst (run b (fst (run a s))), snd (run a s) ++ snd (run b (fst (run a s)))).
Proof.
  induction a as [| o a IH]; intros s; simpl.
  - destruct (run b s); reflexivity.
  - destruct (step o s) as [s1 c1]. rewrite IH.
    destruct (run a s1) as [s2 c2]; simpl.
    destruct (run b s2) as [s3 c3]; simpl. rewrite app_assoc. reflexivity.
Qed.

Lemma run_suspends (ws : list worker) (n : nat) : forall c,
  (0 < c)%Z ->
  run (repeat Suspend n) {| _workers := ws; _count := c |}
  = ({| _workers := ws; _count := (c + Z.of_nat n)%Z |}, []).
Proof.
  induction n as [| n IH]; intros c Hc.
  - simpl. rewrite Z.add_0_r. reflexivity.
  - cbn [repeat run step]. unfold suspend. cbn [_count _workers].
    destruct (Z.eqb_spec c 0) as [E | _]; [lia |].
    rewrite IH by lia. simpl. do 2 f_equal. lia.
Qed.

Lemma run_resumes (ws : list worker) (n : nat) :
  run (repeat Resume (S n)) {| _workers := ws; _count := Z.of_nat (S n) |}
  = ({| _workers := ws; _count := 0 |}, List.map WResume ws).
Proof.
  induction n as [| n IH].
  - simpl. rewrite app_nil_r. reflexivity.
  - change (repeat Resume (S (S n))) with (Resume :: repeat Resume (S n)).
    cbn [run step]. unfold resume. cbn [_count _workers].
    destruct (Z.ltb_spec 0 (Z.of_nat (S (S n)))) as [_ | H]; [| lia].
    replace (Z.of_nat (S (S n)) - 1)%Z with (Z.of_nat (S n)) by lia.
    destruct (Z.eqb_spec (Z.of_nat (S n)) 0) as [E | _]; [lia |].
    rewrite IH. reflexivity.
Qed.

Lemma run_resumes_idle (ws : list worker) (n : nat) :
  run (repeat Resume n) (with_workers ws) = (with_workers ws, []).
Proof.
  unfold with_workers. induction n as [| n IH]; [reflexivity |].
  cbn [repeat run step]. unfold resume. cbn [_count].
  change (0 <? 0)%Z with false. cbv iota. rewrite IH. reflexivity.
Qed.

(** X3: requests for suspension nest: after [n > 0] calls of [suspend()]
    followed by [n] calls of [resume()] the registry is back where it
    started, and each worker was suspended once and resumed once, in the
    order of registration.  Calls of [resume()] on an idle registry do
    nothing. *)
Theorem nested_suspend_resume (ws : list worker) (n : nat) :
  (0 < n ->
   run (repeat Suspend n ++ repeat Resume n) (with_workers ws)
   = (with_workers ws, List.map WSuspend ws ++ List.map WResume ws)) /\
  run (repeat Resume n) (with_workers ws) = (with_workers ws, []).
Proof.
  split; [| apply run_resumes_idle].
  intros Hn. destruct n as [| n]; [lia |].
  rewrite run_app.
  assert (E : run (repeat Suspend (S n)) (with_workers ws)
              = ({| _workers := ws; _count := Z.of_nat (S n) |}, List.map WSuspend ws)).
  { change (repeat Suspend (S n)) with (Suspend :: repeat Suspend n).
    cbn [run step]. unfold suspend, with_workers. cbn [_count _workers].
    change (0 =? 0)%Z with true. change (0 + 1)%Z with 1%Z. cbv iota.
    rewrite (run_suspends ws n 1) by lia.
    rewrite app_nil_r. do 2 f_equal. lia. }
  rewrite E. cbn [fst snd]. rewrite run_resumes. reflexivity.
Qed.

Lemma nested_suspend_resume_witness :
  run (repeat Suspend 3 ++ repeat Resume 3) (with_workers [7%nat; 9%nat])
  = (with_workers [7%nat; 9%nat],
     [WSuspend 7%nat; WSuspend 9%nat; WResume 7%nat; WResume 9%nat]).
Proof.
  apply (nested_suspend_resume [7%nat; 9%nat] 3). lia.
Defined.

End RegistryProps.

Section CompareAlgebra.

Lemma compare_operands (v1 v2 : pyvalue) (a : bool) (tol : float64.t) :
  compare v1 v2 a tol = compare (operand a v1) (operand a v2) false tol.
Proof. destruct a; reflexivity. Qed.

Lemma operand_regular (a : bool) (v : pyvalue) :
  regular v = true -> regular (operand a v) = true.
Proof.
  intros H. destruct a; [| exact H].
  destruct v as [| [[n | f] | s] | [xs | xs | xs]]; cbn in *;
    rewrite ?H; try reflexivity; destruct xs; cbn in *; auto.
Qed.

Lemma within_tol_mono (t t' : float64.t) (xy : float64.t * float64.t) :
  float64.leb t t' = true ->
  numpy.within_tol t float64.zero xy = true ->
  numpy.within_tol t' float64.zero xy = true.
Proof.
  destruct xy as [x y]. intros Hle.
  destruct (float64.isfinite y) eqn:Hy.
  - rewrite !(within_tol_finite _ x y Hy). intros H. exact (leb_trans _ _ _ H Hle).
  - rewrite (within_tol_not_finite t x y Hy). discriminate.
Qed.

Lemma isclose1_mono (t t' : float64.t) (xy : float64.t * float64.t) :
  float64.leb t t' = true ->
  numpy.isclose1 t float64.zero xy = true ->
  numpy.isclose1 t' float64.zero xy = true.
Proof.
  intros Hle. unfold numpy.isclose1. rewrite !orb_true_iff, !andb_true_iff.
  intros [[H1 H2] | H]; [left; split; [exact (within_tol_mono t t' xy Hle H1) | exact H2]
                        | right; exact H].
Qed.

Lemma combine_swap {A B : Type} (xs : list A) : forall (ys : list B),
  List.combine ys xs = List.map swap_pair (List.combine xs ys).
Proof.
  induction xs as [| x xs IH]; intros [| y ys]; simpl; try reflexivity.
  rewrite IH. reflexivity.
Qed.

Lemma broadcast_sym {A B : Type} (a : numpy.shaped A) (b : numpy.shaped B) :
  numpy.broadcast b a = option_map (List.map swap_pair) (numpy.broadcast a b).
Proof.
  destruct a as [x | xs], b as [y | ys]; simpl; try reflexivity;
    try (rewrite List.map_map; reflexivity).
  rewrite Nat.eqb_sym.
  destruct (List.length xs =? List.length ys)%nat eqn:E; simpl.
  - rewrite combine_swap. reflexivity.
  - destruct xs as [| x [| x2 xs]], ys as [| y [| y2 ys]]; simpl in *;
      try discriminate; try reflexivity; rewrite List.map_map; reflexivity.
Qed.

Lemma forallb_swap {A B : Type} (f : A * B -> bool) (g : B * A -> bool)
    (l : list (A * B)) :
  (forall x y, g (y, x) = f (x, y)) ->
  forallb g (List.map swap_pair l) = forallb f l.
Proof.
  intros H. induction l as [| [x y] l IH]; simpl; [reflexivity |].
  change (swap_pair (x, y)) with (y, x). rewrite IH, H. reflexivity.
Qed.

Lemma forallb_ext' {A : Type} (f g : A -> bool) (l : list A) :
  (forall x, f x = g x) -> forallb f l = forallb g l.
Proof.
  intros H. induction l as [| x l IH]; simpl; [reflexivity |].
  rewrite H, IH. reflexivity.
Qed.

Lemma close_sym (t x y : float64.t) : close t (y, x) = close t (x, y).
Proof.
  unfold close. cbn [fst snd].
  rewrite (andb_comm (float64.isfinite y)), (abs_sub_sym x y), (eqb_sym x y).
  reflexivity.
Qed.

(** [allclose] on regular values, for a finite tolerance that is not
    negative: the Python ints are seen as floats, and the pairs are
    tested by [close]. *)
Lemma allclose_regular (a b : pyvalue) (t : float64.t) :
  regular a = true -> regular b = true ->
  float64.isfinite t = true -> float64.leb float64.zero t = true ->
  numpy.allclose a b float64.zero t
  = match float_view b with
    | None => Raise numpy.not_numeric
    | Some y =>
        match float_view a with
        | None => Raise numpy.not_numeric
        | Some x =>
            match numpy.broadcast x y with
            | Some pairs => Ret (forallb (close t) pairs)
            | None => Raise (numpy.broadcast_error x y)
            end
        end
    end.
Proof.
  intros Ha Hb Ht H0. unfold numpy.allclose.
  assert (Hy : numpy.second_operand b = Ret (float_view b)).
  { destruct b as [| [[n | f] | s] | arr]; try reflexivity.
    cbn [numpy.second_operand float_of]. cbn in Hb.
    rewrite (float_of_int_int64 n Hb). reflexivity. }
  rewrite Hy. cbn [bind]. destruct (float_view b) as [y |]; [| reflexivity].
  destruct a as [| [[n | f] | s] | arr]; try reflexivity.
  - cbn in Ha. rewrite (float_of_int_int64 n Ha). cbn [bind float_view].
    destruct y as [y0 | ys]; cbn [numpy.broadcast].
    + rewrite (int_close t n _ y0 Ht H0 (float_of_int_int64 n Ha)).
      cbn [forallb]. rewrite andb_true_r. reflexivity.
    + f_equal. apply forallb_ext'. intros xy. apply isclose1_close; assumption.
  - cbn [numpy.first_operand float_view].
    destruct (numpy.broadcast _ y); [| reflexivity].
    f_equal. apply forallb_ext'. intros xy. apply isclose1_close; assumption.
  - cbn [numpy.first_operand float_view].
    destruct (option_map _ _) as [x |]; [| reflexivity].
    destruct (numpy.broadcast x y); [| reflexivity].
    f_equal. apply forallb_ext'. intros xy. apply isclose1_close; assumption.
Qed.

Lemma elem_eqb_sym (x y : numpy.elem) : numpy.elem_eqb (y, x) = numpy.elem_eqb (x, y).
Proof.
  destruct x as [| [[p | p] | s]], y as [| [[q | q] | t]]; simpl; try reflexivity.
  - apply Z.eqb_sym.
  - apply eqb_sym.
  - apply eqb_sym.
  - apply eqb_sym.
  - apply String.eqb_sym.
Qed.

Lemma array_equal_sym (v1 v2 : pyvalue) :
  numpy.array_equal v2 v1 = numpy.array_equal v1 v2.
Proof.
  unfold numpy.array_equal.
  destruct (numpy.as_elems v1) as [x | xs], (numpy.as_elems v2) as [y | ys];
    try reflexivity.
  - apply elem_eqb_sym.
  - rewrite Nat.eqb_sym, combine_swap. f_equal.
    apply forallb_swap. intros x y. apply elem_eqb_sym.
Qed.

(** X5: on regular values (no float is a NaN, every int is in the range
    of [int64]) and for a finite tolerance that is not negative, the
    comparison is symmetric: swapping the two values gives the same
    answer, or again an exception of the same class (the message of the
    [ValueError] names the shapes in the order of the operands). *)
Theorem compare_symmetric (v1 v2 : pyvalue) (is_array : bool) (tol : float64.t) :
  regular v1 = true -> regular v2 = true ->
  float64.isfinite tol = true -> float64.leb float64.zero tol = true ->
  agree (compare v2 v1 is_array tol) (compare v1 v2 is_array tol).
Proof.
  intros H1 H2 Ht H0.
  rewrite (compare_operands v2 v1), (compare_operands v1 v2).
  apply (operand_regular is_array) in H1, H2.
  revert H1 H2. generalize (operand is_array v1), (operand is_array v2). clear v1 v2.
  intros v1 v2 H1 H2. unfold compare.
  rewrite (orb_comm (is_None v2)), (andb_comm (is_None v2)).
  destruct (is_None v1 || is_None v2); [reflexivity |].
  rewrite (allclose_regular v2 v1 tol H2 H1 Ht H0),
          (allclose_regular v1 v2 tol H1 H2 Ht H0).
  destruct (float_view v1) as [x |], (float_view v2) as [y |];
    try (cbn; apply array_equal_sym).
  rewrite (broadcast_sym x y).
  destruct (numpy.broadcast x y) as [pairs |]; cbn; [| reflexivity].
  apply forallb_swap. intros a b. apply close_sym.
Qed.

Lemma compare_symmetric_witness :
  agree (compare (PyScalar (Num (Int 2))) (PyArray (FloatArray [one_and_a_half])) false
                 a_quarter)
        (compare (PyArray (FloatArray [one_and_a_half])) (PyScalar (Num (Int 2))) false
                 a_quarter).
Proof.
  apply (compare_symmetric (PyArray (FloatArray [one_and_a_half]))
           (PyScalar (Num (Int 2))) false a_quarter); reflexivity.
Defined.

Lemma forallb_same {A : Type} (P : A -> bool) (f : A * A -> bool) (xs : list A) :
  (forall x, P x = true -> f (x, x) = true) ->
  forallb P xs = true -> forallb f (List.combine xs xs) = true.
Proof.
  intros H. induction xs as [| x xs IH]; simpl; [reflexivity |].
  rewrite andb_true_iff. intros [H1 H2]. rewrite (H x H1), (IH H2). reflexivity.
Qed.

Lemma forallb_same_map {A B : Type} (g : A -> B) (f : B * B -> bool) (xs : list A) :
  (forall x, f (g x, g x) = true) ->
  forallb f (List.combine (List.map g xs) (List.map g xs)) = true.
Proof.
  intros H. induction xs as [| x xs IH]; simpl; [reflexivity |].
  rewrite H, IH. reflexivity.
Qed.

Lemma compare_same (v : pyvalue) (tol : float64.t) :
  regular v = true -> float64.leb float64.zero tol = true ->
  compare v v false tol = Ret true.
Proof.
  intros Hv Htol.
  unfold compare. destruct v as [| [[n | f] | s] | [xs | xs | xs]]; cbn in Hv;
    cbn [is_None orb]; try reflexivity.
  - unfold numpy.allclose. cbn [numpy.second_operand float_of].
    rewrite (float_of_int_int64 n Hv). cbn [bind].
    destruct (float_of_int_Ret n _ (float_of_int_int64 n Hv)) as [_ Hfin].
    rewrite (within_tol_finite tol _ _ Hfin), (sub_self _ Hfin), Htol, Hfin.
    reflexivity.
  - apply negb_true_iff in Hv. unfold numpy.allclose. cbn.
    rewrite (isclose1_same tol f Hv). reflexivity.
  - unfold numpy.array_equal; simpl. rewrite String.eqb_refl. reflexivity.
  - unfold numpy.allclose. cbn. rewrite Nat.eqb_refl.
    rewrite (forallb_same (fun f => negb (float64.isnan f))); [reflexivity | | exact Hv].
    intros x Hx. apply isclose1_same, negb_true_iff, Hx.
  - unfold numpy.allclose. cbn. rewrite Nat.eqb_refl.
    rewrite forallb_same_map; [reflexivity |].
    intros n. apply isclose1_same, of_Z_not_nan.
  - unfold numpy.array_equal. cbn. rewrite Nat.eqb_refl.
    rewrite forallb_same_map; [reflexivity |].
    intros s. apply String.eqb_refl.
Qed.

(** X4: a regular value (no float is a NaN, every int is in the range of
    [int64]) compares equal to itself, array or not, under every
    tolerance that is not negative. *)
Theorem compare_reflexive (v : pyvalue) (is_array : bool) (tol : float64.t) :
  regular v = true -> float64.leb float64.zero tol = true ->
  compare v v is_array tol = Ret true.
Proof.
  intros Hv Htol. rewrite compare_operands.
  apply compare_same; [apply operand_regular, Hv | exact Htol].
Qed.

Lemma compare_reflexive_witness :
  compare (PyArray (FloatArray [float64.of_Z 1; float64.inf]))
          (PyArray (FloatArray [float64.of_Z 1; float64.inf])) true float64.zero
  = Ret true.
Proof.
  apply (compare_reflexive (PyArray (FloatArray [float64.of_Z 1; float64.inf]))
           true float64.zero); reflexivity.
Defined.

Lemma forallb_mono {A : Type} (f g : A -> bool) (l : list A) :
  (forall x, f x = true -> g x = true) -> forallb f l = true -> forallb g l = true.
Proof.
  intros H. induction l as [| x l IH]; simpl; [reflexivity |].
  rewrite !andb_true_iff. intros [H1 H2]. auto.
Qed.

(** X6: a larger tolerance never turns equal into unequal. *)
Theorem compare_tolerance_monotone (v1 v2 : pyvalue) (is_array : bool)
    (t t' : float64.t) :
  float64.leb t t' = true ->
  compare v1 v2 is_array t = Ret true -> compare v1 v2 is_array t' = Ret true.
Proof.
  intros Hle.
  rewrite (compare_operands v1 v2 is_array t), (compare_operands v1 v2 is_array t').
  generalize (operand is_array v1), (operand is_array v2). clear v1 v2.
  intros v1 v2. unfold compare.
  destruct (is_None v1 || is_None v2); [intros H; exact H |].
  unfold numpy.allclose.
  destruct (numpy.second_operand v2) as [[y |] | e]; cbn [bind];
    try (intros H; exact H).
  assert (Hrest :
    match numpy.first_operand v1 with
    | Some x =>
        match numpy.broadcast x y with
        | Some pairs => Ret (forallb (numpy.isclose1 t float64.zero) pairs)
        | None => Raise (numpy.broadcast_error x y)
        end
    | None => Raise numpy.not_numeric
    end = Ret true ->
    match numpy.first_operand v1 with
    | Some x =>
        match numpy.broadcast x y with
        | Some pairs => Ret (forallb (numpy.isclose1 t' float64.zero) pairs)
        | None => Raise (numpy.broadcast_error x y)
        end
    | None => Raise numpy.not_numeric
    end = Ret true).
  { destruct (numpy.first_operand v1) as [x |]; [| intros H; exact H].
    destruct (numpy.broadcast x y) as [pairs |]; [| intros H; exact H].
    intros [= H]. f_equal.
    exact (forallb_mono _ _ pairs (fun xy => isclose1_mono t t' xy Hle) H). }
  destruct v1 as [| [[n | f] | s] | arr];
    try (destruct (numpy.first_operand _) as [x |];
         [destruct (numpy.broadcast x y) as [pairs |] |];
         cbn in *; intros H; try exact H; exact (Hrest H)).
  destruct (float_of_int n) as [x | e]; cbn [bind]; [| intros H; exact H].
  destruct y as [y0 | ys]; intros [= H]; f_equal.
  - apply orb_true_iff in H. apply orb_true_iff.
    destruct H as [H | H]; [left | right; exact H].
    apply andb_true_iff in H. apply andb_true_iff.
    split; [exact (within_tol_mono t t' _ Hle (proj1 H)) | exact (proj2 H)].
  - exact (forallb_mono _ _ _ (fun xy => isclose1_mono t t' xy Hle) H).
Qed.

Lemma compare_tolerance_monotone_witness :
  compare (PyScalar (Num (Int 1))) (PyScalar (Num (Float (float64.ldexp 5 (-2)))))
          false (float64.ldexp 1 (-1)) = Ret true.
Proof.
  apply (compare_tolerance_monotone (PyScalar (Num (Int 1)))
           (PyScalar (Num (Float (float64.ldexp 5 (-2)))))
           false a_quarter (float64.ldexp 1 (-1))); reflexivity.
Defined.

Lemma broadcast_None {A B : Type} (xs : list A) (ys : list B) :
  numpy.broadcast (numpy.Dim1 xs) (numpy.Dim1 ys) = None <->
  List.length xs <> List.length ys /\
  List.length xs <> 1%nat /\ List.length ys <> 1%nat.
Proof.
  simpl. destruct (Nat.eqb_spec (List.length xs) (List.length ys)) as [E | E].
  - split; [discriminate | intros [H _]; contradiction].
  - destruct xs as [| x [| x2 xs]], ys as [| y [| y2 ys]]; simpl in *;
      split; try discriminate; try (intros (_ & H1 & H2); congruence);
      intros _; repeat split; try discriminate; exact E.
Qed.

Lemma float_of_int_Raise (n : Z) (e : exn) :
  float_of_int n = Raise e -> exists msg, e = OverflowError msg.
Proof.
  unfold float_of_int. destruct (float64.of_Z n); try discriminate.
  intros [= <-]. eexists. reflexivity.
Qed.

Lemma length_mismatch_broadcast (v1 v2 : pyvalue) :
  length_mismatch v1 v2 <->
  exists x y, numpy.first_operand v1 = Some x /\ numpy.second_operand v2 = Ret (Some y) /\
              numpy.broadcast x y = None.
Proof.
  unfold length_mismatch. split.
  - intros (a & b & xs & ys & -> & -> & Ha & Hb & H).
    exists (numpy.Dim1 xs), (numpy.Dim1 ys). cbn. rewrite Ha, Hb.
    repeat split. apply (broadcast_None xs ys), H.
  - intros (x & y & Hx & Hy & Hb).
    destruct v1 as [| [[n | f] | s] | a]; try discriminate;
      destruct v2 as [| [[m | g] | t] | b]; try discriminate;
      cbn in Hx, Hy.
    + destruct (float_of_int m); [| discriminate].
      injection Hx as <-. injection Hy as <-. discriminate.
    + injection Hx as <-. injection Hy as <-. discriminate.
    + injection Hx as <-. destruct (numpy.as_float64 b); [| discriminate].
      injection Hy as <-. discriminate.
    + destruct (float_of_int m); [| discriminate]. injection Hy as <-.
      destruct (numpy.as_float64 a); [| discriminate]. injection Hx as <-. discriminate.
    + injection Hy as <-.
      destruct (numpy.as_float64 a); [| discriminate]. injection Hx as <-. discriminate.
    + destruct (numpy.as_float64 a) as [xs |] eqn:Ea; [| discriminate].
      destruct (numpy.as_float64 b) as [ys |] eqn:Eb; [| discriminate].
      injection Hx as <-. injection Hy as <-.
      exists a, b, xs, ys. repeat split; auto; apply (broadcast_None xs ys), Hb.
Qed.

(** X7: the comparison never raises [TypeError].  It raises [ValueError]
    exactly when the operands (normalized when [is_array]) are two
    numeric arrays whose lengths differ and are both other than 1.  The
    only other exception is [OverflowError], and it is raised only when
    one of the two values is a Python int beyond the range of the floats.
    Hence on regular values it raises exactly for the mismatch of
    lengths. *)
Theorem compare_raises_iff (v1 v2 : pyvalue) (is_array : bool) (tol : float64.t) :
  (forall e, compare v1 v2 is_array tol = Raise e ->
     (exists msg, e = ValueError msg /\
                  length_mismatch (operand is_array v1) (operand is_array v2)) \/
     (exists msg, e = OverflowError msg /\ (beyond_float v1 \/ beyond_float v2))) /\
  (length_mismatch (operand is_array v1) (operand is_array v2) ->
   exists msg, compare v1 v2 is_array tol = Raise (ValueError msg)) /\
  (regular v1 = true -> regular v2 = true ->
   (exists e, compare v1 v2 is_array tol = Raise e) <->
   length_mismatch (operand is_array v1) (operand is_array v2)).
Proof.
  assert (Hraise : forall e, compare v1 v2 is_array tol = Raise e ->
     (exists msg, e = ValueError msg /\
                  length_mismatch (operand is_array v1) (operand is_array v2)) \/
     (exists msg, e = OverflowError msg /\ (beyond_float v1 \/ beyond_float v2))).
  { intros e. rewrite compare_operands. unfold compare.
    destruct (is_None _ || is_None _); [discriminate |].
    unfold numpy.allclose.
    destruct (numpy.second_operand (operand is_array v2)) as [[y |] | e2] eqn:E2;
      cbn [bind]; [| discriminate |].
    - destruct (operand is_array v1) as [| [[n | f] | s] | a] eqn:E1;
        try discriminate.
      + destruct (float_of_int n) as [x | e1] eqn:Ex; cbn [bind]; [discriminate |].
        destruct (float_of_int_Raise n e1 Ex) as [msg ->]. intros [= <-].
        right. exists msg. split; [reflexivity |]. left.
        destruct is_array; cbn in E1.
        * destruct v1 as [| [[? | ?] | ?] | [[| ? ?] | [| ? ?] | [| ? ?]]]; discriminate.
        * exists n, msg. subst v1. auto.
      + cbn. destruct y; discriminate.
      + cbn [numpy.first_operand].
        destruct (option_map numpy.Dim1 (numpy.as_float64 a)) as [x |] eqn:Ea;
          [| discriminate].
        destruct (numpy.broadcast x y) eqn:Eb; [discriminate |].
        intros [= <-]. left. eexists. split; [reflexivity |].
        apply length_mismatch_broadcast. exists x, y. cbn. auto.
    - destruct (operand is_array v2) as [| [[m | g] | t] | b] eqn:Eo; try discriminate.
      cbn in E2. destruct (float_of_int m) as [y | e'] eqn:Ey; [discriminate |].
      injection E2 as <-. destruct (float_of_int_Raise m e' Ey) as [msg ->].
      intros H. assert (e = OverflowError msg) as ->.
      { destruct (operand is_array v1) as [| [[? | ?] | ?] | ?];
          cbn in H; congruence. }
      right. exists msg. split; [reflexivity |]. right.
      destruct is_array; cbn in Eo.
      + destruct v2 as [| [[? | ?] | ?] | [[| ? ?] | [| ? ?] | [| ? ?]]]; discriminate.
      + exists m, msg. subst v2. auto. }
  assert (Hmis : length_mismatch (operand is_array v1) (operand is_array v2) ->
                 exists msg, compare v1 v2 is_array tol = Raise (ValueError msg)).
  { intros H. rewrite compare_operands. unfold compare.
    destruct H as (a & b & xs & ys & -> & -> & Ha & Hb & H).
    cbn [is_None orb]. unfold numpy.allclose. cbn. rewrite Ha, Hb. cbn.
    apply (broadcast_None xs ys) in H. cbn in H. rewrite H.
    eexists. reflexivity. }
  split; [exact Hraise |]. split; [exact Hmis |].
  intros H1 H2. split.
  - intros [e He]. destruct (Hraise e He) as [(msg & _ & H) | (msg & _ & [H | H])];
      [exact H | |]; exfalso; destruct H as (n & m & -> & Hn); cbn in *;
      rewrite float_of_int_int64 in Hn by assumption; discriminate.
  - intros H. destruct (Hmis H) as [msg Hm]. eexists. exact Hm.
Qed.

Lemma compare_raises_iff_witness :
  (exists e, compare (PyArray (IntArray [1; 2; 3]%Z)) (PyArray (FloatArray [one_and_a_half; a_quarter]))
               true float64.zero = Raise e) /\
  ~ exists e, compare (PyArray (IntArray [1]%Z)) (PyArray (FloatArray [one_and_a_half; a_quarter]))
               true float64.zero = Raise e.
Proof.
  split.
  - apply (compare_raises_iff (PyArray (IntArray [1; 2; 3]%Z))
             (PyArray (FloatArray [one_and_a_half; a_quarter])) true float64.zero);
      try reflexivity.
    exists (IntArray [1; 2; 3]%Z), (FloatArray [one_and_a_half; a_quarter]).
    eexists _, _. repeat split; cbn; congruence.
  - intros H.
    apply (compare_raises_iff (PyArray (IntArray [1]%Z))
             (PyArray (FloatArray [one_and_a_half; a_quarter])) true float64.zero)
      in H; try reflexivity.
    destruct H as (a & b & xs & ys & [= <-] & [= <-] & [= <-] & [= <-] & _ & H & _).
    apply H. reflexivity.
Defined.

End CompareAlgebra.

Section SaveRestoreProps.

(** X8: restoring the value that an initialized, connected and writable
    entry already holds reports [equal] to the callback, writes nothing,
    reads nothing and leaves the entry as it is, provided the value is
    regular: no float of it is a NaN and every int is in the range of
    [int64]. *)
Theorem restore_cached_value_is_equal (w : world) (pv : SnapshotPv) (cb : callback) :
  connected pv = true -> write_access pv = true -> _initialized pv = true ->
  _last_value pv <> PyNone -> regular (_last_value pv) = true ->
  restore_pv w pv (_last_value pv) (Some cb)
  = (Ret tt, pv, [EvCallback cb (pvname pv) equal]).
Proof.
  intros Hc Hw Hi Hv Hr.
  destruct (restore_pv_branches w pv (_last_value pv) cb) as (_ & _ & H).
  apply (H Hc Hw Hv true pv []).
  unfold compare_to_curr. rewrite (value_initialized w pv Hi).
  rewrite compare_operands, compare_same; [reflexivity | | reflexivity].
  apply operand_regular, Hr.
Qed.

Lemma restore_cached_value_is_equal_witness :
  restore_pv fast_world waveform_pv
    (PyArray (FloatArray [float64.of_Z 1; float64.of_Z 2])) (Some 0%nat)
  = (Ret tt, waveform_pv, [EvCallback 0%nat "WF" equal]).
Proof.
  apply (restore_cached_value_is_equal fast_world waveform_pv 0%nat);
    try reflexivity. discriminate.
Defined.

(** A cached NaN is not equal to itself: restoring it writes it. *)
Example restore_cached_nan_is_written :
  restore_pv fast_world
    (set_last_value (PyScalar (Num (Float float64.nan))) waveform_pv)
    (PyScalar (Num (Float float64.nan))) (Some 0%nat)
  = (Ret tt, set_last_value (PyScalar (Num (Float float64.nan))) waveform_pv,
     [EvPut (PyScalar (Num (Float float64.nan))) (Some 0%nat) ok]).
Proof. reflexivity. Qed.

(** X9: whatever happens, [restore_pv] calls [put] at most once, and only
    with the value and callback it was given, the status [ok] as callback
    data, on a connected channel with write access and for a value that
    is not [None]; on an initialized entry it leaves the entry unchanged. *)
Theorem restore_pv_puts_at_most_once
    (w : world) (pv : SnapshotPv) (v : pyvalue) (cb : option callback) :
  (List.length (List.filter is_put (snd (restore_pv w pv v cb))) <= 1)%nat /\
  (forall v' cb' st,
     In (EvPut v' cb' st) (snd (restore_pv w pv v cb)) ->
     v' = v /\ cb' = cb /\ st = ok /\
     connected pv = true /\ write_access pv = true /\ v <> PyNone) /\
  (_initialized pv = true -> snd (fst (restore_pv w pv v cb)) = pv).
Proof.
  unfold restore_pv, compare_to_curr, value.
  destruct (connected pv) eqn:Hc, (write_access pv) eqn:Hw;
    try (destruct cb; simpl; repeat split; try lia; intros; intuition discriminate).
  destruct v as [| x | a]; simpl.
  - destruct cb; simpl; repeat split; try lia; intros; intuition discriminate.
  - destruct (_initialized pv) eqn:Hi; simpl.
    + destruct (compare _ _ _ _) as [[|] | e], cb, (PV_put_accepts w); simpl;
        repeat split; try lia; intros; intuition (try discriminate; try congruence).
    + unfold get_args, _get_complete; simpl. rewrite Hc.
      destruct (_pvget_completer pv),
        (ca_get_complete_with_metadata w) as [v0 | |]; simpl;
        try destruct (is_None v0); simpl;
        destruct (compare _ _ _ _) as [[|] | e], cb, (PV_put_accepts w); simpl;
        repeat split; try lia; intros; intuition (try discriminate; try congruence).
  - destruct (_initialized pv) eqn:Hi; simpl.
    + destruct (compare _ _ _ _) as [[|] | e], cb, (PV_put_accepts w); simpl;
        repeat split; try lia; intros; intuition (try discriminate; try congruence).
    + unfold get_args, _get_complete; simpl. rewrite Hc.
      destruct (_pvget_completer pv),
        (ca_get_complete_with_metadata w) as [v0 | |]; simpl;
        try destruct (is_None v0); simpl;
        destruct (compare _ _ _ _) as [[|] | e], cb, (PV_put_accepts w); simpl;
        repeat split; try lia; intros; intuition (try discriminate; try congruence).
Qed.

Lemma restore_pv_puts_at_most_once_witness :
  _initialized waveform_pv = true /\
  snd (fst (restore_pv fast_world waveform_pv
              (PyArray (FloatArray [float64.of_Z 1; float64.of_Z 5])) None))
  = waveform_pv.
Proof.
  split; [reflexivity |].
  apply (restore_pv_puts_at_most_once fast_world waveform_pv
           (PyArray (FloatArray [float64.of_Z 1; float64.of_Z 5])) None).
  reflexivity.
Defined.

End SaveRestoreProps.

Section SavePvProps.

Lemma save_pv_unfold (w : world) (pv : SnapshotPv) :
  connected pv = true -> read_access pv = true ->
  exists v pv1 evs saved,
    get_args w pv false false = (v, pv1, evs) /\
    is_array pv1 = is_array pv /\
    saved = (if is_array pv then
               if (numpy.size v =? 0)%nat then Saved PyNone
               else if (numpy.size v =? 1)%nat then SavedWrapped v
               else Saved v
             else Saved v) /\
    save_pv w pv
    = ((saved, if saved_is_None saved then no_value else ok), pv1, evs).
Proof.
  intros Hc Hr. unfold save_pv. rewrite Hc, Hr.
  assert (Ha : is_array (snd (fst (get_args w pv false false))) = is_array pv).
  { unfold get_args, _get_complete. rewrite Hc.
    destruct (_pvget_completer pv),
      (ca_get_complete_with_metadata w) as [v0 | |]; simpl; try reflexivity;
      destruct (is_None v0); reflexivity. }
  destruct (get_args w pv false false) as [[v pv1] evs]. simpl in Ha.
  eexists v, pv1, evs, _. split; [reflexivity |]. split; [exact Ha |].
  split; [reflexivity |]. rewrite Ha.
  destruct (saved_is_None _); reflexivity.
Qed.

(** X10: [save_pv] on a channel that is not connected, or connected
    without read access, returns [(None, access_err)] without any call to
    the channel and without touching the entry.  In every case the status
    is [access_err], [no_value] or [ok]; it is [ok] exactly when the value
    returned is not [None]. *)
Theorem save_pv_status (w : world) (pv : SnapshotPv) :
  (connected pv = false \/ read_access pv = false ->
   save_pv w pv = ((Saved PyNone, access_err), pv, [])) /\
  (snd (fst (fst (save_pv w pv))) = ok <->
   saved_is_None (fst (fst (fst (save_pv w pv)))) = false) /\
  (snd (fst (fst (save_pv w pv))) = no_value <->
   connected pv = true /\ read_access pv = true /\
   saved_is_None (fst (fst (fst (save_pv w pv)))) = true) /\
  (snd (fst (fst (save_pv w pv))) = ok \/
   snd (fst (fst (save_pv w pv))) = no_value \/
   snd (fst (fst (save_pv w pv))) = access_err).
Proof.
  split.
  - intros [H | H]; unfold save_pv; rewrite H; [reflexivity |].
    destruct (connected pv); reflexivity.
  - destruct (connected pv) eqn:Hc; [destruct (read_access pv) eqn:Hr |].
    + destruct (save_pv_unfold w pv Hc Hr) as (v & pv1 & evs & saved & _ & _ & _ & E).
      rewrite E. simpl. destruct (saved_is_None saved); simpl;
        intuition (try discriminate; auto).
    + unfold save_pv. rewrite Hc, Hr. simpl. intuition (try discriminate; auto).
    + unfold save_pv. rewrite Hc. simpl. intuition (try discriminate; auto).
Qed.

Lemma save_pv_status_witness :
  save_pv fast_world offline_pv = ((Saved PyNone, access_err), offline_pv, []).
Proof.
  apply (save_pv_status fast_world offline_pv). left. reflexivity.
Defined.

(** X11: on a connected, readable entry that is an array, with no read of
    the updater pending, [save_pv] does one [PV.get]; an empty result is
    reported as [(None, no_value)], a result of size 1 is returned wrapped
    in a one-element array with status [ok] (also when the result is
    [None], the size of which is 1), and a longer result is returned as it
    is with status [ok]. *)
Theorem save_pv_array (w : world) (pv : SnapshotPv) :
  connected pv = true -> read_access pv = true -> is_array pv = true ->
  _pvget_completer pv = false ->
  save_pv w pv
  = ((if (numpy.size (PV_get w) =? 0)%nat then (Saved PyNone, no_value)
      else if (numpy.size (PV_get w) =? 1)%nat then (SavedWrapped (PV_get w), ok)
      else (Saved (PV_get w), ok)),
     pv, [EvGet false false]).
Proof.
  intros Hc Hr Ha Hp. unfold save_pv, get_args. rewrite Hc, Hr, Hp, Ha.
  destruct (numpy.size (PV_get w)) as [| [| n]] eqn:E; simpl; try reflexivity.
  destruct (PV_get w) as [| x | [xs | xs | xs]]; simpl in *; try discriminate;
    destruct xs as [| ? [| ? ?]]; simpl in *; try discriminate; reflexivity.
Qed.

Lemma save_pv_array_witness :
  save_pv slow_world waveform_pv
  = ((SavedWrapped PyNone, ok), waveform_pv, [EvGet false false]).
Proof.
  apply (save_pv_array slow_world waveform_pv); reflexivity.
Defined.

End SavePvProps.

Section ConnCallbackProps.

Lemma max_key_ge (rest : list Z) : forall k,
  (k <= max_key k rest)%Z /\ (forall x, In x rest -> (x <= max_key k rest)%Z).
Proof.
  unfold max_key. induction rest as [| y rest IH]; intros k; simpl.
  - split; [lia | intros x []].
  - destruct (IH (Z.max k y)) as [H1 H2]. split; [lia |].
    intros x [<- | Hx]; [lia | exact (H2 x Hx)].
Qed.

Lemma conn_set_fresh (idx : Z) (cb : callback) (cbs : conn_callbacks) :
  ~ In idx (conn_keys cbs) -> conn_set idx cb cbs = cbs ++ [(idx, cb)].
Proof.
  induction cbs as [| [k c] cbs IH]; simpl; intros H; [reflexivity |].
  destruct (Z.eqb_spec k idx) as [E | _]; [exfalso; apply H; left; exact E |].
  rewrite IH by (intros Hin; apply H; right; exact Hin). reflexivity.
Qed.

Lemma add_index_fresh (cbs : conn_callbacks) (cb : callback) :
  ~ In (snd (add_conn_callback cbs cb)) (conn_keys cbs).
Proof.
  unfold add_conn_callback; simpl.
  destruct (conn_keys cbs) as [| k rest]; [intros [] |].
  destruct (max_key_ge rest k) as [H1 H2].
  intros [E | Hin]; [lia | specialize (H2 _ Hin); lia].
Qed.

Lemma conn_get_app (k : Z) (a b : conn_callbacks) :
  conn_get k (a ++ b)
  = match conn_get k a with Some c => Some c | None => conn_get k b end.
Proof.
  induction a as [| [k' c] a IH]; simpl; [reflexivity |].
  destruct (k' =? k)%Z; [reflexivity | exact IH].
Qed.

Lemma conn_get_absent (k : Z) (cbs : conn_callbacks) :
  ~ In k (conn_keys cbs) -> conn_get k cbs = None.
Proof.
  induction cbs as [| [k' c] cbs IH]; simpl; intros H; [reflexivity |].
  destruct (Z.eqb_spec k' k) as [E | _]; [exfalso; apply H; left; exact E |].
  apply IH. intros Hin. apply H. right. exact Hin.
Qed.

Lemma add_conn_callback_app (cbs : conn_callbacks) (cb : callback) :
  fst (add_conn_callback cbs cb) = cbs ++ [(snd (add_conn_callback cbs cb), cb)].
Proof.
  pose proof (add_index_fresh cbs cb) as Hf.
  unfold add_conn_callback in *. cbn [fst snd] in *.
  apply conn_set_fresh. exact Hf.
Qed.

(** X12: [add_conn_callback] returns an index that no registered callback
    has, puts the new callback behind the ones already registered, and
    leaves these as they are: the new index finds the new callback and
    every other index finds what it found before. *)
Theorem add_conn_callback_fresh (cbs : conn_callbacks) (cb : callback) :
  let idx := snd (add_conn_callback cbs cb) in
  let cbs' := fst (add_conn_callback cbs cb) in
  ~ In idx (conn_keys cbs) /\
  cbs' = cbs ++ [(idx, cb)] /\
  conn_get idx cbs' = Some cb /\
  (forall k, k <> idx -> conn_get k cbs' = conn_get k cbs).
Proof.
  intros idx cbs'. pose proof (add_index_fresh cbs cb) as Hf. fold idx in Hf.
  assert (E : cbs' = cbs ++ [(idx, cb)]) by apply add_conn_callback_app.
  split; [exact Hf |]. split; [exact E |]. rewrite E. split.
  - rewrite conn_get_app, (conn_get_absent idx cbs Hf). simpl.
    rewrite Z.eqb_refl. reflexivity.
  - intros k Hk. rewrite conn_get_app. destruct (conn_get k cbs); [reflexivity |].
    simpl. destruct (Z.eqb_spec idx k) as [E' | _]; [congruence | reflexivity].
Qed.

Lemma conn_pop_app_fresh (idx : Z) (cb : callback) (cbs : conn_callbacks) :
  ~ In idx (conn_keys cbs) -> conn_pop idx (cbs ++ [(idx, cb)]) = cbs.
Proof.
  induction cbs as [| [k c] cbs IH]; simpl; intros H.
  - rewrite Z.eqb_refl. reflexivity.
  - destruct (Z.eqb_spec k idx) as [E | _]; [exfalso; apply H; left; exact E |].
    rewrite IH by (intros Hin; apply H; right; exact Hin). reflexivity.
Qed.

Lemma existsb_Zeqb_In (idx : Z) (ks : list Z) :
  existsb (Z.eqb idx) ks = true <-> In idx ks.
Proof.
  rewrite existsb_exists. split.
  - intros (x & Hx & E). apply Z.eqb_eq in E. subst. exact Hx.
  - intros H. exists idx. split; [exact H | apply Z.eqb_refl].
Qed.

Lemma conn_get_pop_ne (idx k : Z) (cbs : conn_callbacks) :
  k <> idx -> conn_get k (conn_pop idx cbs) = conn_get k cbs.
Proof.
  intros Hk. induction cbs as [| [k' c] cbs IH]; simpl; [reflexivity |].
  destruct (Z.eqb_spec k' idx) as [E | E]; simpl.
  - destruct (Z.eqb_spec k' k) as [E' | _]; [congruence | reflexivity].
  - rewrite IH. reflexivity.
Qed.

(** X13: [remove_conn_callback] with the index that [add_conn_callback]
    just returned gives back the dictionary as it was; with an index that
    is not registered it changes nothing; and it never changes what any
    other index finds. *)
Theorem remove_conn_callback_undoes_add (cbs : conn_callbacks) (cb : callback) (idx : Z) :
  remove_conn_callback (fst (add_conn_callback cbs cb)) (snd (add_conn_callback cbs cb))
  = cbs /\
  (~ In idx (conn_keys cbs) -> remove_conn_callback cbs idx = cbs) /\
  (forall k, k <> idx -> conn_get k (remove_conn_callback cbs idx) = conn_get k cbs).
Proof.
  split; [| split].
  - pose proof (add_index_fresh cbs cb) as Hf.
    unfold add_conn_callback in *. cbn [fst snd] in *.
    rewrite (conn_set_fresh _ cb cbs Hf). unfold remove_conn_callback.
    assert (E : existsb (Z.eqb (match conn_keys cbs with
                                | [] => 0%Z
                                | k :: rest => (1 + max_key k rest)%Z
                                end)) (conn_keys (cbs ++ [(match conn_keys cbs with
                                | [] => 0%Z
                                | k :: rest => (1 + max_key k rest)%Z
                                end, cb)])) = true).
    { apply existsb_Zeqb_In. unfold conn_keys. rewrite List.map_app, in_app_iff.
      right. left. reflexivity. }
    rewrite E. apply conn_pop_app_fresh, Hf.
  - intros Hn. unfold remove_conn_callback.
    destruct (existsb (Z.eqb idx) (conn_keys cbs)) eqn:E; [| reflexivity].
    apply existsb_Zeqb_In in E. contradiction.
  - intros k Hk. unfold remove_conn_callback.
    destruct (existsb (Z.eqb idx) (conn_keys cbs)); [| reflexivity].
    apply conn_get_pop_ne, Hk.
Qed.

Lemma remove_conn_callback_undoes_add_witness :
  ~ In 5%Z (conn_keys [(0%Z, 10%nat); (1%Z, 11%nat)]) /\
  remove_conn_callback [(0%Z, 10%nat); (1%Z, 11%nat)] 5 = [(0%Z, 10%nat); (1%Z, 11%nat)].
Proof.
  assert (H : ~ In 5%Z (conn_keys [(0%Z, 10%nat); (1%Z, 11%nat)]))
    by (simpl; intuition discriminate).
  split; [exact H |].
  apply (remove_conn_callback_undoes_add [(0%Z, 10%nat); (1%Z, 11%nat)] 0%nat 5). exact H.
Defined.

(** The dictionary after registering the callbacks of a list, one after
    the other, on a new PV. *)
Lemma register_all_snoc (l : list callback) (cb : callback) :
  fold_left (fun d c => fst (add_conn_callback d c)) (l ++ [cb]) []
  = fst (add_conn_callback
           (fold_left (fun d c => fst (add_conn_callback d c)) l []) cb).
Proof. rewrite fold_left_app. reflexivity. Qed.

Lemma max_key_seq (n : nat) :
  max_key 0 (List.map Z.of_nat (seq 1 n)) = Z.of_nat n.
Proof.
  unfold max_key. induction n as [| n IH]; [reflexivity |].
  rewrite seq_S, List.map_app, fold_left_app, IH. simpl. lia.
Qed.

(** X14: callbacks registered one after the other on a new PV get the
    indices 0, 1, 2, ... in that order, and a connection event calls each
    of them once, in the order of registration, with the connection
    state; the PV counts as an array exactly when the channel has more
    than one element. *)
Theorem conn_callbacks_in_registration_order
    (l : list callback) (element_count : Z) (conn : bool) :
  let cbs := fold_left (fun d c => fst (add_conn_callback d c)) l [] in
  conn_keys cbs = List.map Z.of_nat (seq 0 (List.length l)) /\
  snd (_internal_cnct_callback cbs element_count conn)
  = List.map (fun c => (c, conn)) l /\
  (fst (_internal_cnct_callback cbs element_count conn) = true
   <-> (1 < element_count)%Z).
Proof.
  intros cbs. subst cbs.
  assert (H : let cbs := fold_left (fun d c => fst (add_conn_callback d c)) l [] in
              conn_keys cbs = List.map Z.of_nat (seq 0 (List.length l)) /\
              List.map snd cbs = l).
  { induction l as [| cb l IH] using rev_ind; [split; reflexivity |].
    cbv zeta in *. rewrite register_all_snoc.
    destruct IH as [IHk IHv].
    set (cbs := fold_left (fun d c => fst (add_conn_callback d c)) l []) in *.
    rewrite (add_conn_callback_app cbs cb).
    unfold conn_keys in *. rewrite !List.map_app, IHk, IHv. simpl.
    rewrite List.length_app, Nat.add_1_r, seq_S, List.map_app. simpl.
    split; [| reflexivity]. do 2 f_equal.
    unfold add_conn_callback. cbn [snd]. unfold conn_keys. rewrite IHk.
    destruct (List.length l) as [| n]; [reflexivity |].
    change (seq 0 (S n)) with (0%nat :: seq 1 n).
    cbn [List.map]. change (Z.of_nat 0) with 0%Z. rewrite max_key_seq. lia. }
  cbv zeta in H. destruct H as [Hk Hv].
  split; [exact Hk |]. split.
  - unfold _internal_cnct_callback. cbn [snd].
    rewrite <- Hv at 2. rewrite List.map_map. reflexivity.
  - unfold _internal_cnct_callback. cbn [fst]. apply Z.ltb_lt.
Qed.

End ConnCallbackProps.

Section ProcessRecordProps.

Lemma split_once_spec (c : ascii) (s : string) :
  has_char c (fst (pystr.split_once c s)) = false /\
  match snd (pystr.split_once c s) with
  | Some rest => s = fst (pystr.split_once c s) +:+ String c rest
  | None => s = fst (pystr.split_once c s)
  end.
Proof.
  induction s as [| a s IH]; simpl; [split; reflexivity |].
  destruct (Ascii.eqb_spec a c) as [-> | Hne]; simpl; [split; reflexivity |].
  destruct (pystr.split_once c s) as [h t]; simpl in *.
  destruct IH as [IH1 IH2]. split.
  - rewrite IH1. destruct (Ascii.eqb_spec a c); [contradiction | reflexivity].
  - destruct t; rewrite IH2 at 1; reflexivity.
Qed.

Lemma split_once_head (c : ascii) (h rest : string) :
  has_char c h = false ->
  pystr.split_once c (h +:+ String c rest) = (h, Some rest).
Proof.
  induction h as [| a h IH]; intros H.
  - change ("" +:+ String c rest) with (String c rest). simpl.
    rewrite Ascii.eqb_refl. reflexivity.
  - simpl in H. apply orb_false_iff in H. destruct H as [H1 H2].
    change (String a h +:+ String c rest) with (String a (h +:+ String c rest)).
    simpl. rewrite H1, (IH H2). reflexivity.
Qed.

Lemma split_once_none (c : ascii) (h : string) :
  has_char c h = false -> pystr.split_once c h = (h, None).
Proof.
  induction h as [| a h IH]; simpl; intros H; [reflexivity |].
  apply orb_false_iff in H. destruct H as [H1 H2].
  rewrite H1, (IH H2). reflexivity.
Qed.

(** X15: [process_record] writes 1 to the [PROC] field of the record of
    the PV: the record is the part of the name before the first dot, so a
    record name and any of its fields lead to the same write, and the
    record part never contains a dot. *)
Theorem process_record_target (record field pvname : string) :
  (has_char "." record = false ->
   process_record record = (record +:+ ".PROC", 1%Z) /\
   process_record (record +:+ String "." field) = (record +:+ ".PROC", 1%Z)) /\
  exists r, process_record pvname = (r +:+ ".PROC", 1%Z) /\ has_char "." r = false.
Proof.
  split.
  - intros H. unfold process_record.
    rewrite (split_once_none "." record H), (split_once_head "." record field H).
    split; reflexivity.
  - exists (fst (pystr.split_once "." pvname)). split; [reflexivity |].
    apply split_once_spec.
Qed.

Lemma process_record_target_witness :
  process_record "DEV:X.VAL" = ("DEV:X.PROC", 1%Z).
Proof.
  apply (process_record_target "DEV:X" "VAL" ""). reflexivity.
Defined.

End ProcessRecordProps.

Section SubstitutionProps.

Lemma prefix_cons (a b : ascii) (o s : string) :
  String.prefix (String a o) (String b s)
  = if ascii_dec a b then String.prefix o s else false.
Proof. reflexivity. Qed.

Lemma prefix_dollar_false (o s : string) (a : ascii) :
  Ascii.eqb a "$" = false -> String.prefix (String "$" o) (String a s) = false.
Proof.
  intros H. rewrite prefix_cons. destruct (ascii_dec "$" a) as [E | _]; [| reflexivity].
  subst a. discriminate H.
Qed.

Lemma prefix_app (o rest : string) : String.prefix o (o +:+ rest) = true.
Proof.
  induction o as [| a o IH]; [destruct rest; reflexivity |].
  rewrite append_cons, prefix_cons.
  destruct (ascii_dec a a) as [_ | N]; [exact IH | contradiction].
Qed.

Lemma replace_from_skip (old new p rest : string) :
  pystr.replace_from old new (String.length p) (p +:+ rest)
  = pystr.replace_from old new 0 rest.
Proof.
  induction p as [| a p IH]; [reflexivity |].
  rewrite append_cons. simpl. exact IH.
Qed.

Lemma replace_keeps_plain (o new pre s : string) :
  has_char "$" pre = false ->
  pystr.replace (String "$" o) new (pre +:+ s)
  = pre +:+ pystr.replace (String "$" o) new s.
Proof.
  unfold pystr.replace. induction pre as [| a pre IH]; intros H; [reflexivity |].
  simpl in H. apply orb_false_iff in H. destruct H as [H1 H2].
  rewrite !append_cons. cbn [pystr.replace_from].
  rewrite (prefix_dollar_false o (pre +:+ s) a H1), (IH H2). reflexivity.
Qed.

Lemma replace_head (o new rest : string) :
  pystr.replace (String "$" o) new (String "$" o +:+ rest)
  = new +:+ pystr.replace (String "$" o) new rest.
Proof.
  unfold pystr.replace. rewrite append_cons. cbn [pystr.replace_from].
  rewrite <- append_cons, prefix_app.
  cbn [String.length Nat.sub]. rewrite Nat.sub_0_r, replace_from_skip. reflexivity.
Qed.

(** X16: text without a dollar sign is left alone by macro substitution,
    whatever the macros are. *)
Theorem macros_substitution_plain (txt : string) (macros : dict) :
  has_char "$" txt = false -> macros_substitution txt macros = txt.
Proof.
  intros H. unfold macros_substitution.
  induction macros as [| [k v] macros IH]; [reflexivity |].
  cbn [fold_left fst snd].
  change ("$(" +:+ k +:+ ")") with (String "$" ("(" +:+ k +:+ ")")).
  pose proof (replace_keeps_plain ("(" +:+ k +:+ ")") v txt "" H) as E.
  rewrite append_nil_r in E. rewrite E.
  change (pystr.replace (String "$" ("(" +:+ k +:+ ")")) v "") with "".
  rewrite append_nil_r. exact IH.
Qed.

Lemma macros_substitution_plain_witness :
  macros_substitution "DEV:X.VAL" [("SYS", "A"); ("D", "B")] = "DEV:X.VAL".
Proof.
  apply (macros_substitution_plain "DEV:X.VAL" [("SYS", "A"); ("D", "B")]).
  reflexivity.
Defined.

(** X17: with one macro [key], a text [pre $(key) post] whose part [pre]
    has no dollar sign becomes [pre], the value, and the substitution of
    [post]: the first occurrence is replaced as a whole and the scan goes
    on behind it. *)
Theorem macros_substitution_occurrence (pre key value post : string) :
  has_char "$" pre = false ->
  macros_substitution (pre +:+ "$(" +:+ key +:+ ")" +:+ post) [(key, value)]
  = pre +:+ value +:+ macros_substitution post [(key, value)].
Proof.
  intros H. unfold macros_substitution. cbn [fold_left fst snd].
  change ("$(" +:+ key +:+ ")") with (String "$" ("(" +:+ key +:+ ")")).
  change ("$(" +:+ key +:+ ")" +:+ post)
    with (String "$" ("(" +:+ (key +:+ (")" +:+ post)))).
  rewrite (replace_keeps_plain _ value pre _ H). f_equal.
  assert (E : String "$" ("(" +:+ (key +:+ (")" +:+ post)))
              = String "$" ("(" +:+ key +:+ ")") +:+ post).
  { change (String "$" (String "(" (key +:+ String ")" post))
            = String "$" (String "(" ((key +:+ ")") +:+ post))).
    rewrite append_assoc. reflexivity. }
  rewrite E. apply replace_head.
Qed.

Lemma macros_substitution_occurrence_witness :
  macros_substitution "pv:$(X):rb" [("X", "12")] = "pv:12:rb".
Proof.
  apply (macros_substitution_occurrence "pv:" "X" "12" ":rb"). reflexivity.
Defined.

End SubstitutionProps.

Section ParseMacrosProps.

Lemma dict_set_In (k v : string) (d : dict) (kv : string * string) :
  In kv (dict_set k v d) -> kv = (k, v) \/ In kv d.
Proof.
  induction d as [| [k' v'] d IH]; simpl.
  - intros [<- | []]. left. reflexivity.
  - destruct (String.eqb k k'); simpl; intros [<- | H]; auto.
    destruct (IH H); auto.
Qed.

Lemma dict_set_keys (k v : string) (d : dict) (x : string) :
  In x (List.map fst (dict_set k v d)) <-> x = k \/ In x (List.map fst d).
Proof.
  induction d as [| [k' v'] d IH]; simpl; [intuition |].
  destruct (String.eqb_spec k k') as [<- | Hne]; simpl; [intuition |].
  rewrite IH. intuition.
Qed.

Lemma dict_set_NoDup (k v : string) (d : dict) :
  List.NoDup (List.map fst d) -> List.NoDup (List.map fst (dict_set k v d)).
Proof.
  induction d as [| [k' v'] d IH]; simpl; intros H.
  - repeat constructor. intros [].
  - inversion H as [| ? ? Hn Hd]; subst.
    destruct (String.eqb_spec k k') as [<- | Hne]; simpl.
    + constructor; assumption.
    + constructor; [| exact (IH Hd)].
      rewrite dict_set_keys. intros [E | Hin]; [congruence | contradiction].
Qed.

Lemma parse_macros_list_spec (s : string) (l : list string) : forall acc d,
  parse_macros_list s l acc = Ret d ->
  (List.NoDup (List.map fst acc) -> List.NoDup (List.map fst d)) /\
  (forall kv, In kv d ->
     In kv acc \/
     exists m, In m l /\ pystr.split "=" (pystr.strip m) = [fst kv; snd kv]) /\
  (forall k, In k (List.map fst acc) -> In k (List.map fst d)) /\
  (forall m k v, In m l -> pystr.split "=" (pystr.strip m) = [k; v] ->
                 In k (List.map fst d)).
Proof.
  induction l as [| m l IH]; intros acc d H; simpl in H.
  - injection H as <-. repeat split; auto. intros m k v [].
  - destruct (pystr.split "=" (pystr.strip m)) as [| k [| v [| ? ?]]] eqn:E;
      try discriminate H.
    destruct (IH _ _ H) as (H1 & H2 & H3 & H4). repeat split.
    + intros Hn. apply H1, dict_set_NoDup, Hn.
    + intros kv Hkv. destruct (H2 kv Hkv) as [Hin | (m' & Hm' & Em')].
      * destruct (dict_set_In _ _ _ _ Hin) as [-> | Hacc]; [| left; exact Hacc].
        right. exists m. split; [left; reflexivity | exact E].
      * right. exists m'. split; [right; exact Hm' | exact Em'].
    + intros x Hx. apply H3. apply dict_set_keys. right. exact Hx.
    + intros m' k' v' [<- | Hm'] E'.
      * rewrite E in E'. injection E' as <- <-.
        apply H3, dict_set_keys. left. reflexivity.
      * exact (H4 m' k' v' Hm' E').
Qed.

Lemma parse_macros_list_error (s : string) (l : list string) : forall acc e,
  parse_macros_list s l acc = Raise e ->
  e = MacroError ("Following string cannot be parsed to macros: " +:+ s).
Proof.
  induction l as [| m l IH]; intros acc e H; simpl in H; [discriminate H |].
  destruct (pystr.split "=" (pystr.strip m)) as [| k [| v [| ? ?]]];
    try (injection H as <-; reflexivity).
  exact (IH _ _ H).
Qed.

(** X18: [parse_macros] fails only with a [MacroError] that quotes the
    whole string.  When it returns a dictionary, the keys are distinct,
    every binding comes from an entry [key=value] of the comma-separated
    string, and the key of every entry is bound; the empty string gives
    the empty dictionary. *)
Theorem parse_macros_result (macros_str : string) :
  parse_macros "" = Ret [] /\
  (forall e, parse_macros macros_str = Raise e ->
     e = MacroError ("Following string cannot be parsed to macros: " +:+ macros_str)) /\
  (forall d, parse_macros macros_str = Ret d ->
     List.NoDup (List.map fst d) /\
     (forall k v, In (k, v) d ->
        exists m, In m (pystr.split "," macros_str) /\
                  pystr.split "=" (pystr.strip m) = [k; v]) /\
     (macros_str <> "" ->
      forall m k v, In m (pystr.split "," macros_str) ->
                    pystr.split "=" (pystr.strip m) = [k; v] ->
                    In k (List.map fst d))).
Proof.
  split; [reflexivity |]. split.
  - intros e H. destruct macros_str as [| a s]; [discriminate H |].
    exact (parse_macros_list_error _ _ _ _ H).
  - intros d H. destruct macros_str as [| a s].
    + injection H as <-. repeat split; [constructor | intros k v [] | congruence].
    + destruct (parse_macros_list_spec _ _ _ _ H) as (H1 & H2 & _ & H4).
      repeat split.
      * apply H1. constructor.
      * intros k v Hkv. destruct (H2 (k, v) Hkv) as [[] | Hm]. exact Hm.
      * intros _. exact H4.
Qed.

Lemma parse_macros_result_witness :
  parse_macros "A=1, B=2,A=3" = Ret [("A", "3"); ("B", "2")] /\
  List.NoDup (List.map fst [("A", "3"); ("B", "2")]).
Proof.
  assert (H : parse_macros "A=1, B=2,A=3" = Ret [("A", "3"); ("B", "2")])
    by reflexivity.
  split; [exact H |].
  destruct (parse_macros_result "A=1, B=2,A=3") as (_ & _ & Hd).
  apply (Hd _ H).
Defined.

End ParseMacrosProps.

Section ReaderProps.

Variables abspath normpath dirname : string -> string.
Variable path_join : string -> string -> string.
Variable open_file : string -> option (list string).

Import ReqFile.

Local Abbreviation read_line := (ReqFile.read_line abspath normpath dirname path_join).
Local Abbreviation read_lines := (ReqFile.read_lines abspath normpath dirname path_join).
Local Abbreviation read := (ReqFile.read abspath normpath dirname path_join open_file).
Local Abbreviation _check_looping := (ReqFile._check_looping abspath normpath).
Local Abbreviation check_ancestors := (ReqFile.check_ancestors abspath normpath).
Local Abbreviation include_path := (ReqFile.include_path dirname path_join).
Local Abbreviation init := (ReqFile.SnapshotReqFile_init abspath).
Local Abbreviation chain := (chain_paths abspath normpath).

Lemma read_lines_step (rs : SnapshotReqFile -> res (list string))
    (self0 : SnapshotReqFile) (raw : string) (rest pvs : list string) :
  read_lines rs self0 (raw :: rest) pvs
  = (let! new := read_line rs (next_line self0 raw) in
     read_lines rs (next_line self0 raw) rest (pvs ++ new)).
Proof. reflexivity. Qed.

Lemma not_bang (p line : string) (a : ascii) (o : string) :
  p = String a o -> a <> "!"%char ->
  pystr.startswith p line = true -> pystr.startswith "!" line = false.
Proof.
  intros -> Ha. unfold pystr.startswith. destruct line as [| b line]; [reflexivity |].
  rewrite !prefix_cons.
  destruct (ascii_dec a b) as [<- | _]; [| discriminate].
  intros _. destruct (ascii_dec "!" a) as [E | _]; [congruence | reflexivity].
Qed.

(** X19: a line that, once stripped, is empty or starts with ["#"],
    ["data{"] or ["}"] contributes no PV and no error, whatever the macros
    are: reading goes on with the next line and the same PVs. *)
Theorem structural_lines_are_skipped
    (rs : SnapshotReqFile -> res (list string))
    (self0 : SnapshotReqFile) (raw : string) (rest pvs : list string) :
  pystr.startswith_any ["#"; "data{"; "}"] (pystr.strip raw) = true
  \/ pystr.strip raw = "" ->
  read_lines rs self0 (raw :: rest) pvs
  = read_lines rs (next_line self0 raw) rest pvs.
Proof.
  intros H. rewrite read_lines_step.
  assert (E : read_line rs (next_line self0 raw) = Ret []).
  { unfold ReqFile.read_line.
    change (_curr_line (next_line self0 raw)) with (Some (pystr.strip raw)).
    cbv beta iota. destruct H as [H | ->]; [| reflexivity].
    assert (Hb : pystr.startswith "!" (pystr.strip raw) = false).
    { unfold pystr.startswith_any in H. cbn [existsb] in H.
      rewrite orb_false_r in H. apply orb_true_iff in H.
      destruct H as [H | H]; [| apply orb_true_iff in H; destruct H as [H | H]].
      - exact (not_bang "#" _ "#" "" eq_refl ltac:(discriminate) H).
      - exact (not_bang "data{" _ "d" "ata{" eq_refl ltac:(discriminate) H).
      - exact (not_bang "}" _ "}" "" eq_refl ltac:(discriminate) H). }
    assert (Ha : pystr.startswith_any ["#"; "data{"; "}"; "!"] (pystr.strip raw) = true).
    { unfold pystr.startswith_any in *. cbn [existsb] in *.
      rewrite Hb. rewrite !orb_false_r in *. exact H. }
    rewrite Ha, Hb. reflexivity. }
  rewrite E. cbn [bind]. rewrite app_nil_r. reflexivity.
Qed.

Lemma check_ancestors_None (self : SnapshotReqFile) : forall p,
  check_ancestors self p = None <-> ~ In p (chain self).
Proof using abspath normpath.
  induction self as [f IH] using reqfile_chain_ind. intros p.
  destruct f as [path parent macros cm trace cl n].
  unfold chain_paths. cbn [ancestors ReqFile.check_ancestors _parent List.map].
  unfold ReqFile.has_path. cbn [_path].
  destruct (String.eqb_spec (normpath (abspath path)) p) as [E | E].
  - split; [discriminate | intros H; exfalso; apply H; left; exact E].
  - destruct parent as [q |].
    + rewrite (IH q eq_refl p). unfold chain_paths. split.
      * intros Hn [H | H]; [exact (E H) | exact (Hn H)].
      * intros Hn H. apply Hn. right. exact H.
    + split; [intros _ [H | []]; exact (E H) | reflexivity].
Qed.

(** X20: an include line whose target matches no node of the chain is not
    taken for a loop.  With a well-formed macro argument the target is
    read as a new node that has the including file as parent, the macros
    of the line as its only macros and no changeable macro; the PVs it
    returns are spliced in at the place of the line; an [IOError] of the
    target is raised again behind the trace of the including file, and
    any other exception passes unchanged. *)
Theorem include_without_loop
    (rs : SnapshotReqFile -> res (list string))
    (self0 : SnapshotReqFile) (raw : string) (rest pvs : list string) (macros : dict) :
  let self := next_line self0 raw in
  let line := pystr.strip raw in
  let name := fst (pystr.split_once "," (pystr.drop 1 line)) in
  let arg := snd (pystr.split_once "," (pystr.drop 1 line)) in
  let path := include_path self name in
  let sub := init path (Some self) macros [] in
  pystr.startswith "!" line = true ->
  include_macros self arg = Ret macros ->
  ~ In (normpath (abspath path)) (chain self) ->
  _check_looping self path = None /\
  (forall sub_pvs, rs sub = Ret sub_pvs ->
     read_lines rs self0 (raw :: rest) pvs = read_lines rs self rest (pvs ++ sub_pvs)) /\
  (forall msg, rs sub = Raise (IOError msg) ->
     read_lines rs self0 (raw :: rest) pvs
     = Raise (IOError (_trace self0 +:+ " [line " +:+ line +:+ ": "
                       +:+ pystr.of_nat (S (_curr_line_n self0)) +:+ "]: " +:+ msg))) /\
  (forall e, rs sub = Raise e -> (forall msg, e <> IOError msg) ->
     read_lines rs self0 (raw :: rest) pvs = Raise e).
Proof using abspath normpath dirname path_join.
  intros self line name arg path sub Hbang Hm Hno.
  assert (Hc : _check_looping self path = None).
  { unfold ReqFile._check_looping. apply check_ancestors_None. exact Hno. }
  assert (Hstep : read_line rs self
                  = match rs sub with
                    | Raise (IOError e) =>
                        Raise (IOError (_format_err self (pystr.of_option (_curr_line self))
                                                    (pystr.of_nat (_curr_line_n self)) e))
                    | r => r
                    end).
  { unfold ReqFile.read_line.
    change (_curr_line self) with (Some line). cbv beta iota.
    rewrite (startswith_bang line Hbang), Hbang. cbn [negb andb].
    fold name arg. rewrite Hm. cbn [bind]. fold path. rewrite Hc. reflexivity. }
  split; [exact Hc |]. rewrite read_lines_step. fold self. rewrite Hstep.
  split; [| split].
  - intros sub_pvs E. rewrite E. reflexivity.
  - intros msg E. rewrite E. reflexivity.
  - intros e E Hne. rewrite E. destruct e; try reflexivity.
    exfalso. exact (Hne _ eq_refl).
Qed.

(** X21: the chain of a node that [read] creates for an include has
    pairwise distinct normalized paths if the chain of the including file
    has: the loop check is what keeps the invariant.  ([abspath] must
    leave an absolute path as it is.) *)
Theorem include_keeps_chain_distinct
    (self : SnapshotReqFile) (path : string) (macros : dict) (cm : list string) :
  (forall p, abspath (abspath p) = abspath p) ->
  List.NoDup (chain self) ->
  _check_looping self path = None ->
  List.NoDup (chain (init path (Some self) macros cm)).
Proof using abspath normpath.
  intros Hidem Hnd Hc. unfold chain_paths.
  cbn [ancestors ReqFile.SnapshotReqFile_init _path _parent List.map].
  rewrite Hidem. constructor; [| exact Hnd].
  apply check_ancestors_None. exact Hc.
Qed.

Lemma invalid_macros_same (f g : SnapshotReqFile) (txt : string) :
  _macros f = _macros g -> _c_macros f = _c_macros g ->
  invalid_macros f txt = invalid_macros g txt.
Proof. intros Hm Hc. unfold invalid_macros. rewrite Hm, Hc. reflexivity. Qed.

Lemma read_lines_plain (rs : SnapshotReqFile -> res (list string))
    (self : SnapshotReqFile) (lines : list string) :
  Forall (fun raw =>
            pystr.startswith_any ["#"; "data{"; "}"; "!"] (pystr.strip raw) = false /\
            pystr.strip (pystr.strip raw) <> "" /\
            invalid_macros self (pv_line_name (_macros self) raw) = []) lines ->
  forall self' pvs,
    _macros self' = _macros self -> _c_macros self' = _c_macros self ->
    read_lines rs self' lines pvs
    = Ret (pvs ++ List.map (pv_line_name (_macros self)) lines).
Proof.
  induction 1 as [| raw lines (Hp & Hne & Hinv) _ IH]; intros self' pvs Hm Hc.
  - simpl. rewrite app_nil_r. reflexivity.
  - rewrite read_lines_step.
    assert (E : read_line rs (next_line self' raw)
                = Ret [pv_line_name (_macros self) raw]).
    { unfold ReqFile.read_line.
      change (_curr_line (next_line self' raw)) with (Some (pystr.strip raw)).
      cbv beta iota. rewrite Hp.
      destruct (String.eqb_spec (pystr.strip (pystr.strip raw)) "") as [E | _];
        [contradiction |].
      cbn [negb andb]. change (_macros (next_line self' raw)) with (_macros self').
      rewrite Hm. fold (pv_line_name (_macros self) raw).
      unfold _validate_macros_in_txt.
      rewrite (invalid_macros_same (next_line self' raw) self _ Hm Hc), Hinv.
      reflexivity. }
    rewrite E. cbn [bind]. rewrite (IH (next_line self' raw) _ Hm Hc).
    rewrite <- app_assoc. reflexivity.
Qed.

(** X22: a request file that cannot be opened makes [read] raise
    [IOError].  A file made only of PV lines whose remaining macros are
    all accepted reads to the names of its lines, one per line and in the
    order of the file. *)
Theorem read_plain_file (depth : nat) (self : SnapshotReqFile) (lines : list string) :
  (open_file (_path self) = None ->
   read (S depth) self
   = Raise (IOError ("No such file or directory: " +:+ _path self))) /\
  (open_file (_path self) = Some lines ->
   Forall (fun raw =>
             pystr.startswith_any ["#"; "data{"; "}"; "!"] (pystr.strip raw) = false /\
             pystr.strip (pystr.strip raw) <> "" /\
             invalid_macros self (pv_line_name (_macros self) raw) = []) lines ->
   read (S depth) self = Ret (List.map (pv_line_name (_macros self)) lines)).
Proof.
  split; intros Ho; cbn [ReqFile.read]; rewrite Ho; [reflexivity |].
  intros Hl. exact (read_lines_plain _ self lines Hl (rewind self) [] eq_refl eq_refl).
Qed.

End ReaderProps.

Section ReaderExamples.

Lemma structural_lines_are_skipped_witness :
  ReqFile.read_lines ex_id ex_id ex_dirname ex_join (ex_read 3)
    (ex_init "/r/A" None [] []) ["  # $(UNDEFINED) in a comment"; "pv1"] []
  = Ret ["pv1"].
Proof.
  rewrite (structural_lines_are_skipped ex_id ex_id ex_dirname ex_join (ex_read 3)
             (ex_init "/r/A" None [] []) "  # $(UNDEFINED) in a comment" ["pv1"] []).
  - reflexivity.
  - left. reflexivity.
Defined.

Lemma include_without_loop_witness :
  ReqFile.read_lines ex_id ex_id ex_dirname ex_join (ex_read 3)
    (ex_init "/r/A" None [] []) ["!B,'X=1'"; "pv0"] ["first"]
  = Ret ["first"; "pv1"; "pv0"].
Proof.
  destruct (include_without_loop ex_id ex_id ex_dirname ex_join (ex_read 3)
              (ex_init "/r/A" None [] []) "!B,'X=1'" ["pv0"] ["first"] [("X", "1")])
    as (_ & H & _).
  - reflexivity.
  - reflexivity.
  - vm_compute. intuition discriminate.
  - rewrite (H ["pv1"]); reflexivity.
Defined.

Lemma include_keeps_chain_distinct_witness :
  List.NoDup (chain_paths ex_id ex_id (ex_init "/r/M" (Some ex_L) [] [])).
Proof.
  apply (include_keeps_chain_distinct ex_id ex_id ex_L "/r/M" [] []).
  - reflexivity.
  - repeat constructor. intros [].
  - reflexivity.
Defined.

Lemma read_plain_file_witness :
  ex_open (_path (ex_init "/r/S" None [("A", "1")] [])) = Some ["pv$(A)"] /\
  ex_read 1 (ex_init "/r/S" None [("A", "1")] []) = Ret ["pv1"].
Proof.
  split; [reflexivity |].
  apply (read_plain_file ex_id ex_id ex_dirname ex_join ex_open 0
           (ex_init "/r/S" None [("A", "1")] []) ["pv$(A)"]); [reflexivity |].
  repeat constructor. vm_compute. discriminate.
Defined.

End ReaderExamples.

Section SaveFileMoreProps.

Variable json_loads : string -> res json.
Variable asarray : list json -> option exn.

Import SaveFile.

Local Abbreviation try_loads := (SaveFile.try_loads json_loads).
Local Abbreviation value_of_json := (SaveFile.value_of_json asarray).
Local Abbreviation line_value := (SaveFile.line_value json_loads asarray).
Local Abbreviation parse_line := (SaveFile.parse_line json_loads asarray).
Local Abbreviation parse_lines := (SaveFile.parse_lines json_loads asarray).
Local Abbreviation parse_file_lines := (SaveFile.parse_file_lines json_loads asarray).
Local Abbreviation parse_line_meta := (parse_line_meta json_loads asarray).
Local Abbreviation parse_line_data := (parse_line_data json_loads asarray).
Local Abbreviation parse_line_skip := (parse_line_skip json_loads asarray).
Local Abbreviation parse_line_kind := (parse_line_kind).
Local Abbreviation parse_lines_cons := (parse_lines_cons json_loads asarray).
Local Abbreviation parse_lines_app := (parse_lines_app json_loads asarray).

(** A line of a full parse keeps the metadata, unless it is the first
    line that starts with ["#"], which loads it. *)
Lemma parse_line_meta_frame (line : string) (st : parse_state) (r : parse_state * bool) :
  parse_line false line st = Ret r ->
  (meta_loaded st = true \/ pystr.startswith "#" line = false ->
   meta_data (fst r) = meta_data st /\ meta_loaded (fst r) = meta_loaded st) /\
  (meta_loaded st = false -> pystr.startswith "#" line = true ->
   meta_loaded (fst r) = true).
Proof.
  destruct (parse_line_kind line st) as [[Hc Hl] | [[Hc Hne] | Hs]].
  - rewrite (parse_line_meta false line st Hc Hl).
    destruct (try_loads (pystr.drop 1 line)) as [d | e]; [| discriminate].
    intros [= <-]. split; [intros [H | H]; congruence | reflexivity].
  - rewrite (parse_line_data line st Hc Hne).
    destruct (line_value _ _ _) as [ve | e]; [| discriminate].
    intros [= <-]. split; [intros _; split; reflexivity | congruence].
  - rewrite (parse_line_skip false line st Hs). intros [= <-].
    split; [intros _; split; reflexivity |].
    destruct Hs as [[_ H] | [H _]]; congruence.
Qed.

(** Once the metadata is loaded, no line changes it. *)
Lemma parse_lines_meta_loaded (lines : list string) : forall st st',
  meta_loaded st = true ->
  parse_lines false lines st = Ret st' ->
  meta_data st' = meta_data st /\ meta_loaded st' = true.
Proof.
  induction lines as [| line rest IH]; intros st st' H.
  - intros [= <-]. split; [reflexivity | exact H].
  - rewrite parse_lines_cons.
    destruct (parse_line false line st) as [r | e] eqn:E; cbn [bind]; [| discriminate].
    destruct (parse_line_meta_frame line st r E) as [Hf _].
    destruct (Hf (or_introl H)) as [E1 E2]. intros Hrest.
    assert (Hl : meta_loaded (fst r) = true) by congruence.
    destruct (IH _ _ Hl Hrest) as [H1 H2].
    split; [congruence | exact H2].
Qed.

Lemma parse_lines_metadata_only (lines : list string) : forall s1 s2 st2,
  meta_loaded s1 = false -> meta_loaded s2 = false ->
  meta_data s1 = meta_data s2 ->
  parse_lines false lines s2 = Ret st2 ->
  exists st1,
    parse_lines true lines s1 = Ret st1 /\
    saved_pvs st1 = saved_pvs s1 /\ meta_data st1 = meta_data st2 /\
    meta_loaded st1 = meta_loaded st2.
Proof.
  induction lines as [| line rest IH]; intros s1 s2 st2 H1 H2 Hm.
  - intros [= <-]. exists s1. repeat split; congruence.
  - rewrite parse_lines_cons. cbn [SaveFile.parse_lines].
    destruct (pystr.startswith "#" line) eqn:Hc.
    + rewrite (parse_line_meta false line s2 Hc H2), (parse_line_meta true line s1 Hc H1).
      destruct (try_loads (pystr.drop 1 line)) as [d | e]; cbn [bind fst snd];
        [| discriminate].
      intros Hrest.
      pose proof (fun H => parse_lines_meta_loaded rest _ st2 H Hrest) as Hx.
      destruct (Hx eq_refl) as [E1 E2]. clear Hx.
      eexists. split; [reflexivity |]. cbn [saved_pvs meta_data meta_loaded].
      cbn [meta_data] in E1. rewrite E1, E2, Hm. repeat split.
    + rewrite (parse_line_skip true line s1) by (right; auto). cbn [bind fst snd].
      destruct (parse_line false line s2) as [r | e] eqn:E; cbn [bind]; [| discriminate].
      destruct (parse_line_meta_frame line s2 r E) as [Hf _].
      destruct (Hf (or_intror Hc)) as [E1 E2].
      apply IH; congruence.
Qed.

Lemma cannot_decode_other (name : string) :
  cannot_decode name <> "No meta data in the file.".
Proof.
  unfold cannot_decode.
  change ("Value of '" +:+ name +:+ "' cannot be decoded. Will be ignored.")
    with (String "V" ("alue of '" +:+ name +:+ "' cannot be decoded. Will be ignored.")).
  discriminate.
Qed.

Lemma parse_lines_no_meta_error (mo : bool) (lines : list string) : forall st st',
  ~ In "No meta data in the file." (err st) ->
  parse_lines mo lines st = Ret st' ->
  ~ In "No meta data in the file." (err st').
Proof.
  induction lines as [| line rest IH]; intros st st' H.
  - intros [= <-]. exact H.
  - cbn [SaveFile.parse_lines].
    destruct (parse_line mo line st) as [r | e] eqn:E; cbn [bind]; [| discriminate].
    assert (Hr : ~ In "No meta data in the file." (err (fst r))).
    { revert E. unfold SaveFile.parse_line.
      destruct (pystr.startswith "#" line && negb (meta_loaded st)).
      - destruct (try_loads (pystr.drop 1 line)) as [[j |] | e]; cbn [bind];
          try discriminate; intros [= <-]; cbn [fst err]; [exact H |].
        rewrite in_app_iff. intros [Hin | [Hin | []]]; [exact (H Hin) | discriminate Hin].
      - destruct (negb mo && negb (String.eqb (pystr.strip line) "")
                  && negb (pystr.startswith "#" line)); [| intros [= <-]; exact H].
        unfold SaveFile.line_value.
        destruct (snd (pystr.split_once "," (pystr.strip line))) as [lit |].
        + destruct (try_loads lit) as [[j |] | e]; cbn [bind]; try discriminate.
          * destruct (value_of_json j); cbn [bind]; [| discriminate].
            intros [= <-]. exact H.
          * intros [= <-]. cbn [fst snd err]. rewrite in_app_iff.
            intros [Hin | [Hin | []]]; [exact (H Hin) |].
            exact (cannot_decode_other _ Hin).
        + intros [= <-]. exact H. }
    destruct (snd r); [intros [= <-]; exact Hr | apply IH, Hr].
Qed.

Lemma no_meta_error_iff (st : parse_state) :
  ~ In "No meta data in the file." (err st) ->
  (In "No meta data in the file." (snd (result_of st)) <-> meta_loaded st = false).
Proof.
  intros Hn. unfold SaveFile.result_of. cbn [snd].
  destruct (meta_loaded st).
  - split; [intros H; contradiction | discriminate].
  - split; [reflexivity | intros _; left; reflexivity].
Qed.

(** With [metadata_only] no PV is ever stored. *)
Lemma parse_lines_mo_saved (lines : list string) : forall s st,
  parse_lines true lines s = Ret st -> saved_pvs st = saved_pvs s.
Proof.
  induction lines as [| l ls IH]; intros s st; cbn [SaveFile.parse_lines].
  - intros [= <-]. reflexivity.
  - destruct (parse_line true l s) as [r0 | e] eqn:E; cbn [bind]; [| discriminate].
    assert (Hs : saved_pvs (fst r0) = saved_pvs s).
    { revert E. unfold SaveFile.parse_line.
      destruct (pystr.startswith "#" l && negb (meta_loaded s)).
      - destruct (try_loads (pystr.drop 1 l)) as [[j |] | e]; cbn [bind];
          try discriminate; intros [= <-]; reflexivity.
      - cbn [negb andb]. intros [= <-]. reflexivity. }
    destruct (snd r0); [intros [= <-]; exact Hs |].
    intros Hrest. rewrite (IH _ _ Hrest). exact Hs.
Qed.

(** X23: with [metadata_only] the function returns no PV at all; and
    whenever the full parse of a file returns, so does the parse with
    [metadata_only], and the metadata it returns, and whether it reports
    the "no metadata" error, are those of the full parse. *)
Theorem metadata_only_agrees (lines : list string)
    (r : gmap string pv_value * json * list string) :
  (parse_file_lines lines true = Ret r -> fst (fst r) = ∅) /\
  (parse_file_lines lines false = Ret r ->
   exists errs,
     parse_file_lines lines true = Ret (∅, snd (fst r), errs) /\
     (In "No meta data in the file." errs <->
      In "No meta data in the file." (snd r))).
Proof.
  unfold SaveFile.parse_file_lines. split.
  - destruct (parse_lines true lines initial) as [st |] eqn:E; cbn [bind];
      [| discriminate].
    intros [= <-]. cbn [fst result_of].
    rewrite (parse_lines_mo_saved lines _ _ E). reflexivity.
  - destruct (parse_lines false lines initial) as [st2 |] eqn:E; cbn [bind];
      [| discriminate].
    intros [= <-].
    destruct (parse_lines_metadata_only lines initial initial st2 eq_refl eq_refl eq_refl E)
      as (st1 & E1 & Hs & Hm & Hl).
    rewrite E1. cbn [bind]. eexists. split.
    + unfold SaveFile.result_of at 1. rewrite Hs, Hm. reflexivity.
    + pose proof (parse_lines_no_meta_error true lines initial st1 (fun H => H) E1) as Hn1.
      pose proof (parse_lines_no_meta_error false lines initial st2 (fun H => H) E) as Hn2.
      rewrite (no_meta_error_iff st2 Hn2), <- Hl.
      unfold SaveFile.result_of in Hn1 |- *. cbn [snd].
      destruct (meta_loaded st1).
      * split; [intros H; contradiction | discriminate].
      * split; [reflexivity | intros _; left; reflexivity].
Qed.

(** Two parses that start from states with the same metadata and errors
    go the same way. *)
Lemma parse_line_same_log (line : string) (s1 s2 : parse_state) :
  same_log s1 s2 ->
  res_rel (fun r1 r2 => same_log (fst r1) (fst r2))
          (parse_line false line s1) (parse_line false line s2).
Proof.
  intros (He & Hm & Hl).
  destruct (parse_line_kind line s2) as [[Hc Hl2] | [[Hc Hne] | H]].
  - rewrite (parse_line_meta false line s1 Hc ltac:(congruence)),
            (parse_line_meta false line s2 Hc Hl2).
    destruct (try_loads (pystr.drop 1 line)) as [[j |] | e]; cbn;
      repeat split; cbn; congruence.
  - rewrite (parse_line_data line s1 Hc Hne), (parse_line_data line s2 Hc Hne), He.
    destruct (line_value _ _ _) as [ve | e]; cbn; [| reflexivity].
    repeat split; cbn; auto.
  - rewrite (parse_line_skip false line s2 H).
    rewrite (parse_line_skip false line s1) by (rewrite Hl; exact H).
    cbn. repeat split; auto.
Qed.

Lemma parse_lines_same_log (lines : list string) : forall s1 s2,
  same_log s1 s2 ->
  res_rel same_log (parse_lines false lines s1) (parse_lines false lines s2).
Proof.
  induction lines as [| line rest IH]; intros s1 s2 H; [exact H |].
  rewrite !parse_lines_cons. pose proof (parse_line_same_log line s1 s2 H) as Hr.
  destruct (parse_line false line s1) as [r1 | e1],
           (parse_line false line s2) as [r2 | e2]; cbn in *;
    try contradiction; [apply IH, Hr | exact Hr].
Qed.

Lemma parse_lines_loaded (pre : list string) : forall s st,
  Exists (fun l => pystr.startswith "#" l = true) pre ->
  parse_lines false pre s = Ret st -> meta_loaded st = true.
Proof.
  induction pre as [| l pre IH]; intros s st Hex; [inversion Hex |].
  rewrite parse_lines_cons.
  destruct (parse_line false l s) as [r | e] eqn:E; cbn [bind]; [| discriminate].
  destruct (parse_line_meta_frame l s r E) as [Hf Hload].
  destruct (meta_loaded (fst r)) eqn:Hr.
  - intros Hrest. exact (proj2 (parse_lines_meta_loaded pre _ _ Hr Hrest)).
  - apply IH. inversion Hex as [? ? Hl | ? ? Hl]; subst; [| exact Hl].
    exfalso. destruct (meta_loaded s) eqn:Hs.
    + destruct (Hf (or_introl eq_refl)) as [_ E2]. congruence.
    + discriminate (Hload eq_refl Hl).
Qed.

(** X24: in a full parse, a blank line, and a line starting with ["#"]
    that follows an earlier such line, change nothing: the result is the
    one of the file without that line. *)
Theorem blank_and_comment_lines_ignored (pre post : list string) (line : string) :
  (pystr.strip line = "" /\ pystr.startswith "#" line = false) \/
  (pystr.startswith "#" line = true /\
   Exists (fun l => pystr.startswith "#" l = true) pre) ->
  parse_file_lines (pre ++ line :: post) false = parse_file_lines (pre ++ post) false.
Proof.
  intros H. unfold SaveFile.parse_file_lines. rewrite !parse_lines_app.
  destruct (parse_lines false pre initial) as [st | e] eqn:E; cbn [bind];
    [| reflexivity].
  rewrite parse_lines_cons, parse_line_skip; [reflexivity |].
  destruct H as [[Hb Hc] | [Hc Hex]]; [right; auto | left].
  split; [exact Hc | exact (parse_lines_loaded pre _ _ Hex E)].
Qed.

(** X25: a data line [name,literal] whose literal decodes binds [name]
    to the decoded value: [None] for [null], the array of the items for a
    list that [numpy.asarray] accepts, the value itself otherwise; and a
    data line without a comma binds its name to [None].  Such a line does
    not change whether the parse returns: the file with the line and the
    file without it both return, or both raise the same exception.  When
    they return, the binding is what the function returns for [name]
    unless a later line defines [name] again, and the values of the other
    names, the metadata and the errors are those of the file without the
    line. *)
Theorem data_line_defines_value
    (pre post : list string) (line name : string) (v : pv_value) :
  pystr.startswith "#" line = false ->
  (exists lit j, pystr.split_once "," (pystr.strip line) = (name, Some lit) /\
                 json_loads lit = Ret j /\
                 match j with
                 | JNull => v = PvNone
                 | JList items => asarray items = None /\ v = PvArray items
                 | _ => v = PvJson j
                 end)
  \/ (pystr.strip line <> "" /\
      pystr.split_once "," (pystr.strip line) = (name, None) /\ v = PvNone) ->
  res_rel
    (fun r r' =>
       (Forall (fun l => line_name l <> Some name) post ->
        fst (fst r) !! name = Some v) /\
       (forall p, p <> name -> fst (fst r) !! p = fst (fst r') !! p) /\
       snd (fst r) = snd (fst r') /\
       snd r = snd r')
    (parse_file_lines (pre ++ line :: post) false)
    (parse_file_lines (pre ++ post) false).
Proof.
  intros Hc H. unfold SaveFile.parse_file_lines. rewrite !parse_lines_app.
  destruct (parse_lines false pre initial) as [st | e]; cbn [bind]; [| reflexivity].
  rewrite parse_lines_cons.
  assert (Hne : pystr.strip line <> "").
  { destruct H as [(lit & j & Hs & _) | (Hne & _)]; [| exact Hne].
    exact (split_once_empty _ _ _ _ Hs). }
  assert (Hv : line_value name (snd (pystr.split_once "," (pystr.strip line))) (err st)
               = Ret (v, err st)).
  { destruct H as [(lit & j & -> & Hj & Hval) | (_ & -> & ->)]; [| reflexivity].
    cbn [snd]. unfold SaveFile.line_value, SaveFile.try_loads. rewrite Hj. cbn [bind].
    destruct j; try (rewrite Hval; reflexivity).
    destruct Hval as [Ha ->]. cbn. rewrite Ha. reflexivity. }
  assert (Hn : fst (pystr.split_once "," (pystr.strip line)) = name).
  { destruct H as [(lit & j & -> & _) | (_ & -> & _)]; reflexivity. }
  rewrite (parse_line_data line st Hc Hne), Hn, Hv. cbn [bind fst snd].
  set (st1 := {| saved_pvs := <[name := v]> (saved_pvs st); meta_data := meta_data st;
                 err := err st; meta_loaded := meta_loaded st |}).
  assert (Hlog : same_log st1 st) by (repeat split).
  assert (Hag : agree_except name st1 st).
  { repeat split. intros p Hp. cbn. apply lookup_insert_ne. congruence. }
  pose proof (parse_lines_same_log post st1 st Hlog) as Hr.
  pose proof (parse_lines_agree json_loads asarray name post st1 st Hag) as Hr'.
  pose proof (parse_lines_other json_loads asarray name post st1) as Hoth.
  destruct (parse_lines false post st1) as [s1 | e1],
           (parse_lines false post st) as [s2 | e2]; cbn in Hr, Hr' |- *;
    try contradiction; [| exact Hr].
  destruct Hr as (He & Hm & Hl). destruct Hr' as (Hs & _ & _).
  split; [| split; [| split]].
  - intros Hpost. rewrite (Hoth s1 Hpost eq_refl). apply lookup_insert_eq.
  - exact Hs.
  - exact Hm.
  - rewrite He, Hl. reflexivity.
Qed.

End SaveFileMoreProps.

Section SaveFileMoreExamples.

Lemma metadata_only_agrees_witness :
  exists errs,
    SaveFile.parse_file_lines ex_json_loads ex_asarray ex_save_lines true
    = Ret (∅, JObject [], errs) /\
    ~ In "No meta data in the file." errs.
Proof.
  destruct (SaveFile.parse_file_lines ex_json_loads ex_asarray ex_save_lines false)
    as [r | e] eqn:E; [| vm_compute in E; discriminate E].
  destruct (metadata_only_agrees ex_json_loads ex_asarray ex_save_lines r) as [_ H].
  destruct (H E) as (errs & Hmo & Hiff).
  assert (Hmeta : snd (fst r) = JObject []).
  { vm_compute in E. injection E as <-. reflexivity. }
  assert (Herr : ~ In "No meta data in the file." (snd r)).
  { vm_compute in E. injection E as <-. cbn. intros [H1 | []]. discriminate H1. }
  exists errs. rewrite Hmeta in Hmo. split; [exact Hmo |].
  intros Hin. apply Herr, Hiff, Hin.
Defined.

Lemma blank_and_comment_lines_ignored_witness :
  SaveFile.parse_file_lines ex_json_loads ex_asarray
    ["#{}"; "foo,1.5"; "# a remark"; "baz,[1,2,3]"] false
  = SaveFile.parse_file_lines ex_json_loads ex_asarray
      ["#{}"; "foo,1.5"; "baz,[1,2,3]"] false.
Proof.
  apply (blank_and_comment_lines_ignored ex_json_loads ex_asarray ["#{}"; "foo,1.5"]
           ["baz,[1,2,3]"] "# a remark").
  right. split; [reflexivity |]. left. reflexivity.
Defined.

Lemma data_line_defines_value_witness :
  exists r,
    SaveFile.parse_file_lines ex_json_loads ex_asarray ex_save_lines false = Ret r /\
    fst (fst r) !! "baz" = Some (PvArray [JInt 1; JInt 2; JInt 3]).
Proof.
  pose proof (data_line_defines_value ex_json_loads ex_asarray
                ["#{}"; "foo,1.5"; "bar,{bad"] []
                "baz,[1,2,3]" "baz" (PvArray [JInt 1; JInt 2; JInt 3]) eq_refl) as H.
  change (["#{}"; "foo,1.5"; "bar,{bad"] ++ ["baz,[1,2,3]"]) with ex_save_lines in H.
  destruct (SaveFile.parse_file_lines ex_json_loads ex_asarray ex_save_lines false)
    as [r | e] eqn:E; [| vm_compute in E; discriminate E].
  destruct (SaveFile.parse_file_lines ex_json_loads ex_asarray
              (["#{}"; "foo,1.5"; "bar,{bad"] ++ []) false)
    as [r' | e'] eqn:E'; [| vm_compute in E'; discriminate E'].
  exists r. split; [reflexivity |].
  apply H; [| constructor].
  left. exists "[1,2,3]", (JList [JInt 1; JInt 2; JInt 3]). repeat split.
Defined.

End SaveFileMoreExamples.

Section CycleProps.

Lemma start_entry_events (w : world) (pv : SnapshotPv) :
  Forall (fun e => is_poll_event e = true) (snd (start_entry w pv)) /\
  pvname (fst (start_entry w pv)) = pvname pv.
Proof.
  unfold start_entry, _get_start.
  destruct (_initialized pv), (connected pv) eqn:Hc, (PV_get_ctrlvars w),
    (ca_get_with_metadata w); simpl; rewrite ?Hc; simpl;
    split; repeat constructor.
Qed.

Lemma get_complete_events (w : world) (pv : SnapshotPv) :
  Forall (fun e => is_poll_event e = true) (snd (_get_complete w pv false)) /\
  pvname (snd (fst (_get_complete w pv false))) = pvname pv.
Proof.
  unfold _get_complete.
  destruct (connected pv), (ca_get_complete_with_metadata w); simpl;
    split; repeat constructor.
Qed.

Lemma start_all_events (pvs : list (world * SnapshotPv)) :
  Forall (fun e => is_poll_event e = true) (snd (start_all pvs)) /\
  List.map (fun wp => pvname (snd wp)) (fst (start_all pvs))
  = List.map (fun wp => pvname (snd wp)) pvs.
Proof.
  induction pvs as [| [w pv] rest [IH1 IH2]]; simpl; [split; constructor |].
  destruct (start_entry_events w pv) as [H1 H2].
  destruct (start_entry w pv) as [pv1 evs1]. destruct (start_all rest) as [rest1 evs2].
  simpl in *. split; [apply Forall_app; split; assumption | congruence].
Qed.

Lemma complete_all_events (pvs : list (world * SnapshotPv)) :
  Forall (fun e => is_poll_event e = true) (snd (complete_all pvs)) /\
  List.map (fun wp => pvname (snd wp)) (snd (fst (complete_all pvs)))
  = List.map (fun wp => pvname (snd wp)) pvs /\
  List.length (fst (fst (complete_all pvs))) = List.length pvs.
Proof.
  induction pvs as [| [w pv] rest (IH1 & IH2 & IH3)]; simpl;
    [repeat split; constructor |].
  destruct (get_complete_events w pv) as [H1 H2].
  destruct (_get_complete w pv false) as [[val pv1] evs1].
  destruct (complete_all rest) as [[vals rest1] evs2].
  simpl in *. repeat split; [apply Forall_app; split; assumption | congruence | congruence].
Qed.

(** X26: a polling cycle only ever reads control variables, starts and
    completes non-blocking reads, and calls the updater's callback: it
    never calls [put], [PV.get] or a restore callback.  A cycle that is
    not suspended ends with one call of the callback, with one value per
    PV, and the PVs keep their names and their order; a suspended cycle
    does nothing. *)
Theorem cycle_only_polls (_suspend : bool) (pvs : list (world * SnapshotPv)) :
  Forall (fun e => is_poll_event e = true) (snd (cycle _suspend pvs)) /\
  List.map (fun wp => pvname (snd wp)) (fst (cycle _suspend pvs))
  = List.map (fun wp => pvname (snd wp)) pvs /\
  (exists evs vals,
     snd (cycle false pvs) = evs ++ [EvCycleCallback vals] /\
     List.length vals = List.length pvs /\
     Forall (fun e => forall vs, e <> EvCycleCallback vs) evs) /\
  cycle true pvs = (pvs, []).
Proof.
  assert (Hnc : forall l, Forall (fun e => is_poll_event e = true) l ->
                (forall e, In e l -> forall vs, e <> EvCycleCallback vs) ->
                Forall (fun e => forall vs, e <> EvCycleCallback vs) l).
  { intros l _ H. apply List.Forall_forall. exact H. }
  destruct (start_all_events pvs) as [S1 S2].
  assert (Hlen : List.length (fst (start_all pvs)) = List.length pvs).
  { rewrite <- (List.length_map (fun wp => pvname (snd wp)) (fst (start_all pvs))), S2.
    apply List.length_map. }
  destruct (complete_all_events (fst (start_all pvs))) as (C1 & C2 & C3).
  assert (Hs : forall e, In e (snd (start_all pvs)) -> forall vs, e <> EvCycleCallback vs).
  { clear. induction pvs as [| [w pv] rest IH]; simpl; [intros e [] |].
    unfold start_entry, _get_start.
    destruct (start_all rest) as [rest1 evs2]. simpl in *.
    destruct (_initialized pv), (connected pv) eqn:Hc, (PV_get_ctrlvars w),
      (ca_get_with_metadata w); simpl; rewrite ?Hc; simpl;
      intros e H vs; repeat (destruct H as [<- | H]; [discriminate |]);
      exact (IH e H vs). }
  assert (Hc : forall l e, In e (snd (complete_all l)) -> forall vs, e <> EvCycleCallback vs).
  { clear. induction l as [| [w pv] rest IH]; simpl; [intros e [] |].
    unfold _get_complete.
    destruct (complete_all rest) as [[vals rest1] evs2]. simpl in *.
    destruct (connected pv), (ca_get_complete_with_metadata w); simpl;
      intros e H vs; repeat (destruct H as [<- | H]; [discriminate |]);
      exact (IH e H vs). }
  specialize (Hc (fst (start_all pvs))).
  unfold cycle.
  destruct (start_all pvs) as [pvs1 evs1]. simpl in *.
  destruct (complete_all pvs1) as [[vals pvs2] evs2]. simpl in *.
  split; [| split; [| split]].
  - destruct _suspend; simpl; [constructor |].
    repeat (apply Forall_app; split); try assumption. repeat constructor.
  - destruct _suspend; simpl; [reflexivity | congruence].
  - exists (evs1 ++ evs2), vals. rewrite <- app_assoc.
    split; [reflexivity |]. split; [congruence |].
    apply List.Forall_forall. intros e He. apply in_app_iff in He.
    destruct He as [He | He]; [exact (Hs e He) | exact (Hc e He)].
  - reflexivity.
Qed.

(** X27: PVs that are not connected cause no channel traffic: a cycle
    over disconnected PVs leaves every PV exactly as it was and only
    calls the callback, with [None] for each PV. *)
Theorem cycle_skips_disconnected (pvs : list (world * SnapshotPv)) :
  Forall (fun wp => connected (snd wp) = false) pvs ->
  cycle false pvs = (pvs, [EvCycleCallback (List.map (fun _ => PyNone) pvs)]).
Proof.
  intros H.
  assert (Hboth : start_all pvs = (pvs, []) /\
                  complete_all pvs = (List.map (fun _ => PyNone) pvs, pvs, [])).
  { induction H as [| [w pv] rest Hc _ [IH1 IH2]]; [split; reflexivity |].
    simpl in *. unfold start_entry, _get_start, _get_complete.
    rewrite IH1, IH2, Hc. split; [| reflexivity].
    destruct (_initialized pv); simpl; rewrite Hc; reflexivity. }
  destruct Hboth as [Hs Hc]. unfold cycle. rewrite Hs, Hc. reflexivity.
Qed.

Lemma cycle_skips_disconnected_witness :
  cycle false [(fast_world, offline_pv)]
  = ([(fast_world, offline_pv)], [EvCycleCallback [PyNone]]).
Proof.
  apply (cycle_skips_disconnected [(fast_world, offline_pv)]).
  repeat constructor.
Defined.

(** X28: after a cycle in which the control variables of a connected PV
    arrive and its read completes with [v], the PV is initialized, holds
    [v], has no read pending, and any later read of [value] returns [v]
    without a call to the channel. *)
Theorem value_after_cycle
    (pvs : list (world * SnapshotPv)) (i : nat) (w w' : world)
    (pv : SnapshotPv) (v : pyvalue) :
  pvs !! i = Some (w, pv) ->
  connected pv = true ->
  PV_get_ctrlvars w = true ->
  ca_get_complete_with_metadata w = Completed v ->
  exists pv',
    fst (cycle false pvs) !! i = Some (w, pv') /\
    _initialized pv' = true /\ _pvget_completer pv' = false /\
    value w' pv' = (v, pv', []).
Proof.
  intros Hi Hc Hctrl Hrep.
  destruct (cycle_completes pvs) as [evs Hcyc].
  destruct (cycle_lookup pvs i w pv Hi) as [_ Hp].
  rewrite Hcyc. cbn [fst].
  eexists. split; [exact Hp |].
  assert (E : snd (fst (_get_complete w (fst (start_entry w pv)) false))
              = set_last_value v (set_pvget_completer false
                                    (fst (start_entry w pv)))).
  { destruct (start_entry_frame w pv) as [_ Hconn].
    unfold _get_complete. rewrite Hconn, Hc, Hrep. reflexivity. }
  rewrite E.
  assert (Hinit : _initialized (fst (start_entry w pv)) = true).
  { unfold start_entry, _get_start. rewrite Hc, Hctrl.
    destruct (_initialized pv) eqn:Hi0, (ca_get_with_metadata w); simpl;
      rewrite ?Hc; simpl; rewrite ?Hi0; reflexivity. }
  split; [exact Hinit |]. split; [reflexivity |].
  rewrite value_initialized by exact Hinit. reflexivity.
Qed.

Lemma value_after_cycle_witness :
  exists pv',
    fst (cycle false two_entries) !! 1%nat = Some (fast_world, pv') /\
    value slow_world pv' = (PyScalar (Num (Int 3)), pv', []).
Proof.
  destruct (value_after_cycle two_entries 1 fast_world slow_world
              (SnapshotPv_init "FAST" true true true false) (PyScalar (Num (Int 3)))
              eq_refl eq_refl eq_refl eq_refl) as (pv' & H1 & _ & _ & H2).
  exists pv'. split; assumption.
Defined.

End CycleProps.

Section ConnCallbackExamples.

Lemma add_conn_callback_fresh_witness :
  1%Z <> snd (add_conn_callback [(0%Z, 10%nat); (1%Z, 11%nat)] 12%nat) /\
  conn_get 1 (fst (add_conn_callback [(0%Z, 10%nat); (1%Z, 11%nat)] 12%nat))
  = Some 11%nat.
Proof.
  assert (H : 1%Z <> snd (add_conn_callback [(0%Z, 10%nat); (1%Z, 11%nat)] 12%nat))
    by (vm_compute; discriminate).
  split; [exact H |].
  destruct (add_conn_callback_fresh [(0%Z, 10%nat); (1%Z, 11%nat)] 12%nat)
    as (_ & _ & _ & Hk).
  rewrite (Hk 1%Z H). reflexivity.
Defined.

End ConnCallbackExamples.

Section DisplayProps.

Variable fmt_float : float64.t -> string.

Local Abbreviation display := (value_to_display_str_array fmt_float).

Lemma display_items_length (a : ndarray) :
  List.length (display_items fmt_float a) = numpy.size (PyArray a).
Proof. destruct a; simpl; [apply List.length_map | apply List.length_map | reflexivity]. Qed.

(** X29: the display string of an array value is [None] exactly for an
    empty array; a scalar is shown like the one-element array that holds
    it; an array of more than three elements is abbreviated to its first
    and last elements, so what lies between them does not show. *)
Theorem display_of_arrays (x : scalar) (a b : ndarray) (v : pyvalue) :
  (display v = None <-> numpy.size v = 0%nat) /\
  display (PyScalar x) = display (PyArray (numpy.array1 x)) /\
  ((3 < numpy.size (PyArray a))%nat ->
   display (PyArray a)
   = Some ("[" +:+ List.hd "" (display_items fmt_float a) +:+ " ... "
           +:+ List.last (display_items fmt_float a) "" +:+ "]")) /\
  ((3 < numpy.size (PyArray a))%nat -> (3 < numpy.size (PyArray b))%nat ->
   List.hd "" (display_items fmt_float a) = List.hd "" (display_items fmt_float b) ->
   List.last (display_items fmt_float a) "" = List.last (display_items fmt_float b) "" ->
   display (PyArray a) = display (PyArray b)).
Proof.
  assert (Hlong : forall c, (3 < numpy.size (PyArray c))%nat ->
            display (PyArray c)
            = Some ("[" +:+ List.hd "" (display_items fmt_float c) +:+ " ... "
                    +:+ List.last (display_items fmt_float c) "" +:+ "]")).
  { intros c H. unfold value_to_display_str_array.
    destruct (Nat.eqb_spec (numpy.size (PyArray c)) 0) as [E | _]; [lia |].
    destruct (Nat.ltb_spec 3 (numpy.size (PyArray c))) as [_ | E]; [reflexivity | lia]. }
  split; [| split; [| split]].
  - unfold value_to_display_str_array.
    destruct (Nat.eqb_spec (numpy.size v) 0) as [E | E]; [tauto |].
    split; [| intros H; contradiction].
    destruct v as [| [[n | f] | s] | c]; try discriminate.
    destruct (3 <? numpy.size (PyArray c))%nat; discriminate.
  - destruct x as [[n | f] | s]; reflexivity.
  - apply Hlong.
  - intros Ha Hb Hh Hl. rewrite (Hlong a Ha), (Hlong b Hb), Hh, Hl. reflexivity.
Qed.

End DisplayProps.

Section DisplayExamples.

Lemma display_of_arrays_witness :
  value_to_display_str_array (fun _ => "0.000000")
    (PyArray (IntArray [1; 2; 3; 4; 5]%Z))
  = Some "[1 ... 5]".
Proof.
  destruct (display_of_arrays (fun _ => "0.000000") (Num (Int 0))
              (IntArray [1; 2; 3; 4; 5]%Z) (IntArray []) PyNone)
    as (_ & _ & H & _).
  rewrite H; [reflexivity | simpl; lia].
Defined.

End DisplayExamples.

Section SaveFileDomain.

Variable json_loads : string -> res json.
Variable asarray : list json -> option exn.

Import SaveFile.

Local Abbreviation parse_line := (SaveFile.parse_line json_loads asarray).
Local Abbreviation parse_lines := (SaveFile.parse_lines json_loads asarray).
Local Abbreviation parse_file_lines := (SaveFile.parse_file_lines json_loads asarray).

Lemma line_name_data (line : string) :
  pystr.startswith "#" line = false -> pystr.strip line <> "" ->
  line_name line = Some (fst (pystr.split_once "," (pystr.strip line))).
Proof.
  intros Hc Hne. unfold line_name. rewrite Hc.
  destruct (String.eqb_spec (pystr.strip line) "") as [E | _]; [contradiction |].
  reflexivity.
Qed.

Lemma line_name_none (line : string) :
  pystr.startswith "#" line = true \/ pystr.strip line = "" -> line_name line = None.
Proof.
  unfold line_name. intros [-> | ->]; [| reflexivity].
  cbn [negb]. rewrite andb_false_r. reflexivity.
Qed.

Lemma parse_line_dom (line k : string) (st : parse_state) (r : parse_state * bool) :
  parse_line false line st = Ret r ->
  (is_Some (saved_pvs (fst r) !! k)
   <-> is_Some (saved_pvs st !! k) \/ line_name line = Some k).
Proof.
  assert (Hsame : forall s : parse_state,
            saved_pvs s = saved_pvs st -> line_name line = None ->
            (is_Some (saved_pvs s !! k)
             <-> is_Some (saved_pvs st !! k) \/ line_name line = Some k)).
  { intros s -> ->. split; [intros H; left; exact H | intros [H | H]; [exact H | discriminate H]]. }
  destruct (parse_line_kind line st) as [[Hc Hl] | [[Hc Hne] | Hs]].
  - rewrite (parse_line_meta json_loads asarray false line st Hc Hl).
    destruct (SaveFile.try_loads json_loads (pystr.drop 1 line)) as [d | e];
      [| discriminate].
    intros [= <-]. apply Hsame; [reflexivity | apply line_name_none; auto].
  - rewrite (parse_line_data json_loads asarray line st Hc Hne).
    destruct (SaveFile.line_value _ _ _ _ _) as [ve | e]; [| discriminate].
    intros [= <-]. cbn [fst saved_pvs]. rewrite (line_name_data line Hc Hne).
    set (name := fst (pystr.split_once "," (pystr.strip line))).
    destruct (decide (name = k)) as [-> | Hne'].
    + rewrite lookup_insert_eq. split; [intros _; right; reflexivity | eauto].
    + rewrite lookup_insert_ne by exact Hne'.
      split; [intros H; left; exact H | intros [H | H]; [exact H | congruence]].
  - rewrite (parse_line_skip json_loads asarray false line st Hs).
    intros [= <-]. apply Hsame; [reflexivity |]. apply line_name_none.
    destruct Hs as [[H _] | [_ [H | H]]]; [auto | discriminate H | auto].
Qed.

Lemma parse_lines_dom (lines : list string) (k : string) : forall st st',
  parse_lines false lines st = Ret st' ->
  (is_Some (saved_pvs st' !! k)
   <-> is_Some (saved_pvs st !! k) \/ Exists (fun l => line_name l = Some k) lines).
Proof.
  induction lines as [| line rest IH]; intros st st'.
  - intros [= <-]. rewrite List.Exists_nil. tauto.
  - rewrite (parse_lines_cons json_loads asarray).
    destruct (parse_line false line st) as [r | e] eqn:E; cbn [bind]; [| discriminate].
    intros Hrest. rewrite (IH _ _ Hrest), (parse_line_dom line k st r E), List.Exists_cons.
    tauto.
Qed.

(** X30: when the full parse of a file returns, it returns a value for
    exactly the names of the data lines of the file, that is of the lines
    that are not blank and do not start with ["#"]. *)
Theorem saved_names_are_data_lines (lines : list string) (k : string)
    (r : gmap string pv_value * json * list string) :
  parse_file_lines lines false = Ret r ->
  (is_Some (fst (fst r) !! k) <-> Exists (fun l => line_name l = Some k) lines).
Proof.
  unfold SaveFile.parse_file_lines.
  destruct (parse_lines false lines initial) as [st |] eqn:E; cbn [bind]; [| discriminate].
  intros [= <-]. cbn [fst result_of].
  rewrite (parse_lines_dom lines k _ _ E). cbn [saved_pvs initial]. rewrite lookup_empty.
  split; [intros [[x H] | H]; [discriminate H | exact H] | intros H; right; exact H].
Qed.

End SaveFileDomain.

Section SaveFileDomainExamples.

Lemma saved_names_are_data_lines_witness :
  exists r,
    SaveFile.parse_file_lines ex_json_loads ex_asarray ex_save_lines false = Ret r /\
    is_Some (fst (fst r) !! "bar") /\ ~ is_Some (fst (fst r) !! "#{}").
Proof.
  destruct (SaveFile.parse_file_lines ex_json_loads ex_asarray ex_save_lines false)
    as [r | e] eqn:E; [| vm_compute in E; discriminate E].
  exists r. split; [reflexivity |].
  split.
  - apply (saved_names_are_data_lines ex_json_loads ex_asarray ex_save_lines "bar" r E).
    right. right. left. reflexivity.
  - intros H.
    apply (saved_names_are_data_lines ex_json_loads ex_asarray ex_save_lines "#{}" r E) in H.
    repeat (apply List.Exists_cons in H; destruct H as [H | H]; [discriminate H |]).
    inversion H.
Defined.

End SaveFileDomainExamples.
